(** * The continuous-learning task scheduler

    A shallow embedding of [ContinuousLearningEngine]
    (src/ai-services/services/continuous_learning.py): the priority queue of
    learning tasks, the worker that executes them, the model registry, the
    performance metrics with the aggregate "human intelligence" score, and
    the auto-scheduler.

    Conventions of the embedding.
    - Python [float]s are read as exact rationals, plus [NaN] (the mean of an
      empty vector); rounding is not modelled.  The one exception is the
      quotient of two integers in [_are_datasets_compatible], which is
      rounded to binary64 as IEEE 754 prescribes, with the standard
      library's specification of the division.
    - Python [dict]s keep insertion order, and the code iterates over them, so
      they are association lists with in-place update ([dict_set]).
    - numpy arrays are matrices of rationals.  What the numerical kernels
      compute (random initial weights, random updates, forward passes,
      clustering) is not determined by the program text; it is supplied by an
      environment record [Env], one per executed task.
    - Exceptions are values of [PyExn]; stateful methods live in the monad
      [M], which threads the engine and propagates exceptions.
    - Only [logger.error] records are kept (field [error_log]). *)

From Stdlib Require Import ZArith QArith Qminmax Lia Sorted Ascii.
From stdpp Require Import base option list strings pretty.
From Stdlib Require SpecFloat.

(** ** Python values *)

(** A Python float: an exact rational or nan. *)
Inductive pyfloat : Type :=
| Fin (q : Q)
| NaN.

Definition fadd (a b : pyfloat) : pyfloat :=
  match a, b with
  | Fin x, Fin y => Fin (x + y)%Q
  | _, _ => NaN
  end.

Definition fmul (a b : pyfloat) : pyfloat :=
  match a, b with
  | Fin x, Fin y => Fin (x * y)%Q
  | _, _ => NaN
  end.

(** [a < b]; every comparison with nan is false. *)
Definition flt (a b : pyfloat) : bool :=
  match a, b with
  | Fin x, Fin y => if Qlt_le_dec x y then true else false
  | _, _ => false
  end.

Definition feqb (a b : pyfloat) : bool :=
  match a, b with
  | Fin x, Fin y => Qeq_bool x y
  | _, _ => false
  end.

(** The builtin [min(a, b)]: the first argument unless the second is
    strictly smaller. *)
Definition pymin (a b : pyfloat) : pyfloat :=
  if flt b a then b else a.

(** Exceptions that the modelled code can raise. *)
Inductive PyExn : Type :=
| TypeError           (* '<' not supported between two LearningTask objects *)
| IndexError
| KeyError
| UnboundLocalError   (* a local read before any assignment *)
| ZeroDivisionError
| OverflowError       (* integer division result too large for a float *)
| MemoryError         (* raised by numpy while allocating or computing *)
| OSError.            (* raised by os.makedirs / open / pickle.dump *)

(** Values stored in a task's free-form parameter map. *)
Inductive PyValue : Type :=
| VFloat (x : pyfloat)
| VStr (s : string).

Definition pyvalue_eqb (a b : PyValue) : bool :=
  match a, b with
  | VFloat x, VFloat y => feqb x y
  | VStr s, VStr t => String.eqb s t
  | _, _ => false
  end.

(** ** Insertion-ordered dictionaries with string keys *)

Section Dict.
Context {V : Type}.

Definition dict : Type := list (string * V).

(** [d.get(k)] *)
Fixpoint dict_get (k : string) (d : dict) : option V :=
  match d with
  | [] => None
  | (k', v) :: rest => if String.eqb k k' then Some v else dict_get k rest
  end.

(** [k in d] *)
Definition dict_in (k : string) (d : dict) : bool :=
  match dict_get k d with Some _ => true | None => false end.

(** [d[k] = v]: an existing key keeps its position, a new key goes last. *)
Fixpoint dict_set (k : string) (v : V) (d : dict) : dict :=
  match d with
  | [] => [(k, v)]
  | (k', v') :: rest =>
      if String.eqb k k' then (k, v) :: rest else (k', v') :: dict_set k v rest
  end.

(** [list(d.keys())] *)
Definition dict_keys (d : dict) : list string := map fst d.

(** [d1 == d2]: same keys with equal values, in any order. *)
Definition dict_eqb (veqb : V -> V -> bool) (d1 d2 : dict) : bool :=
  Nat.eqb (length d1) (length d2)
  && forallb (fun kv => match dict_get (fst kv) d2 with
                        | Some v => veqb (snd kv) v
                        | None => false
                        end) d1.
End Dict.

Arguments dict : clear implicits.

(** ** Tasks *)

Inductive LearningMode : Type :=
| SUPERVISED
| UNSUPERVISED
| REINFORCEMENT
| TRANSFER.

(** [LearningMode.value] *)
Definition mode_value (m : LearningMode) : string :=
  match m with
  | SUPERVISED => "supervised"
  | UNSUPERVISED => "unsupervised"
  | REINFORCEMENT => "reinforcement"
  | TRANSFER => "transfer"
  end.

Definition mode_eqb (a b : LearningMode) : bool :=
  String.eqb (mode_value a) (mode_value b).

(** The dataclass [LearningTask].  [created_at] is the reading of
    [datetime.now()], in microseconds. *)
Record LearningTask : Type := mkTask {
  task_id : string;
  dataset_name : string;
  learning_mode : LearningMode;
  priority : Z;
  parameters : dict PyValue;
  created_at : Z;
  status : string
}.

Definition set_status (s : string) (t : LearningTask) : LearningTask :=
  mkTask (task_id t) (dataset_name t) (learning_mode t) (priority t)
         (parameters t) (created_at t) s.

(** The [__eq__] that [@dataclass] generates: the tuples of all fields are
    compared.  No ordering method is generated ([order=False]). *)
Definition task_eqb (a b : LearningTask) : bool :=
  String.eqb (task_id a) (task_id b)
  && String.eqb (dataset_name a) (dataset_name b)
  && mode_eqb (learning_mode a) (learning_mode b)
  && Z.eqb (priority a) (priority b)
  && dict_eqb pyvalue_eqb (parameters a) (parameters b)
  && Z.eqb (created_at a) (created_at b)
  && String.eqb (status a) (status b).

(** ** The priority queue

    [queue.PriorityQueue] keeps its entries in a list managed by [heapq]:
    [put] is [heappush] and [get] is [heappop].  The entries are the tuples
    [(priority, task)].  The definitions below follow CPython's [_heapq],
    the implementation that [queue] runs; it agrees with the pure-Python
    [heapq.py] on every call that does not raise. *)

Definition Item : Type := Z * LearningTask.

(** [a < b] on tuples [(priority, task)]: the first position where the
    tuples differ decides.  Equal priorities leave the decision to the task
    objects, which are unorderable. *)
Definition item_lt (a b : Item) : PyExn + bool :=
  if Z.eqb (fst a) (fst b) then
    if task_eqb (snd a) (snd b) then inr false else inl TypeError
  else inr (Z.ltb (fst a) (fst b)).

Definition swap {A : Type} (l : list A) (i j : nat) : list A :=
  match l !! i, l !! j with
  | Some x, Some y => <[j := x]> (<[i := y]> l)
  | _, _ => l
  end.

(** [siftdown(heap, 0, pos)]: bubble the entry at [pos] towards the root
    while it is smaller than its parent.  [fuel] bounds the number of
    iterations; the parent index is strictly smaller, so [fuel = pos] is
    never exhausted before the loop ends. *)
Fixpoint siftdown (fuel : nat) (heap : list Item) (pos : nat)
  : list Item * option PyExn :=
  match fuel with
  | O => (heap, None)
  | S fuel' =>
      if Nat.ltb 0 pos then
        let parentpos := Nat.div (pos - 1) 2 in
        match heap !! pos, heap !! parentpos with
        | Some newitem, Some parent =>
            match item_lt newitem parent with
            | inl ex => (heap, Some ex)
            | inr true => siftdown fuel' (swap heap pos parentpos) parentpos
            | inr false => (heap, None)
            end
        | _, _ => (heap, Some IndexError)
        end
      else (heap, None)
  end.

(** [heappush(heap, item)] *)
Definition heappush (heap : list Item) (item : Item) : list Item * option PyExn :=
  let heap' := heap ++ [item] in
  siftdown (length heap) heap' (length heap).

(** The first loop of [siftup(heap, pos)]: move the smaller child up until
    a leaf is reached; returns the leaf position. *)
Fixpoint siftup_loop (fuel : nat) (heap : list Item) (pos : nat)
  : list Item * (PyExn + nat) :=
  match fuel with
  | O => (heap, inr pos)
  | S fuel' =>
      let endpos := length heap in
      let limit := Nat.div endpos 2 in
      if Nat.ltb pos limit then
        let childpos := (2 * pos + 1)%nat in
        let pick : PyExn + nat :=
          if Nat.ltb (childpos + 1) endpos then
            match heap !! childpos, heap !! (childpos + 1)%nat with
            | Some a, Some b =>
                match item_lt a b with
                | inl ex => inl ex
                | inr true => inr childpos
                | inr false => inr (childpos + 1)%nat
                end
            | _, _ => inl IndexError
            end
          else inr childpos in
        match pick with
        | inl ex => (heap, inl ex)
        | inr c => siftup_loop fuel' (swap heap c pos) c
        end
      else (heap, inr pos)
  end.

Definition siftup (heap : list Item) (pos : nat) : list Item * option PyExn :=
  match siftup_loop (length heap) heap pos with
  | (heap', inl ex) => (heap', Some ex)
  | (heap', inr leaf) => siftdown leaf heap' leaf
  end.

(** [heappop(heap)] *)
Definition heappop (heap : list Item) : list Item * (PyExn + Item) :=
  match last heap with
  | None => (heap, inl IndexError)
  | Some lastelt =>
      let heap1 := take (length heap - 1) heap in
      match heap1 with
      | [] => (heap1, inr lastelt)
      | returnitem :: _ =>
          let heap2 := <[0%nat := lastelt]> heap1 in
          match siftup heap2 0 with
          | (heap3, Some ex) => (heap3, inl ex)
          | (heap3, None) => (heap3, inr returnitem)
          end
      end
  end.

(** ** Datasets, artifacts and the engine state *)

Record DatasetInfo : Type := mkInfo {
  type_ : string;
  features : Z;
  classes : Z;
  samples : Z;
  default_mode : LearningMode      (* key 'learning_mode' *)
}.

Definition ndarray : Type := list (list Q).

(** The dictionary built by [_create_neural_network]. *)
Record Params : Type := mkParams {
  W1 : ndarray;
  b1 : ndarray;
  W2 : ndarray;
  b2 : ndarray
}.

(** What [_load_dataset] returns, as far as the bookkeeping reads it: the
    labels of the held-out split and the registry descriptor.  The feature
    matrices only feed the numerical kernels of [Env]. *)
Record Dataset : Type := mkDataset {
  ds_y_test : list nat;
  info : DatasetInfo
}.

(** The strategy-specific keys of a model-registry entry. *)
Inductive Artifact : Type :=
| SupervisedModel (model : Params) (accuracy : pyfloat)
| Clusters (centroids reduced_features : ndarray)
| QTable (q_table : ndarray)
| TransferredModel (model : Params) (source_model : string).

(** An entry of [model_registry]. *)
Record ModelInfo : Type := mkModelInfo {
  artifact : Artifact;
  mi_dataset : string;             (* key 'dataset' *)
  mi_created_at : Z                (* key 'created_at' *)
}.

(** ['model' in model_info] *)
Definition model_of (mi : ModelInfo) : option Params :=
  match artifact mi with
  | SupervisedModel m _ => Some m
  | TransferredModel m _ => Some m
  | _ => None
  end.

(** ['accuracy' in model_info] *)
Definition accuracy_of (mi : ModelInfo) : option pyfloat :=
  match artifact mi with
  | SupervisedModel _ a => Some a
  | _ => None
  end.

(** An entry of [performance_metrics]. *)
Record Metric : Type := mkMetric {
  pm_accuracy : pyfloat;
  pm_dataset : string;
  pm_learning_mode : string;
  pm_created_at : Z;
  human_intelligence_contribution : pyfloat
}.

(** The records written with [logger.error]. *)
Inductive LogRecord : Type :=
| UnknownDatasetError (name : string)            (* "Unknown dataset: ..." *)
| FailedToLoadError (name : string)              (* "Failed to load dataset: ..." *)
| TaskFailedError (id : string) (ex : PyExn)     (* "Learning task failed: ..." *)
| WorkerError (ex : PyExn).                      (* "Learning worker error: ..." *)

(** The attributes of [ContinuousLearningEngine] that the modelled methods
    use, with [models_dir], the pickled files [models/<task_id>.pkl]. *)
Record Engine : Type := mkEngine {
  learning_queue : list Item;
  model_registry : dict ModelInfo;
  performance_metrics : dict Metric;
  human_intelligence_score : pyfloat;
  epochs_per_task : nat;
  dataset_registry : dict DatasetInfo;
  models_dir : dict ModelInfo;
  error_log : list LogRecord
}.

Definition set_queue (q : list Item) (e : Engine) : Engine :=
  mkEngine q (model_registry e) (performance_metrics e)
           (human_intelligence_score e) (epochs_per_task e)
           (dataset_registry e) (models_dir e) (error_log e).

Definition set_model_registry (r : dict ModelInfo) (e : Engine) : Engine :=
  mkEngine (learning_queue e) r (performance_metrics e)
           (human_intelligence_score e) (epochs_per_task e)
           (dataset_registry e) (models_dir e) (error_log e).

Definition set_performance_metrics (m : dict Metric) (e : Engine) : Engine :=
  mkEngine (learning_queue e) (model_registry e) m
           (human_intelligence_score e) (epochs_per_task e)
           (dataset_registry e) (models_dir e) (error_log e).

Definition set_score (s : pyfloat) (e : Engine) : Engine :=
  mkEngine (learning_queue e) (model_registry e) (performance_metrics e)
           s (epochs_per_task e)
           (dataset_registry e) (models_dir e) (error_log e).

Definition set_models_dir (d : dict ModelInfo) (e : Engine) : Engine :=
  mkEngine (learning_queue e) (model_registry e) (performance_metrics e)
           (human_intelligence_score e) (epochs_per_task e)
           (dataset_registry e) d (error_log e).

Definition log_error (r : LogRecord) (e : Engine) : Engine :=
  mkEngine (learning_queue e) (model_registry e) (performance_metrics e)
           (human_intelligence_score e) (epochs_per_task e)
           (dataset_registry e) (models_dir e) (error_log e ++ [r]).

(** The state built by [__init__]. *)
Definition init : Engine :=
  mkEngine [] [] [] (Fin 0) 10
    [ ("rice_msc", mkInfo "classification" 106 5 75000 SUPERVISED);
      ("human_faces", mkInfo "detection" 128 7 7200 SUPERVISED);
      ("cifar10", mkInfo "classification" 3072 10 60000 SUPERVISED);
      ("mnist", mkInfo "classification" 784 10 70000 SUPERVISED);
      ("imagenet", mkInfo "classification" 150528 1000 1400000 SUPERVISED) ]
    [] [].

(** ** The environment of one task execution *)

Record Env : Type := mkEnv {
  load_error : option PyExn;
    (* [_load_dataset] raising while it builds the synthetic arrays *)
  y_test : list nat;
    (* the labels drawn for the held-out split *)
  numeric_error : option PyExn;
    (* the strategy's numerical code raising *)
  init_network : Params;
    (* the random weights of [_create_neural_network] *)
  backward_pass : nat -> Params -> Params;
    (* the random update made by the n-th call of [_backward_pass] *)
  test_classes : Params -> list nat;
    (* [argmax(_forward_pass(model, X_test), axis=1)] *)
  kmeans_clustering : Z -> ndarray;
  pca_reduction : ndarray;
  learned_q_table : ndarray;
  transfer_weights : Params -> Params -> Params;
    (* [_transfer_weights]: fresh network, source weights *)
  save_error : option PyExn;
    (* [os.makedirs] or [open] raising in [_save_model] *)
  now : Z
    (* [datetime.now()] when the registry entry is written *)
}.

(** ** The state-and-exception monad of the engine's methods *)

Definition M (A : Type) : Type := Engine -> Engine * (PyExn + A).

Definition ret {A : Type} (a : A) : M A := fun e => (e, inr a).

Definition raise {A : Type} (ex : PyExn) : M A := fun e => (e, inl ex).

Definition bind {A B : Type} (k : A -> M B) (m : M A) : M B :=
  fun e =>
    match m e with
    | (e', inl ex) => (e', inl ex)
    | (e', inr a) => k a e'
    end.

(** stdpp's monad notation: [x ← m; k] and [m;; k]. *)
#[global] Instance M_ret : MRet M := @ret.
#[global] Instance M_bind : MBind M := @bind.

Definition get_engine : M Engine := fun e => (e, inr e).

Definition modify (f : Engine -> Engine) : M unit := fun e => (f e, inr tt).

Definition raise_if (o : option PyExn) : M unit :=
  match o with
  | Some ex => raise ex
  | None => ret tt
  end.

(** ** Submission *)

(** [parameters or {}] *)
Definition or_empty (p : option (dict PyValue)) : dict PyValue :=
  match p with
  | Some d => d
  | None => []
  end.

(** [f"{dataset_name}_{int(time.time())}"] *)
Definition make_task_id (dataset_name : string) (seconds : Z) : string :=
  dataset_name +:+ "_" +:+ pretty seconds.

(** [add_learning_task].  [seconds] is [int(time.time())] and [now_us] is
    [datetime.now()], the two clock readings of the call.  The entry is
    appended to the heap list before it is sifted, so it stays there when a
    comparison raises. *)
Definition add_learning_task (name : string) (mode : LearningMode)
    (prio : Z) (params : option (dict PyValue)) (seconds now_us : Z) : M unit :=
  fun e =>
    let task := mkTask (make_task_id name seconds) name mode prio
                       (or_empty params) now_us "pending" in
    match heappush (learning_queue e) (prio, task) with
    | (q, Some ex) => (set_queue q e, inl ex)
    | (q, None) => (set_queue q e, inr tt)
    end.

(** The task object that a call of [add_learning_task] builds. *)
Definition new_task (name : string) (mode : LearningMode) (prio : Z)
    (params : option (dict PyValue)) (seconds now_us : Z) : LearningTask :=
  mkTask (make_task_id name seconds) name mode prio (or_empty params)
         now_us "pending".

(** ** Executing a task *)

(** [_load_dataset]: [None] for an unregistered name; otherwise the
    synthetic split.  Building the arrays ([samples * features] floats) is
    where the call can raise. *)
Definition _load_dataset (env : Env) (name : string) : M (option Dataset) :=
  e ← get_engine;
  match dict_get name (dataset_registry e) with
  | None => modify (log_error (UnknownDatasetError name));; mret None
  | Some dataset_info =>
      raise_if (load_error env);;
      mret (Some (mkDataset (y_test env) dataset_info))
  end.

(** The number of positions where prediction and label agree, for two
    vectors of one length. *)
Fixpoint hits (predicted_classes y : list nat) : nat :=
  match predicted_classes, y with
  | c :: cs, l :: ls => ((if Nat.eqb c l then 1 else 0) + hits cs ls)%nat
  | _, _ => 0%nat
  end.

(** [_calculate_accuracy]: [np.mean(predicted_classes == y)], which is nan
    on an empty vector.  [predicted_classes] is the [argmax] of the rows of
    [predictions]; the comparison is over two vectors of one length, as
    [_supervised_learning] passes them (one row of [test_predictions] for
    every label of [y_test]).  Vectors of different lengths, which numpy
    broadcasts or refuses, are outside what is modelled here. *)
Definition _calculate_accuracy (predicted_classes y : list nat) : pyfloat :=
  match y with
  | [] => NaN
  | _ :: _ => Fin (Z.of_nat (hits predicted_classes y) # Pos.of_nat (length y))
  end.

(** The training loop of [_supervised_learning] over the given epochs:
    every epoch updates the model in place, and the epochs divisible by five
    evaluate the model as it is after that update.  [test_accuracy] is the
    local variable, unassigned ([None]) until the first evaluation. *)
Fixpoint training_loop (env : Env) (dataset : Dataset) (epochs : list nat)
    (model : Params) (test_accuracy : option pyfloat)
  : Params * option pyfloat :=
  match epochs with
  | [] => (model, test_accuracy)
  | epoch :: rest =>
      let model' := backward_pass env epoch model in
      let test_accuracy' :=
        if Nat.eqb (epoch mod 5) 0
        then Some (_calculate_accuracy (test_classes env model') (ds_y_test dataset))
        else test_accuracy in
      training_loop env dataset rest model' test_accuracy'
  end.

Definition store_model (task : LearningTask) (a : Artifact) (env : Env) : M unit :=
  modify (fun e =>
    set_model_registry
      (dict_set (task_id task) (mkModelInfo a (dataset_name task) (now env))
                (model_registry e)) e).

(** [_supervised_learning] *)
Definition _supervised_learning (env : Env) (task : LearningTask)
    (dataset : Dataset) : M unit :=
  raise_if (numeric_error env);;
  e ← get_engine;
  match training_loop env dataset (seq 0 (epochs_per_task e))
                      (init_network env) None with
  | (model, Some test_accuracy) =>
      store_model task (SupervisedModel model test_accuracy) env
  | (_, None) => raise UnboundLocalError
  end.

(** [_unsupervised_learning] *)
Definition _unsupervised_learning (env : Env) (task : LearningTask)
    (dataset : Dataset) : M unit :=
  raise_if (numeric_error env);;
  let k := if Z.ltb (classes (info dataset)) 10 then classes (info dataset) else 10%Z in
  store_model task (Clusters (kmeans_clustering env k) (pca_reduction env)) env.

(** [_reinforcement_learning] *)
Definition _reinforcement_learning (env : Env) (task : LearningTask)
    (dataset : Dataset) : M unit :=
  raise_if (numeric_error env);;
  store_model task (QTable (learned_q_table env)) env.

(** [_find_similar_model]: the first registry entry of another dataset that
    has a ['model'] key, with its task id. *)
Fixpoint _find_similar_model (name : string) (registry : dict ModelInfo)
  : option (string * ModelInfo) :=
  match registry with
  | [] => None
  | (id, model_info) :: rest =>
      if negb (String.eqb (mi_dataset model_info) name)
      then match model_of model_info with
           | Some _ => Some (id, model_info)
           | None => _find_similar_model name rest
           end
      else _find_similar_model name rest
  end.

(** [_transfer_weights] *)
Definition _transfer_weights (env : Env) (source_model : ModelInfo) : Params :=
  let new_model := init_network env in
  match model_of source_model with
  | Some source_weights => transfer_weights env new_model source_weights
  | None => new_model
  end.

(** The fine-tuning loop of [_transfer_learning]. *)
Fixpoint fine_tune (env : Env) (epochs : list nat) (model : Params) : Params :=
  match epochs with
  | [] => model
  | epoch :: rest => fine_tune env rest (backward_pass env epoch model)
  end.

(** [_transfer_learning]: without a source model nothing is computed and
    nothing is stored. *)
Definition _transfer_learning (env : Env) (task : LearningTask)
    (dataset : Dataset) : M unit :=
  e ← get_engine;
  match _find_similar_model (dataset_name task) (model_registry e) with
  | Some (source_id, source_model) =>
      raise_if (numeric_error env);;
      let transferred_model :=
        fine_tune env (seq 0 5) (_transfer_weights env source_model) in
      store_model task (TransferredModel transferred_model source_id) env
  | None => mret tt
  end.

(** [_update_performance_metrics] *)
Definition _update_performance_metrics (task : LearningTask) : M unit :=
  e ← get_engine;
  match dict_get (task_id task) (model_registry e) with
  | Some model_info =>
      match accuracy_of model_info with
      | Some accuracy =>
          let contribution := fmul accuracy (Fin (1 # 10)) in
          modify (set_score
                    (pymin (Fin 1) (fadd (human_intelligence_score e) contribution)));;
          modify (fun e' =>
            set_performance_metrics
              (dict_set (task_id task)
                 (mkMetric accuracy (dataset_name task)
                    (mode_value (learning_mode task))
                    (mi_created_at model_info) contribution)
                 (performance_metrics e')) e')
      | None =>
          modify (fun e' =>
            set_performance_metrics
              (dict_set (task_id task)
                 (mkMetric (Fin 0) (dataset_name task)
                    (mode_value (learning_mode task))
                    (mi_created_at model_info) (Fin 0))
                 (performance_metrics e')) e')
      end
  | None => mret tt
  end.

(** [f"models/{task.task_id}.pkl"] *)
Definition model_path (id : string) : string := "models/" +:+ id +:+ ".pkl".

(** [_save_model]: the registry entry is pickled to its file. *)
Definition _save_model (env : Env) (task : LearningTask) : M unit :=
  e ← get_engine;
  match dict_get (task_id task) (model_registry e) with
  | Some model_info =>
      raise_if (save_error env);;
      modify (fun e' =>
        set_models_dir
          (dict_set (model_path (task_id task)) model_info (models_dir e')) e')
  | None => mret tt
  end.

(** The dispatch on the learning mode in [_execute_learning_task]. *)
Definition run_strategy (env : Env) (task : LearningTask) (ds : Dataset)
  : M unit :=
  match learning_mode task with
  | SUPERVISED => _supervised_learning env task ds
  | UNSUPERVISED => _unsupervised_learning env task ds
  | REINFORCEMENT => _reinforcement_learning env task ds
  | TRANSFER => _transfer_learning env task ds
  end.

(** The body of the [try] block of [_execute_learning_task]; the result
    tells whether the block ran to its end ([true]) or left through the
    early [return] ([false]). *)
Definition execute_body (env : Env) (task : LearningTask) : M bool :=
  dataset ← _load_dataset env (dataset_name task);
  match dataset with
  | None =>
      modify (log_error (FailedToLoadError (dataset_name task)));;
      mret false
  | Some ds =>
      run_strategy env task ds;;
      _update_performance_metrics task;;
      _save_model env task;;
      mret true
  end.

(** [_execute_learning_task]: returns the engine and the task object as the
    call leaves them.  Every exception of the body is caught. *)
Definition _execute_learning_task (env : Env) (task : LearningTask)
    (e : Engine) : Engine * LearningTask :=
  let task := set_status "running" task in
  match execute_body env task e with
  | (e', inr true) => (e', set_status "completed" task)
  | (e', inr false) => (e', task)
  | (e', inl ex) =>
      (log_error (TaskFailedError (task_id task) ex) e', set_status "failed" task)
  end.

(** One iteration of the loop of [_learning_worker]: [None] when it slept,
    otherwise the task it took, as execution left it. *)
Definition _learning_worker (env : Env) (e : Engine)
  : Engine * option LearningTask :=
  match learning_queue e with
  | [] => (e, None)
  | _ :: _ =>
      match heappop (learning_queue e) with
      | (q, inr (_, task)) =>
          let (e', task') := _execute_learning_task env task (set_queue q e) in
          (e', Some task')
      | (q, inl ex) => (log_error (WorkerError ex) (set_queue q e), None)
      end
  end.

(** ** The auto-scheduler *)

(** [_get_dataset_accuracy]: the accuracy of the first metrics entry, in
    insertion order, recorded for the dataset. *)
Fixpoint _get_dataset_accuracy (name : string) (metrics : dict Metric)
  : pyfloat :=
  match metrics with
  | [] => Fin 0
  | (_, m) :: rest =>
      if String.eqb (pm_dataset m) name then pm_accuracy m
      else _get_dataset_accuracy name rest
  end.

(** An integer as an operand of the division: the integer itself as the
    mantissa, at exponent 0. *)
Definition int_operand (a : Z) : SpecFloat.spec_float :=
  match a with
  | Z0 => SpecFloat.S754_zero false
  | Zpos p => SpecFloat.S754_finite false p 0
  | Zneg p => SpecFloat.S754_finite true p 0
  end.

(** [a / b] on two integers: the exact quotient rounded once to the nearest
    binary64 number, ties to even; [ZeroDivisionError] for a zero divisor,
    [OverflowError] when the rounded quotient is beyond the largest float.
    [SFdiv 53 1024] is the division of IEEE 754 binary64; applied to the
    two integers as they are, it rounds their exact quotient. *)
Definition int_true_divide (a b : Z) : PyExn + SpecFloat.spec_float :=
  if Z.eqb b 0 then inl ZeroDivisionError
  else
    match SpecFloat.SFdiv 53 1024 (int_operand a) (int_operand b) with
    | SpecFloat.S754_infinity _ => inl OverflowError
    | x => inr x
    end.

(** The float [0.5], that is [2^52 * 2^-53]. *)
Definition binary64_half : SpecFloat.spec_float :=
  SpecFloat.S754_finite false 4503599627370496 (-53).

(** The test of [_are_datasets_compatible] on the two descriptors:
    [min(f1, f2) / max(f1, f2) > 0.5]. *)
Definition feature_overlap (info1 info2 : DatasetInfo) : PyExn + bool :=
  let lo := Z.min (features info1) (features info2) in
  let hi := Z.max (features info1) (features info2) in
  match int_true_divide lo hi with
  | inl ex => inl ex
  | inr feature_ratio => inr (SpecFloat.SFltb binary64_half feature_ratio)
  end.

Definition target_accuracy_params : dict PyValue :=
  [("target_accuracy", VFloat (Fin (8 # 10)))].

(** [self.dataset_registry[name]] *)
Definition lookup_info (name : string) : M DatasetInfo :=
  e ← get_engine;
  match dict_get name (dataset_registry e) with
  | Some i => mret i
  | None => raise KeyError
  end.

(** [_are_datasets_compatible] *)
Definition _are_datasets_compatible (dataset1 dataset2 : string) : M bool :=
  info1 ← lookup_info dataset1;
  info2 ← lookup_info dataset2;
  match feature_overlap info1 info2 with
  | inl ex => raise ex
  | inr b => mret b
  end.

(** The first loop of [auto_schedule_learning].  [clock k] gives the two
    clock readings of the [k]-th call of [add_learning_task]; the loop
    returns the number of calls made so far. *)
Fixpoint remediation_loop (clock : nat -> Z * Z) (k : nat)
    (names : list string) : M nat :=
  match names with
  | [] => mret k
  | dataset_name :: rest =>
      dataset_info ← lookup_info dataset_name;
      e ← get_engine;
      let current_accuracy :=
        _get_dataset_accuracy dataset_name (performance_metrics e) in
      if flt current_accuracy (Fin (8 # 10)) then
        add_learning_task dataset_name (default_mode dataset_info) 1
          (Some target_accuracy_params) (fst (clock k)) (snd (clock k));;
        remediation_loop clock (S k) rest
      else remediation_loop clock k rest
  end.

(** The inner loop of [_schedule_transfer_learning]. *)
Fixpoint transfer_inner (clock : nat -> Z * Z) (k : nat) (dataset1 : string)
    (others : list string) : M nat :=
  match others with
  | [] => mret k
  | dataset2 :: rest =>
      compatible ← _are_datasets_compatible dataset1 dataset2;
      if (compatible : bool) then
        add_learning_task dataset2 TRANSFER 2
          (Some [("source_dataset", VStr dataset1)])
          (fst (clock k)) (snd (clock k));;
        transfer_inner clock (S k) dataset1 rest
      else transfer_inner clock k dataset1 rest
  end.

(** The outer loop: [for i, dataset1 in enumerate(datasets)] over
    [datasets[i+1:]]. *)
Fixpoint transfer_outer (clock : nat -> Z * Z) (k : nat)
    (datasets : list string) : M nat :=
  match datasets with
  | [] => mret k
  | dataset1 :: rest =>
      k' ← transfer_inner clock k dataset1 rest;
      transfer_outer clock k' rest
  end.

(** [_schedule_transfer_learning] *)
Definition _schedule_transfer_learning (clock : nat -> Z * Z) (k : nat) : M nat :=
  e ← get_engine;
  transfer_outer clock k (dict_keys (dataset_registry e)).

(** [auto_schedule_learning] *)
Definition auto_schedule_learning (clock : nat -> Z * Z) : M unit :=
  e ← get_engine;
  k ← remediation_loop clock 0 (dict_keys (dataset_registry e));
  _schedule_transfer_learning clock k;;
  mret tt.

(** [get_human_intelligence_score] *)
Definition get_human_intelligence_score (e : Engine) : pyfloat :=
  human_intelligence_score e.

(** ** Sequences of calls

    The engine is driven by its callers and by its worker thread.  A run is
    a sequence of calls, each atomic: a submission, one iteration of the
    worker loop, or an invocation of the auto-scheduler.  An exception that
    leaves [add_learning_task] or [auto_schedule_learning] reaches the
    caller; the engine keeps the state the call left. *)

Inductive Call : Type :=
| Submit (name : string) (mode : LearningMode) (prio : Z)
         (params : option (dict PyValue)) (seconds now_us : Z)
| Work (env : Env)
| AutoSchedule (clock : nat -> Z * Z).

Definition step (e : Engine) (c : Call) : Engine :=
  match c with
  | Submit name mode prio params seconds now_us =>
      fst (add_learning_task name mode prio params seconds now_us e)
  | Work env => fst (_learning_worker env e)
  | AutoSchedule clock => fst (auto_schedule_learning clock e)
  end.

Definition run (calls : list Call) (e : Engine) : Engine :=
  fold_left step calls e.

(** ** The statements of the specification that the code does not follow,
    written out for comparison *)

(** The most recent accuracy recorded for a dataset (0 if none): the last
    matching entry of the metrics in recording order. *)
Definition most_recent_accuracy (name : string) (metrics : dict Metric)
  : pyfloat :=
  _get_dataset_accuracy name (rev metrics).

(** [updates env k m]: the model after the first [k] calls of
    [_backward_pass]. *)
Fixpoint updates (env : Env) (k : nat) (m : Params) : Params :=
  match k with
  | O => m
  | S k' => backward_pass env k' (updates env k' m)
  end.

(** ** Sample environments and tasks for the examples *)

Definition no_params : Params := mkParams [] [] [] [].

(** Nothing raises; the updates leave the weights alone; two of the four
    held-out samples are classified correctly. *)
Definition quiet_env : Env :=
  mkEnv None [0; 1; 2; 3]%nat None no_params (fun _ p => p)
        (fun _ => [0; 1; 0; 0]%nat) (fun _ => []) [] [] (fun _ p => p)
        None 777.

(** As [quiet_env], with every held-out sample classified correctly. *)
Definition accurate_env : Env :=
  mkEnv None [0; 1; 2; 3]%nat None no_params (fun _ p => p)
        (fun _ => [0; 1; 2; 3]%nat) (fun _ => []) [] [] (fun _ p => p)
        None 999.

(** A clock that advances by one microsecond per reading within second
    [seconds]. *)
Definition clock_at (seconds : Z) : nat -> Z * Z :=
  fun k => (seconds, seconds * 1000000 + Z.of_nat k)%Z.

(** A history in which every dataset has been trained once to accuracy 1,
    after one earlier training of [rice_msc] that reached 0.5. *)
Definition improved_history : list Call :=
  [ Submit "rice_msc" SUPERVISED 1 None 100 100000000; Work quiet_env;
    Submit "rice_msc" SUPERVISED 1 None 200 200000000; Work accurate_env;
    Submit "human_faces" SUPERVISED 1 None 300 300000000; Work accurate_env;
    Submit "cifar10" SUPERVISED 1 None 400 400000000; Work accurate_env;
    Submit "mnist" SUPERVISED 1 None 500 500000000; Work accurate_env;
    Submit "imagenet" SUPERVISED 1 None 600 600000000; Work accurate_env ].

Definition with_load_error (ex : PyExn) (env : Env) : Env :=
  mkEnv (Some ex) (y_test env) (numeric_error env) (init_network env)
        (backward_pass env) (test_classes env) (kmeans_clustering env)
        (pca_reduction env) (learned_q_table env) (transfer_weights env)
        (save_error env) (now env).

Definition with_save_error (ex : PyExn) (env : Env) : Env :=
  mkEnv (load_error env) (y_test env) (numeric_error env) (init_network env)
        (backward_pass env) (test_classes env) (kmeans_clustering env)
        (pca_reduction env) (learned_q_table env) (transfer_weights env)
        (Some ex) (now env).

(** Every update adds a row to [W1], so that the weights record how many
    updates they received; the two held-out samples are classified
    correctly by the weights that received exactly six updates. *)
Definition counting_env : Env :=
  mkEnv None [0; 0]%nat None no_params
        (fun _ p => mkParams ([] :: W1 p) (b1 p) (W2 p) (b2 p))
        (fun p => if Nat.eqb (length (W1 p)) 6 then [0; 0]%nat else [1; 1]%nat)
        (fun _ => []) [] [] (fun _ p => p) None 777.

(** ** Invariants *)

(** A score is a number of [[0,1]]. *)
Definition score_ok (s : pyfloat) : Prop :=
  exists q, s = Fin q /\ (0 <= q <= 1)%Q.

(** An accuracy is nan or a number of [[0,1]]. *)
Definition accuracy_ok (a : pyfloat) : Prop :=
  a = NaN \/ exists q, a = Fin q /\ (0 <= q <= 1)%Q.

Definition registry_ok (registry : dict ModelInfo) : Prop :=
  Forall (fun kv => forall a, accuracy_of (snd kv) = Some a -> accuracy_ok a)
         registry.

Definition engine_ok (e : Engine) : Prop :=
  score_ok (human_intelligence_score e) /\ registry_ok (model_registry e).

(** [a <= b] on scores. *)
Definition score_le (a b : pyfloat) : Prop :=
  match a, b with
  | Fin x, Fin y => (x <= y)%Q
  | _, _ => False
  end.

(** [e'] differs from [e] in the queue at most. *)
Definition only_queue_changed (e e' : Engine) : Prop :=
  e' = set_queue (learning_queue e') e.

(** Unfolding the monad. *)
Ltac unfold_M :=
  unfold raise_if in *;
  unfold mbind, M_bind, bind, mret, M_ret, ret, get_engine, modify, raise in *.

(** The engine after a strategy has stored its entry for a task. *)
Definition stored (task : LearningTask) (a : Artifact) (env : Env)
    (e : Engine) : Engine :=
  set_model_registry
    (dict_set (task_id task) (mkModelInfo a (dataset_name task) (now env))
              (model_registry e)) e.

(** The ways in which [_execute_learning_task env task e] can end, with the
    engine and the task object it leaves.  [executes_as] is shown below to
    cover every execution. *)
Inductive executes_as (env : Env) (task : LearningTask) (e : Engine)
  : Engine -> LearningTask -> Prop :=
| unknown_dataset :
    dict_get (dataset_name task) (dataset_registry e) = None ->
    executes_as env task e
      (log_error (FailedToLoadError (dataset_name task))
         (log_error (UnknownDatasetError (dataset_name task)) e))
      (set_status "running" task)
| load_raised (i : DatasetInfo) (ex : PyExn) :
    dict_get (dataset_name task) (dataset_registry e) = Some i ->
    load_error env = Some ex ->
    executes_as env task e
      (log_error (TaskFailedError (task_id task) ex) e)
      (set_status "failed" task)
| strategy_raised (i : DatasetInfo) (ex : PyExn) :
    dict_get (dataset_name task) (dataset_registry e) = Some i ->
    load_error env = None ->
    run_strategy env (set_status "running" task) (mkDataset (y_test env) i) e
      = (e, inl ex) ->
    executes_as env task e
      (log_error (TaskFailedError (task_id task) ex) e)
      (set_status "failed" task)
| nothing_recorded (i : DatasetInfo) (e1 : Engine) :
    dict_get (dataset_name task) (dataset_registry e) = Some i ->
    load_error env = None ->
    run_strategy env (set_status "running" task) (mkDataset (y_test env) i) e
      = (e1, inr tt) ->
    dict_get (task_id task) (model_registry e1) = None ->
    executes_as env task e e1 (set_status "completed" task)
| save_raised (i : DatasetInfo) (e1 : Engine) (mi : ModelInfo) (ex : PyExn) :
    dict_get (dataset_name task) (dataset_registry e) = Some i ->
    load_error env = None ->
    run_strategy env (set_status "running" task) (mkDataset (y_test env) i) e
      = (e1, inr tt) ->
    dict_get (task_id task) (model_registry e1) = Some mi ->
    save_error env = Some ex ->
    executes_as env task e
      (log_error (TaskFailedError (task_id task) ex)
         (fst (_update_performance_metrics task e1)))
      (set_status "failed" task)
| saved (i : DatasetInfo) (e1 : Engine) (mi : ModelInfo) :
    dict_get (dataset_name task) (dataset_registry e) = Some i ->
    load_error env = None ->
    run_strategy env (set_status "running" task) (mkDataset (y_test env) i) e
      = (e1, inr tt) ->
    dict_get (task_id task) (model_registry e1) = Some mi ->
    save_error env = None ->
    executes_as env task e
      (let e2 := fst (_update_performance_metrics task e1) in
       set_models_dir
         (dict_set (model_path (task_id task)) mi (models_dir e2)) e2)
      (set_status "completed" task).

(** Arithmetic with the parent index [(i - 1) / 2]: the division facts of
    every [n / 2] in sight, then [lia]. *)
Ltac div2_facts :=
  repeat match goal with
  | |- context [(?n `div` 2)%nat] =>
      lazymatch goal with
      | _ : n = (2 * (n `div` 2) + n `mod` 2)%nat |- _ => fail
      | _ => pose proof (Nat.div_mod_eq n 2);
             pose proof (Nat.mod_upper_bound n 2 ltac:(lia))
      end
  | _ : context [(?n `div` 2)%nat] |- _ =>
      lazymatch goal with
      | _ : n = (2 * (n `div` 2) + n `mod` 2)%nat |- _ => fail
      | _ => pose proof (Nat.div_mod_eq n 2);
             pose proof (Nat.mod_upper_bound n 2 ltac:(lia))
      end
  end.

Ltac div2_lia := div2_facts; lia.

(** Case analysis on every integer test [=?] and [<?] of the goal. *)
Ltac bool_cases :=
  repeat match goal with
  | |- context [Z.eqb ?a ?b] => destruct (Z.eqb_spec a b)
  | |- context [Z.ltb ?a ?b] => destruct (Z.ltb_spec a b)
  end.

(** ** The queue as a binary heap *)

(** Every entry but the root has a strictly larger priority than its
    parent, the entry at [(i - 1) / 2]. *)
Definition heap_ordered (heap : list Item) : Prop :=
  forall (i : nat) (a b : Item),
    (0 < i)%nat ->
    heap !! i = Some a ->
    heap !! ((i - 1) `div` 2)%nat = Some b ->
    (fst b < fst a)%Z.

(** No two queued entries have the same priority. *)
Definition distinct_priorities (heap : list Item) : Prop :=
  NoDup (map fst heap).

(** The state of [siftdown] at [pos]: the heap order holds on every edge
    but the one from [pos] to its parent, and the parent of [pos] is
    smaller than the children of [pos]. *)
Definition ordered_but_parent (heap : list Item) (pos : nat) : Prop :=
  (forall (i : nat) (a b : Item),
      (0 < i)%nat -> i <> pos ->
      heap !! i = Some a ->
      heap !! ((i - 1) `div` 2)%nat = Some b ->
      (fst b < fst a)%Z)
  /\ (forall (c : nat) (a g : Item),
        (0 < pos)%nat -> (0 < c)%nat -> ((c - 1) `div` 2)%nat = pos ->
        heap !! c = Some a ->
        heap !! ((pos - 1) `div` 2)%nat = Some g ->
        (fst g < fst a)%Z).

(** The state of the first loop of [siftup] at [pos]: the heap order holds
    on every edge that does not touch [pos], and the parent of [pos] is
    smaller than the children of [pos]. *)
Definition ordered_but_around (heap : list Item) (pos : nat) : Prop :=
  (forall (i : nat) (a b : Item),
      (0 < i)%nat -> i <> pos -> ((i - 1) `div` 2)%nat <> pos ->
      heap !! i = Some a ->
      heap !! ((i - 1) `div` 2)%nat = Some b ->
      (fst b < fst a)%Z)
  /\ (forall (c : nat) (a g : Item),
        (0 < pos)%nat -> (0 < c)%nat -> ((c - 1) `div` 2)%nat = pos ->
        heap !! c = Some a ->
        heap !! ((pos - 1) `div` 2)%nat = Some g ->
        (fst g < fst a)%Z).

(** The tuple priority of every entry is the priority of its task, as
    [add_learning_task] builds the entries. *)
Definition priorities_agree (heap : list Item) : Prop :=
  Forall (fun it => priority (snd it) = fst it) heap.

(** The worker loop run for one iteration per environment: the engine it
    leaves and the tasks it executed, in order. *)
Fixpoint worker_iterations (envs : list Env) (e : Engine)
  : Engine * list LearningTask :=
  match envs with
  | [] => (e, [])
  | env :: rest =>
      let (e1, taken) := _learning_worker env e in
      let (e2, later) := worker_iterations rest e1 in
      (e2, match taken with Some t => t :: later | None => later end)
  end.

(** The arguments of one call of [add_learning_task]. *)
Record Submission : Type := mkSubmission {
  sub_name : string;
  sub_mode : LearningMode;
  sub_priority : Z;
  sub_params : option (dict PyValue);
  sub_seconds : Z;
  sub_now : Z
}.

(** The task object that the submission builds. *)
Definition submitted_task (s : Submission) : LearningTask :=
  new_task (sub_name s) (sub_mode s) (sub_priority s) (sub_params s)
           (sub_seconds s) (sub_now s).

Definition submit (s : Submission) : Call :=
  Submit (sub_name s) (sub_mode s) (sub_priority s) (sub_params s)
         (sub_seconds s) (sub_now s).

(** ** Metrics derived from registry entries *)

(** The metrics entry [m] carries the creation time of the registry entry
    [mi], its accuracy (0.0 when it has none) and a tenth of it as the
    contribution. *)
Definition mirrors (m : Metric) (mi : ModelInfo) : Prop :=
  pm_created_at m = mi_created_at mi
  /\ pm_accuracy m = default (Fin 0) (accuracy_of mi)
  /\ human_intelligence_contribution m
     = default (Fin 0) (fmap (fun a => fmul a (Fin (1 # 10))) (accuracy_of mi)).

Definition metrics_mirror_registry (e : Engine) : Prop :=
  forall (id : string) (m : Metric),
    dict_get id (performance_metrics e) = Some m ->
    exists mi, dict_get id (model_registry e) = Some mi /\ mirrors m mi.

(** ** What the auto-scheduler decides *)

(** The test of the first pass of [auto_schedule_learning] on one dataset:
    the accuracy found for it is below 0.8. *)
Definition below_target (metrics : dict Metric) (name : string) : bool :=
  flt (_get_dataset_accuracy name metrics) (Fin (8 # 10)).

(** The pairs [(x, y)] with [x] before [y], in the order in which the two
    loops of [_schedule_transfer_learning] visit them. *)
Fixpoint ordered_pairs (l : list string) : list (string * string) :=
  match l with
  | [] => []
  | x :: rest => map (pair x) rest ++ ordered_pairs rest
  end.

(** The pair passes the test of [_are_datasets_compatible]. *)
Definition compatible_pair (registry : dict DatasetInfo)
    (p : string * string) : bool :=
  match dict_get (fst p) registry, dict_get (snd p) registry with
  | Some info1, Some info2 =>
      match feature_overlap info1 info2 with
      | inr true => true
      | _ => false
      end
  | _, _ => false
  end.

(** A queue entry as the first pass submits it. *)
Definition remediation_entry (registry : dict DatasetInfo) (it : Item) : Prop :=
  fst it = 1%Z
  /\ priority (snd it) = 1%Z
  /\ status (snd it) = "pending"
  /\ parameters (snd it) = target_accuracy_params
  /\ exists dataset_info,
       dict_get (dataset_name (snd it)) registry = Some dataset_info
       /\ learning_mode (snd it) = default_mode dataset_info.

(** A queue entry as the second pass submits it. *)
Definition transfer_entry (it : Item) : Prop :=
  fst it = 2%Z
  /\ priority (snd it) = 2%Z
  /\ status (snd it) = "pending"
  /\ learning_mode (snd it) = TRANSFER.

(** ** Characters of a task id *)

(** No character of the string is an underscore. *)
Fixpoint underscore_free (s : string) : bool :=
  match s with
  | EmptyString => true
  | String c rest => negb (Stdlib.Strings.Ascii.eqb c "_"%char) && underscore_free rest
  end.

(** ** Numerical helpers that do not depend on the environment *)

(** [_relu]: [np.maximum(0, x)], entry by entry. *)
Definition _relu (x : ndarray) : ndarray :=
  map (map (fun v => if Qlt_le_dec v 0 then 0%Q else v)) x.

(** [np.argmax] on a vector, scanning from index [i] with the best entry
    seen so far: a later entry replaces it only when strictly larger. *)
Fixpoint argmax_from (best_index : nat) (best : Q) (i : nat)
    (values : list Q) : nat :=
  match values with
  | [] => best_index
  | v :: rest =>
      if Qlt_le_dec best v then argmax_from i v (S i) rest
      else argmax_from best_index best (S i) rest
  end.

(** [np.argmax(values)]: [None] stands for the [ValueError] on an empty
    vector. *)
Definition argmax (values : list Q) : option nat :=
  match values with
  | [] => None
  | v :: rest => Some (argmax_from 0 v 1 rest)
  end.

(** [_epsilon_greedy_action].  [u] is the draw of [np.random.random()] and
    [r] the draw of [np.random.randint(len(q_values))], which raises on an
    empty vector. *)
Definition _epsilon_greedy_action (q_values : list Q) (epsilon u : Q)
    (r : nat) : option nat :=
  if Qlt_le_dec u epsilon then
    match q_values with
    | [] => None
    | _ :: _ => Some r
    end
  else argmax q_values.

(** ** Status report *)

(** The dictionary returned by [get_learning_status]. *)
Record LearningStatus : Type := mkLearningStatus {
  ls_human_intelligence_score : pyfloat;
  active_models : nat;
  queued_tasks : nat;
  ls_performance_metrics : dict Metric;
  ls_dataset_registry : list string
}.

(** [get_learning_status] *)
Definition get_learning_status (e : Engine) : LearningStatus :=
  mkLearningStatus (human_intelligence_score e)
                   (length (model_registry e))
                   (length (learning_queue e))
                   (performance_metrics e)
                   (dict_keys (dataset_registry e)).

(** * Properties *)

(** ** The heap *)

Lemma swap_length {A : Type} (l : list A) (i j : nat) :
  length (swap l i j) = length l.
Proof.
  unfold swap. destruct (l !! i), (l !! j); trivial.
  now rewrite !length_insert.
Qed.

Lemma swap_perm {A : Type} (l : list A) (i j : nat) : swap l i j ≡ₚ l.
Proof.
  unfold swap.
  destruct (l !! i) as [x|] eqn:Hi; [|reflexivity].
  destruct (l !! j) as [y|] eqn:Hj; [|reflexivity].
  now apply Permutation_insert_swap.
Qed.

Lemma item_lt_exn (a b : Item) (ex : PyExn) :
  item_lt a b = inl ex -> ex = TypeError.
Proof.
  unfold item_lt.
  destruct (fst a =? fst b)%Z; [destruct (task_eqb _ _)|]; congruence.
Qed.

Lemma siftdown_perm (fuel : nat) :
  forall heap pos, fst (siftdown fuel heap pos) ≡ₚ heap.
Proof.
  induction fuel as [|fuel IH]; intros heap pos; cbn [siftdown];
    [reflexivity|].
  destruct (0 <? pos)%nat; [|reflexivity].
  destruct (heap !! pos) as [newitem|]; [|reflexivity].
  destruct (heap !! ((pos - 1) `div` 2)%nat) as [parent|]; [|reflexivity].
  destruct (item_lt newitem parent) as [ex|[|]]; try reflexivity.
  rewrite IH. apply swap_perm.
Qed.

(** With [pos] inside the list, sifting ends normally or with the
    [TypeError] of a comparison, never with an index out of range. *)
Lemma siftdown_outcome (fuel : nat) :
  forall heap pos, (pos < length heap)%nat ->
    snd (siftdown fuel heap pos) = None
    \/ snd (siftdown fuel heap pos) = Some TypeError.
Proof.
  induction fuel as [|fuel IH]; intros heap pos Hpos; cbn [siftdown];
    [now left|].
  destruct (0 <? pos)%nat eqn:Hlt; [|now left].
  apply Nat.ltb_lt in Hlt.
  assert (Hpar : ((pos - 1) `div` 2 < pos)%nat).
  { apply Nat.Div0.div_lt_upper_bound. lia. }
  destruct (lookup_lt_is_Some_2 heap pos Hpos) as [newitem ->].
  destruct (lookup_lt_is_Some_2 heap ((pos - 1) `div` 2)%nat) as [parent ->];
    [lia|].
  destruct (item_lt newitem parent) as [ex|[|]] eqn:Hcmp.
  - right. cbn [snd]. f_equal. eapply item_lt_exn; eassumption.
  - apply IH. rewrite swap_length. lia.
  - now left.
Qed.

Lemma heappush_perm (heap : list Item) (item : Item) :
  fst (heappush heap item) ≡ₚ heap ++ [item].
Proof. unfold heappush. apply siftdown_perm. Qed.


Lemma siftdown_raises (fuel : nat) (heap : list Item) (pos : nat)
    (newitem parent : Item) (ex : PyExn) :
  (0 < fuel)%nat -> (0 < pos)%nat ->
  heap !! pos = Some newitem ->
  heap !! ((pos - 1) `div` 2)%nat = Some parent ->
  item_lt newitem parent = inl ex ->
  siftdown fuel heap pos = (heap, Some ex).
Proof.
  intros Hfuel Hpos Hnew Hpar Hcmp.
  destruct fuel as [|fuel]; [lia|]. cbn [siftdown].
  apply Nat.ltb_lt in Hpos. now rewrite Hpos, Hnew, Hpar, Hcmp.
Qed.

(** Pushing next to a parent of equal priority that is another task object
    raises. *)
Lemma heappush_tie (heap : list Item) (item parent : Item) :
  heap !! ((length heap - 1) `div` 2)%nat = Some parent ->
  fst item = fst parent ->
  task_eqb (snd item) (snd parent) = false ->
  heappush heap item = (heap ++ [item], Some TypeError).
Proof.
  intros Hpar Hprio Hneq. unfold heappush.
  assert (Hlen : ((length heap - 1) `div` 2 < length heap)%nat)
    by (eapply lookup_lt_Some; eassumption).
  apply siftdown_raises with (newitem := item) (parent := parent); try lia.
  - rewrite lookup_app_r by lia. now rewrite Nat.sub_diag.
  - now rewrite lookup_app_l.
  - unfold item_lt. now rewrite Hprio, Z.eqb_refl, Hneq.
Qed.

(** ** Submission *)

Lemma add_learning_task_unfold (e : Engine) name mode prio params seconds now_us :
  add_learning_task name mode prio params seconds now_us e =
  (set_queue (fst (heappush (learning_queue e)
                     (prio, new_task name mode prio params seconds now_us))) e,
   match snd (heappush (learning_queue e)
                (prio, new_task name mode prio params seconds now_us)) with
   | Some ex => inl ex
   | None => inr tt
   end).
Proof.
  unfold add_learning_task, new_task.
  now destruct (heappush _ _) as [q [ex|]].
Qed.

(** Priorities decide when they differ: submitted as 2 then 1, the tasks
    leave the queue as 1 then 2. *)
Example priority_overrides_submission_order :
  let e := run [Submit "rice_msc" SUPERVISED 2 None 100 100000000;
                Submit "mnist" SUPERVISED 1 None 100 100000007] init in
  exists q1 q2 t1 t2,
    heappop (learning_queue e) = (q1, inr (1%Z, t1))
    /\ heappop q1 = (q2, inr (2%Z, t2))
    /\ dataset_name t1 = "mnist" /\ dataset_name t2 = "rice_msc" /\ q2 = [].
Proof. vm_compute. repeat eexists. Qed.

(** C1 (the code departs from it): a task submitted next to a queued task
    of the same priority is not ordered after it by creation time.  When
    the heap parent of the new entry has the same priority and is another
    task object, the tuple comparison falls through to the two
    [LearningTask] objects and [add_learning_task] raises [TypeError]. *)
Theorem equal_priority_submission_raises :
  forall (e : Engine) (parent : Item) name mode prio params seconds now_us,
    learning_queue e !! ((length (learning_queue e) - 1) `div` 2)%nat
      = Some parent ->
    fst parent = prio ->
    task_eqb (new_task name mode prio params seconds now_us) (snd parent)
      = false ->
    snd (add_learning_task name mode prio params seconds now_us e)
      = inl TypeError.
Proof.
  intros e parent name mode prio params seconds now_us Hpar Hprio Hneq.
  rewrite add_learning_task_unfold.
  erewrite heappush_tie; eauto.
Qed.

Lemma equal_priority_submission_raises_witness :
  let e := run [Submit "rice_msc" SUPERVISED 1 None 100 100000000] init in
  snd (add_learning_task "mnist" SUPERVISED 1 None 100 100000007 e)
    = inl TypeError.
Proof.
  intros e.
  apply (equal_priority_submission_raises e
           (1%Z, new_task "rice_msc" SUPERVISED 1 None 100 100000000));
    reflexivity.
Defined.

(** C8 (the code departs from it): the task id is the dataset name and the
    whole second of the submission, so two submissions for one dataset
    within one second are both queued under the same id. *)
Theorem same_second_submissions_share_task_id :
  forall (e : Engine) name mode1 mode2 prio1 prio2 params1 params2
         seconds now1 now2,
    learning_queue e = [] ->
    prio1 <> prio2 ->
    let r1 := add_learning_task name mode1 prio1 params1 seconds now1 e in
    let r2 := add_learning_task name mode2 prio2 params2 seconds now2 (fst r1) in
    snd r1 = inr tt /\ snd r2 = inr tt
    /\ exists t1 t2,
         learning_queue (fst r2) ≡ₚ [(prio1, t1); (prio2, t2)]
         /\ learning_mode t1 = mode1 /\ learning_mode t2 = mode2
         /\ created_at t1 = now1 /\ created_at t2 = now2
         /\ task_id t1 = make_task_id name seconds
         /\ task_id t2 = make_task_id name seconds.
Proof.
  intros e name mode1 mode2 prio1 prio2 params1 params2 seconds now1 now2
         Hq Hp r1 r2.
  subst r1 r2. rewrite !add_learning_task_unfold. cbn [fst snd].
  rewrite Hq. cbn [set_queue learning_queue].
  change (heappush [] ?x) with ([x], @None PyExn). cbn [fst snd].
  unfold heappush. cbn [length app siftdown Nat.ltb Nat.leb].
  change ((1 - 1) `div` 2)%nat with 0%nat.
  cbn [lookup list_lookup]. unfold item_lt. cbn [fst snd].
  destruct (Z.eqb_spec prio2 prio1) as [Heq|Hne]; [congruence|].
  destruct (prio2 <? prio1)%Z; cbn [fst snd siftdown].
  - split; [reflexivity|]. split; [reflexivity|].
    exists (new_task name mode1 prio1 params1 seconds now1),
           (new_task name mode2 prio2 params2 seconds now2).
    split; [apply swap_perm | repeat split].
  - split; [reflexivity|]. split; [reflexivity|].
    exists (new_task name mode1 prio1 params1 seconds now1),
           (new_task name mode2 prio2 params2 seconds now2).
    split; [reflexivity | repeat split].
Qed.

Lemma same_second_submissions_share_task_id_witness :
  exists t1 t2,
    learning_queue
      (run [Submit "rice_msc" SUPERVISED 1 None 100 100000000;
            Submit "rice_msc" TRANSFER 2 None 100 100000900] init)
      ≡ₚ [(1%Z, t1); (2%Z, t2)]
    /\ learning_mode t1 = SUPERVISED /\ learning_mode t2 = TRANSFER
    /\ task_id t1 = "rice_msc_100" /\ task_id t2 = "rice_msc_100".
Proof.
  destruct (same_second_submissions_share_task_id init "rice_msc"
              SUPERVISED TRANSFER 1 2 None None 100 100000000 100000900)
    as (_ & _ & t1 & t2 & Hperm & Hm1 & Hm2 & _ & _ & Hid1 & Hid2);
    [reflexivity | lia |].
  exists t1, t2. repeat split; assumption.
Defined.




(** ** Executing a task *)

Lemma load_dataset_unknown (env : Env) (name : string) (e : Engine) :
  dict_get name (dataset_registry e) = None ->
  _load_dataset env name e = (log_error (UnknownDatasetError name) e, inr None).
Proof. intros H. unfold _load_dataset. unfold_M. now rewrite H. Qed.

Lemma load_dataset_known (env : Env) (name : string) (e : Engine)
    (i : DatasetInfo) :
  dict_get name (dataset_registry e) = Some i ->
  _load_dataset env name e =
  match load_error env with
  | Some ex => (e, inl ex)
  | None => (e, inr (Some (mkDataset (y_test env) i)))
  end.
Proof.
  intros H. unfold _load_dataset. unfold_M. rewrite H.
  now destruct (load_error env).
Qed.

(** A strategy raises and leaves the engine as it was, or returns after
    storing one entry under the task's id, or (transfer without a source
    model) returns without storing anything. *)
Lemma run_strategy_cases (env : Env) (task : LearningTask) (ds : Dataset)
    (e : Engine) :
  (exists ex, run_strategy env task ds e = (e, inl ex))
  \/ (exists a, run_strategy env task ds e = (stored task a env e, inr tt))
  \/ (run_strategy env task ds e = (e, inr tt)
      /\ learning_mode task = TRANSFER
      /\ _find_similar_model (dataset_name task) (model_registry e) = None).
Proof.
  unfold run_strategy, _supervised_learning, _unsupervised_learning,
    _reinforcement_learning, _transfer_learning, store_model.
  unfold_M.
  destruct (learning_mode task); repeat case_match; simplify_eq; eauto.
Qed.

Lemma update_metrics_absent (task : LearningTask) (e : Engine) :
  dict_get (task_id task) (model_registry e) = None ->
  _update_performance_metrics task e = (e, inr tt).
Proof. intros H. unfold _update_performance_metrics. unfold_M. now rewrite H. Qed.

Lemma update_metrics_returns (task : LearningTask) (e : Engine) :
  snd (_update_performance_metrics task e) = inr tt.
Proof.
  unfold _update_performance_metrics. unfold_M.
  repeat case_match; reflexivity.
Qed.

Lemma update_metrics_registry (task : LearningTask) (e : Engine) :
  model_registry (fst (_update_performance_metrics task e)) = model_registry e.
Proof.
  unfold _update_performance_metrics. unfold_M.
  repeat case_match; reflexivity.
Qed.

Lemma set_status_id (s : string) (t : LearningTask) :
  task_id (set_status s t) = task_id t.
Proof. reflexivity. Qed.

Lemma update_metrics_status (s : string) (task : LearningTask) (e : Engine) :
  _update_performance_metrics (set_status s task) e
  = _update_performance_metrics task e.
Proof. reflexivity. Qed.

(** Every execution ends in one of the ways of [executes_as]. *)
Lemma execute_cases (env : Env) (task : LearningTask) (e : Engine) :
  executes_as env task e (fst (_execute_learning_task env task e))
                         (snd (_execute_learning_task env task e)).
Proof.
  destruct (_execute_learning_task env task e) as [e' t'] eqn:H.
  cbn [fst snd].
  unfold _execute_learning_task, execute_body in H.
  unfold mbind at 1, M_bind at 1, bind at 1 in H.
  change (set_status "failed" (set_status "running" task))
    with (set_status "failed" task) in H.
  change (set_status "completed" (set_status "running" task))
    with (set_status "completed" task) in H.
  cbn [dataset_name task_id set_status] in H.
  destruct (dict_get (dataset_name task) (dataset_registry e)) as [i|] eqn:Hreg.
  - rewrite (load_dataset_known env _ e i Hreg) in H.
    destruct (load_error env) as [ex|] eqn:Hload.
    + simplify_eq. eapply load_raised; eassumption.
    + unfold mbind at 1, M_bind at 1, bind at 1 in H.
      destruct (run_strategy env _ _ e) as [e1 [ex|[]]] eqn:Hrun.
      * destruct (run_strategy_cases env (set_status "running" task)
                    (mkDataset (y_test env) i) e)
          as [[ex' H']|[[a H']|[H' _]]]; rewrite H' in Hrun; simplify_eq.
        eapply strategy_raised; eassumption.
      * unfold mbind at 1, M_bind at 1, bind at 1 in H.
        rewrite update_metrics_status in H.
        destruct (dict_get (task_id task) (model_registry e1)) as [mi|] eqn:Hmi.
        -- pose proof (update_metrics_returns task e1) as Hret.
           pose proof (update_metrics_registry task e1) as Hsame.
           destruct (_update_performance_metrics task e1) as [e2 r] eqn:Hupd.
           cbn [fst snd] in Hret, Hsame. subst r.
           unfold _save_model in H. unfold_M. cbn [task_id set_status] in H.
           rewrite Hsame, Hmi in H.
           replace e2 with (fst (_update_performance_metrics task e1)) in H
             by now rewrite Hupd.
           destruct (save_error env) as [ex|] eqn:Hsave; simplify_eq.
           ++ eapply save_raised; eassumption.
           ++ eapply (saved env task e i e1 mi); eassumption.
        -- rewrite (update_metrics_absent task e1 Hmi) in H.
           unfold _save_model in H. unfold_M. cbn [task_id set_status] in H.
           rewrite Hmi in H. simplify_eq.
           eapply nothing_recorded; eassumption.
  - rewrite (load_dataset_unknown env _ e Hreg) in H. unfold_M. simplify_eq.
    now apply unknown_dataset.
Qed.

Lemma dict_in_set {V : Type} (k : string) (v : V) (d : dict V) :
  dict_in k (dict_set k v d) = true.
Proof.
  unfold dict_in. induction d as [|[k' v'] d IH]; cbn.
  - now rewrite String.eqb_refl.
  - destruct (String.eqb k k') eqn:Hk; cbn; rewrite ?String.eqb_refl, ?Hk; auto.
Qed.

Lemma dict_get_in {V : Type} (k : string) (v : V) (d : dict V) :
  dict_get k d = Some v -> dict_in k d = true.
Proof. unfold dict_in. now intros ->. Qed.

Lemma update_metrics_present (task : LearningTask) (e : Engine) (mi : ModelInfo) :
  dict_get (task_id task) (model_registry e) = Some mi ->
  dict_in (task_id task)
    (performance_metrics (fst (_update_performance_metrics task e))) = true.
Proof.
  intros H. unfold _update_performance_metrics. unfold_M. rewrite H.
  destruct (accuracy_of mi); cbn; apply dict_in_set.
Qed.

(** C2 (the code departs from it): a task whose dataset is not registered
    leaves [_execute_learning_task] through the early [return].  The two
    errors are logged, but the status set on entry is never replaced: the
    task object stays "running", not "failed". *)
Theorem unknown_dataset_task_stays_running :
  forall (env : Env) (task : LearningTask) (e : Engine),
    dict_get (dataset_name task) (dataset_registry e) = None ->
    _execute_learning_task env task e
    = (log_error (FailedToLoadError (dataset_name task))
         (log_error (UnknownDatasetError (dataset_name task)) e),
       set_status "running" task)
    /\ status (snd (_execute_learning_task env task e)) = "running".
Proof.
  intros env task e Hreg.
  pose proof (execute_cases env task e) as Hcase.
  destruct (_execute_learning_task env task e) as [e' t'].
  cbn [fst snd] in *.
  inversion Hcase; subst; try congruence.
  split; reflexivity.
Qed.

Lemma unknown_dataset_task_stays_running_witness :
  status (snd (_execute_learning_task quiet_env
                 (new_task "no_such_dataset" SUPERVISED 1 None 100 100000000)
                 init)) = "running".
Proof.
  apply (unknown_dataset_task_stays_running quiet_env
           (new_task "no_such_dataset" SUPERVISED 1 None 100 100000000) init).
  reflexivity.
Defined.

Lemma run_strategy_registry (env : Env) (task : LearningTask) (ds : Dataset)
    (e e1 : Engine) :
  run_strategy env task ds e = (e1, inr tt) ->
  e1 = e \/ exists a, e1 = stored task a env e.
Proof.
  intros H.
  destruct (run_strategy_cases env task ds e) as [[ex H']|[[a H']|[H' _]]];
    rewrite H' in H; simplify_eq; eauto.
Qed.

Lemma find_similar_model_none (name : string) (registry : dict ModelInfo) :
  Forall (fun kv => mi_dataset (snd kv) = name \/ model_of (snd kv) = None)
         registry ->
  _find_similar_model name registry = None.
Proof.
  induction 1 as [|[id mi] rest [Hsame|Hnone] _ IH]; cbn in *; trivial.
  - subst name. now rewrite String.eqb_refl.
  - rewrite Hnone. now destruct (negb _).
Qed.

Lemma run_strategy_transfer_no_source (env : Env) (task : LearningTask) (ds : Dataset)
    (e : Engine) :
  learning_mode task = TRANSFER ->
  _find_similar_model (dataset_name task) (model_registry e) = None ->
  run_strategy env task ds e = (e, inr tt).
Proof.
  intros Hmode Hfind. unfold run_strategy, _transfer_learning.
  rewrite Hmode. unfold_M. now rewrite Hfind.
Qed.

(** C10, as stated, fails in three ways: for an unregistered dataset the
    task stays "running"; when loading the dataset raises it ends "failed";
    and when the registry already holds an entry under the task's own id
    (a supervised task of the same dataset submitted in the same second)
    the task ends "completed" but the metrics entry of that id is rewritten
    and the score grows. *)
Lemma transfer_without_source_counterexamples :
  (let task := new_task "no_such_dataset" TRANSFER 2 None 100 100000000 in
   _find_similar_model (dataset_name task) (model_registry init) = None
   /\ status (snd (_execute_learning_task quiet_env task init)) = "running")
  /\ (let task := new_task "imagenet" TRANSFER 2 None 100 100000000 in
      _find_similar_model (dataset_name task) (model_registry init) = None
      /\ status (snd (_execute_learning_task
                        (with_load_error MemoryError quiet_env) task init))
         = "failed")
  /\ (let e := run [Submit "rice_msc" SUPERVISED 1 None 100 100000000;
                    Submit "rice_msc" TRANSFER 2 None 100 100000900;
                    Work quiet_env] init in
      let r := _learning_worker quiet_env e in
      exists task,
        snd r = Some task
        /\ learning_mode task = TRANSFER
        /\ status task = "completed"
        /\ _find_similar_model (dataset_name task) (model_registry e) = None
        /\ performance_metrics (fst r) <> performance_metrics e
        /\ human_intelligence_score e = Fin (2 # 40)
        /\ human_intelligence_score (fst r) = Fin (160 # 1600)).
Proof.
  split; [|split].
  - vm_compute. split; reflexivity.
  - vm_compute. split; reflexivity.
  - vm_compute. eexists. repeat split. discriminate.
Qed.

(** C10 (amended): a transfer task for a registered dataset whose split
    loads, executed while the model registry holds no entry of another
    dataset with a ['model'] artifact and no entry under the task's own id,
    ends "completed" and leaves the whole engine as it was: no registry
    entry, no metrics entry, no file, the same score. *)
Theorem transfer_without_source_records_nothing :
  forall (env : Env) (task : LearningTask) (e : Engine) (i : DatasetInfo),
    learning_mode task = TRANSFER ->
    Forall (fun kv => mi_dataset (snd kv) = dataset_name task
                      \/ model_of (snd kv) = None)
           (model_registry e) ->
    dict_get (dataset_name task) (dataset_registry e) = Some i ->
    load_error env = None ->
    dict_get (task_id task) (model_registry e) = None ->
    _execute_learning_task env task e = (e, set_status "completed" task).
Proof.
  intros env task e i Hmode Hnone Hreg Hload Hid.
  apply find_similar_model_none in Hnone.
  assert (Hrun : forall ds,
             run_strategy env (set_status "running" task) ds e = (e, inr tt))
    by (intros ds; now apply run_strategy_transfer_no_source).
  pose proof (execute_cases env task e) as Hcase.
  destruct (_execute_learning_task env task e) as [e' t'].
  cbn [fst snd] in *.
  inversion Hcase; subst; try congruence;
    match goal with
    | H : run_strategy _ _ _ _ = _ |- _ => rewrite Hrun in H; simplify_eq
    end;
    congruence.
Qed.

Lemma transfer_without_source_records_nothing_witness :
  let task := new_task "human_faces" TRANSFER 2
                (Some [("source_dataset", VStr "rice_msc")]) 100 100000000 in
  _execute_learning_task quiet_env task init
  = (init, set_status "completed" task).
Proof.
  intros task.
  apply (transfer_without_source_records_nothing quiet_env task init
           (mkInfo "detection" 128 7 7200 SUPERVISED));
    try reflexivity.
  constructor.
Defined.

(** ** The aggregate score *)

Lemma hits_le (p y : list nat) : (hits p y <= length y)%nat.
Proof.
  revert y. induction p as [|c p IH]; intros [|l y]; cbn; try lia.
  specialize (IH y). destruct (Nat.eqb c l); lia.
Qed.

Lemma calculate_accuracy_ok (p y : list nat) :
  accuracy_ok (_calculate_accuracy p y).
Proof.
  unfold _calculate_accuracy. destruct y as [|l y]; [now left|].
  right. eexists. split; [reflexivity|].
  pose proof (hits_le p (l :: y)) as Hle.
  unfold Qle. cbn [Qnum Qden]. split; [lia|].
  rewrite Z.mul_1_r, Z.mul_1_l.
  rewrite <- (Nat2Pos.id (length (l :: y))) in Hle by (cbn; lia).
  rewrite <- positive_nat_Z. lia.
Qed.

Lemma training_loop_ok (env : Env) (ds : Dataset) (epochs : list nat) :
  forall (m : Params) (acc : option pyfloat),
    (forall a, acc = Some a -> accuracy_ok a) ->
    forall a, snd (training_loop env ds epochs m acc) = Some a ->
              accuracy_ok a.
Proof.
  induction epochs as [|epoch rest IH]; intros m acc Hacc a;
    cbn [training_loop snd].
  - auto.
  - apply IH. destruct (Nat.eqb (epoch mod 5) 0); [|assumption].
    intros a' [= <-]. apply calculate_accuracy_ok.
Qed.

Lemma registry_ok_set (id : string) (mi : ModelInfo) (registry : dict ModelInfo) :
  registry_ok registry ->
  (forall a, accuracy_of mi = Some a -> accuracy_ok a) ->
  registry_ok (dict_set id mi registry).
Proof.
  unfold registry_ok. intros Hreg Hmi.
  induction Hreg as [|[k v] rest Hv Hrest IH]; cbn.
  - constructor; [assumption|constructor].
  - destruct (String.eqb id k); constructor; assumption.
Qed.

Lemma registry_ok_get (id : string) (mi : ModelInfo) (registry : dict ModelInfo)
    (a : pyfloat) :
  registry_ok registry ->
  dict_get id registry = Some mi ->
  accuracy_of mi = Some a ->
  accuracy_ok a.
Proof.
  unfold registry_ok. intros Hreg. revert mi.
  induction Hreg as [|[k v] rest Hv _ IH]; cbn; intros mi Hget Hacc.
  - discriminate.
  - destruct (String.eqb id k); [|eauto]. simplify_eq. now apply Hv.
Qed.

(** What a strategy stores keeps the registry well formed. *)
Lemma run_strategy_ok (env : Env) (task : LearningTask) (ds : Dataset)
    (e e1 : Engine) (r : PyExn + unit) :
  engine_ok e ->
  run_strategy env task ds e = (e1, r) ->
  engine_ok e1 /\ human_intelligence_score e1 = human_intelligence_score e.
Proof.
  intros [Hs Hr].
  unfold run_strategy, _supervised_learning, _unsupervised_learning,
    _reinforcement_learning, _transfer_learning, store_model.
  unfold_M. intros H.
  destruct (learning_mode task); repeat case_match; simplify_eq;
    (split; [split|]; cbn; try assumption; try reflexivity);
    apply registry_ok_set; try assumption; cbn; try discriminate.
  intros a [= <-].
  match goal with
  | Hloop : training_loop _ _ _ _ _ = _ |- _ =>
      eapply training_loop_ok; [|erewrite Hloop; reflexivity]
  end.
  discriminate.
Qed.

Lemma score_update_ok (s a : pyfloat) :
  score_ok s -> accuracy_ok a ->
  score_ok (pymin (Fin 1) (fadd s (fmul a (Fin (1 # 10)))))
  /\ score_le s (pymin (Fin 1) (fadd s (fmul a (Fin (1 # 10))))).
Proof.
  intros (q & -> & Hq0 & Hq1) [-> | (x & -> & Hx0 & Hx1)]; cbn.
  - split; [exists 1%Q; split; [reflexivity | split; discriminate]|].
    cbn. assumption.
  - unfold pymin, flt.
    assert (Hc : (0 <= x * (1 # 10))%Q).
    { apply Qmult_le_0_compat; [assumption | discriminate]. }
    destruct (Qlt_le_dec (q + x * (1 # 10)) 1) as [Hlt|Hge].
    + split.
      * eexists. split; [reflexivity|]. split.
        -- rewrite <- (Qplus_0_r 0). now apply Qplus_le_compat.
        -- now apply Qlt_le_weak.
      * cbn. rewrite <- (Qplus_0_r q) at 1.
        apply Qplus_le_compat; [apply Qle_refl | assumption].
    + split; [exists 1%Q; split; [reflexivity | split; discriminate]|].
      cbn. assumption.
Qed.

Lemma score_le_refl (s : pyfloat) : score_ok s -> score_le s s.
Proof. intros (q & -> & _). cbn. apply Qle_refl. Qed.

Lemma score_le_trans (a b c : pyfloat) :
  score_le a b -> score_le b c -> score_le a c.
Proof.
  destruct a, b, c; cbn; try tauto. apply Qle_trans.
Qed.

Lemma update_metrics_score (task : LearningTask) (e : Engine) (mi : ModelInfo) :
  dict_get (task_id task) (model_registry e) = Some mi ->
  human_intelligence_score (fst (_update_performance_metrics task e))
  = match accuracy_of mi with
    | Some a => pymin (Fin 1)
                  (fadd (human_intelligence_score e) (fmul a (Fin (1 # 10))))
    | None => human_intelligence_score e
    end.
Proof.
  intros H. unfold _update_performance_metrics. unfold_M. rewrite H.
  now destruct (accuracy_of mi).
Qed.

(** The score across one execution: it stays, or it is raised by a tenth of
    the accuracy that the registry holds under the task's id. *)
Lemma execute_score (env : Env) (task : LearningTask) (e : Engine) :
  let e' := fst (_execute_learning_task env task e) in
  human_intelligence_score e' = human_intelligence_score e
  \/ exists mi a,
       dict_get (task_id task) (model_registry e') = Some mi
       /\ accuracy_of mi = Some a
       /\ human_intelligence_score e'
          = pymin (Fin 1)
              (fadd (human_intelligence_score e) (fmul a (Fin (1 # 10)))).
Proof.
  intros e'. subst e'.
  pose proof (execute_cases env task e) as Hcase.
  destruct (_execute_learning_task env task e) as [e' t'].
  cbn [fst snd] in *.
  assert (Hstrategy : forall ds e1 r,
             run_strategy env (set_status "running" task) ds e = (e1, r) ->
             human_intelligence_score e1 = human_intelligence_score e).
  { intros ds e1 r Hrun.
    destruct (run_strategy_cases env (set_status "running" task) ds e)
      as [[ex H]|[[a H]|[H _]]]; rewrite H in Hrun; now simplify_eq. }
  inversion Hcase as [ | | | i e1 Hreg Hload Hrun Hnone
                       | i e1 mi ex Hreg Hload Hrun Hmi Hsave
                       | i e1 mi Hreg Hload Hrun Hmi Hsave ];
    subst; try (now left).
  - left. eapply Hstrategy; eassumption.
  - cbn [human_intelligence_score model_registry log_error].
    rewrite (update_metrics_score task e1 mi Hmi), update_metrics_registry.
    rewrite (Hstrategy _ _ _ Hrun).
    destruct (accuracy_of mi) as [a|] eqn:Hacc; [right|now left].
    exists mi, a. now repeat split.
  - cbn [human_intelligence_score model_registry set_models_dir].
    rewrite (update_metrics_score task e1 mi Hmi), update_metrics_registry.
    rewrite (Hstrategy _ _ _ Hrun).
    destruct (accuracy_of mi) as [a|] eqn:Hacc; [right|now left].
    exists mi, a. now repeat split.
Qed.

Lemma execute_registry_ok (env : Env) (task : LearningTask) (e : Engine) :
  engine_ok e ->
  registry_ok (model_registry (fst (_execute_learning_task env task e))).
Proof.
  intros Hok.
  pose proof (execute_cases env task e) as Hcase.
  destruct (_execute_learning_task env task e) as [e' t'].
  cbn [fst snd] in *.
  inversion Hcase as [ | | | i e1 Hreg Hload Hrun Hnone
                       | i e1 mi ex Hreg Hload Hrun Hmi Hsave
                       | i e1 mi Hreg Hload Hrun Hmi Hsave ];
    subst; cbn [model_registry log_error set_models_dir];
    rewrite ?update_metrics_registry;
    try apply Hok;
    eapply run_strategy_ok; eassumption.
Qed.

Lemma execute_ok (env : Env) (task : LearningTask) (e : Engine) :
  engine_ok e ->
  engine_ok (fst (_execute_learning_task env task e))
  /\ score_le (human_intelligence_score e)
       (human_intelligence_score (fst (_execute_learning_task env task e))).
Proof.
  intros Hok.
  pose proof (execute_registry_ok env task e Hok) as Hreg.
  destruct (execute_score env task e) as [Heq | (mi & a & Hmi & Hacc & Heq)].
  - unfold engine_ok. rewrite Heq.
    repeat split; try assumption; try apply Hok.
    apply score_le_refl, Hok.
  - unfold engine_ok. rewrite Heq.
    destruct (score_update_ok (human_intelligence_score e) a) as [H1 H2];
      [apply Hok | eapply registry_ok_get; eassumption |].
    repeat split; assumption.
Qed.

Lemma only_queue_refl (e : Engine) : only_queue_changed e e.
Proof. now destruct e. Qed.

Lemma only_queue_trans (e1 e2 e3 : Engine) :
  only_queue_changed e1 e2 -> only_queue_changed e2 e3 ->
  only_queue_changed e1 e3.
Proof. unfold only_queue_changed. intros -> ->. reflexivity. Qed.

Lemma add_learning_task_only_queue (e : Engine) name mode prio params
    seconds now_us :
  only_queue_changed e
    (fst (add_learning_task name mode prio params seconds now_us e)).
Proof. rewrite add_learning_task_unfold. reflexivity. Qed.

Lemma lookup_info_state (name : string) (e : Engine) :
  fst (lookup_info name e) = e.
Proof. unfold lookup_info. unfold_M. now case_match. Qed.

Lemma are_datasets_compatible_state (d1 d2 : string) (e : Engine) :
  fst (_are_datasets_compatible d1 d2 e) = e.
Proof.
  unfold _are_datasets_compatible, lookup_info. unfold_M.
  repeat case_match; simplify_eq; reflexivity.
Qed.

Lemma remediation_loop_only_queue (clock : nat -> Z * Z) (names : list string) :
  forall (k : nat) (e : Engine),
    only_queue_changed e (fst (remediation_loop clock k names e)).
Proof.
  induction names as [|name rest IH]; intros k e; cbn [remediation_loop].
  - apply only_queue_refl.
  - unfold mbind at 1, M_bind at 1, bind at 1.
    pose proof (lookup_info_state name e) as Hst.
    destruct (lookup_info name e) as [e0 [ex|i]]; cbn [fst] in Hst; subst e0;
      [apply only_queue_refl|].
    unfold mbind at 1, M_bind at 1, bind at 1, get_engine.
    destruct (flt _ _); [|apply IH].
    unfold mbind at 1, M_bind at 1, bind at 1.
    pose proof (add_learning_task_only_queue e name (default_mode i) 1
                  (Some target_accuracy_params) (fst (clock k)) (snd (clock k)))
      as Hadd.
    destruct (add_learning_task _ _ _ _ _ _ e) as [e1 [ex|[]]];
      cbn [fst] in *; [assumption|].
    eapply only_queue_trans; [eassumption | apply IH].
Qed.

Lemma transfer_inner_only_queue (clock : nat -> Z * Z) (d1 : string)
    (others : list string) :
  forall (k : nat) (e : Engine),
    only_queue_changed e (fst (transfer_inner clock k d1 others e)).
Proof.
  induction others as [|d2 rest IH]; intros k e; cbn [transfer_inner].
  - apply only_queue_refl.
  - unfold mbind at 1, M_bind at 1, bind at 1.
    pose proof (are_datasets_compatible_state d1 d2 e) as Hst.
    destruct (_are_datasets_compatible d1 d2 e) as [e0 [ex|[|]]];
      cbn [fst] in Hst; subst e0; [apply only_queue_refl | | apply IH].
    unfold mbind at 1, M_bind at 1, bind at 1.
    pose proof (add_learning_task_only_queue e d2 TRANSFER 2
                  (Some [("source_dataset", VStr d1)])
                  (fst (clock k)) (snd (clock k))) as Hadd.
    destruct (add_learning_task _ _ _ _ _ _ e) as [e1 [ex|[]]];
      cbn [fst] in *; [assumption|].
    eapply only_queue_trans; [eassumption | apply IH].
Qed.

Lemma transfer_outer_only_queue (clock : nat -> Z * Z) (datasets : list string) :
  forall (k : nat) (e : Engine),
    only_queue_changed e (fst (transfer_outer clock k datasets e)).
Proof.
  induction datasets as [|d1 rest IH]; intros k e; cbn [transfer_outer].
  - apply only_queue_refl.
  - unfold mbind at 1, M_bind at 1, bind at 1.
    pose proof (transfer_inner_only_queue clock d1 rest k e) as Hin.
    destruct (transfer_inner clock k d1 rest e) as [e1 [ex|k']];
      cbn [fst] in *; [assumption|].
    eapply only_queue_trans; [eassumption | apply IH].
Qed.

Lemma auto_schedule_only_queue (clock : nat -> Z * Z) (e : Engine) :
  only_queue_changed e (fst (auto_schedule_learning clock e)).
Proof.
  unfold auto_schedule_learning, _schedule_transfer_learning.
  unfold mbind at 1, M_bind at 1, bind at 1, get_engine.
  unfold mbind at 1, M_bind at 1, bind at 1.
  pose proof (remediation_loop_only_queue clock
                (dict_keys (dataset_registry e)) 0 e) as Hrem.
  destruct (remediation_loop clock 0 _ e) as [e1 [ex|k]];
    cbn [fst] in *; [assumption|].
  unfold mbind at 1, M_bind at 1, bind at 1.
  unfold mbind at 1, M_bind at 1, bind at 1.
  pose proof (transfer_outer_only_queue clock
                (dict_keys (dataset_registry e1)) k e1) as Htr.
  destruct (transfer_outer clock k _ e1) as [e2 [ex|k']];
    cbn [fst] in *; eapply only_queue_trans; eassumption.
Qed.

Lemma only_queue_score (e e' : Engine) :
  only_queue_changed e e' ->
  human_intelligence_score e' = human_intelligence_score e
  /\ model_registry e' = model_registry e.
Proof. unfold only_queue_changed. intros ->. now split. Qed.

(** One call keeps the engine well formed and does not lower the score. *)
Lemma step_ok (e : Engine) (c : Call) :
  engine_ok e ->
  engine_ok (step e c)
  /\ score_le (human_intelligence_score e) (human_intelligence_score (step e c)).
Proof.
  intros Hok.
  assert (Hqueue : forall e', only_queue_changed e e' ->
            engine_ok e'
            /\ score_le (human_intelligence_score e) (human_intelligence_score e')).
  { intros e' [Hs Hr]%only_queue_score. unfold engine_ok.
    rewrite Hs, Hr. split; [exact Hok | apply score_le_refl, Hok]. }
  destruct c as [name mode prio params seconds now_us | env | clock];
    cbn [step].
  - apply Hqueue, add_learning_task_only_queue.
  - unfold _learning_worker.
    destruct (learning_queue e) as [|it q] eqn:Hq.
    + cbn [fst]. split; [exact Hok | apply score_le_refl, Hok].
    + rewrite <- Hq.
      destruct (heappop (learning_queue e)) as [q' [ex|[p task]]].
      * cbn [fst]. split; [exact Hok | apply score_le_refl, Hok].
      * pose proof (execute_ok env task (set_queue q' e) Hok) as Hex.
        destruct (_execute_learning_task env task (set_queue q' e)).
        exact Hex.
  - apply Hqueue, auto_schedule_only_queue.
Qed.

Lemma init_ok : engine_ok init.
Proof.
  split.
  - exists 0%Q. split; [reflexivity | split; discriminate].
  - constructor.
Qed.

Lemma run_app (calls1 calls2 : list Call) (e : Engine) :
  run (calls1 ++ calls2) e = run calls2 (run calls1 e).
Proof. apply fold_left_app. Qed.

Lemma run_ok (calls : list Call) :
  forall e, engine_ok e ->
    engine_ok (run calls e)
    /\ score_le (human_intelligence_score e)
         (human_intelligence_score (run calls e)).
Proof.
  induction calls as [|c calls IH]; intros e Hok; cbn.
  - split; [assumption | apply score_le_refl, Hok].
  - destruct (step_ok e c Hok) as [Hok1 Hle1].
    destruct (IH (step e c) Hok1) as [Hok2 Hle2].
    split; [assumption | eapply score_le_trans; eassumption].
Qed.

(** C4, as the specification has it, fails: the score also grows on a task
    that completes without yielding an accuracy (a transfer task without a
    source model whose id is that of an earlier supervised task), and on a
    task that ends "failed" (its model could not be saved). *)
Lemma score_changes_without_completed_accuracy :
  (let e := run [Submit "rice_msc" SUPERVISED 1 None 100 100000000;
                 Submit "rice_msc" TRANSFER 2 None 100 100000900;
                 Work quiet_env] init in
   let r := _learning_worker quiet_env e in
   exists task,
     snd r = Some task
     /\ learning_mode task = TRANSFER
     /\ status task = "completed"
     /\ model_registry (fst r) = model_registry e
     /\ human_intelligence_score e = Fin (2 # 40)
     /\ human_intelligence_score (fst r) = Fin (160 # 1600))
  /\ (let e := run [Submit "rice_msc" SUPERVISED 1 None 100 100000000] init in
      let r := _learning_worker (with_save_error OSError quiet_env) e in
      exists task,
        snd r = Some task
        /\ status task = "failed"
        /\ human_intelligence_score e = Fin 0
        /\ human_intelligence_score (fst r) = Fin (2 # 40)).
Proof.
  split; vm_compute; eexists; repeat split.
Qed.

Lemma worker_score (env : Env) (e : Engine) :
  let r := _learning_worker env e in
  human_intelligence_score (fst r) = human_intelligence_score e
  \/ exists task mi a,
       snd r = Some task
       /\ dict_get (task_id task) (model_registry (fst r)) = Some mi
       /\ accuracy_of mi = Some a
       /\ human_intelligence_score (fst r)
          = pymin (Fin 1)
              (fadd (human_intelligence_score e) (fmul a (Fin (1 # 10)))).
Proof.
  intros r. subst r. unfold _learning_worker.
  destruct (learning_queue e) as [|it q] eqn:Hq; [now left|].
  rewrite <- Hq.
  destruct (heappop (learning_queue e)) as [q' [ex|[p task]]]; [now left|].
  pose proof (execute_score env task (set_queue q' e)) as Hscore.
  pose proof (execute_cases env task (set_queue q' e)) as Hcase.
  destruct (_execute_learning_task env task (set_queue q' e)) as [e' t'].
  cbn [fst snd] in *.
  destruct Hscore as [Heq | (mi & a & Hmi & Hacc & Heq)]; [now left|].
  right. exists t', mi, a. repeat split; try assumption.
  replace (task_id t') with (task_id task); [assumption|].
  inversion Hcase; reflexivity.
Qed.

(** When the strategy has returned and the registry then holds an entry
    with an accuracy under the task's id, the execution raises the score by
    a tenth of that accuracy, up to 1, whether or not the model can be
    saved afterwards. *)
Lemma execute_updates_score (env : Env) (task : LearningTask) (e e1 : Engine)
    (i : DatasetInfo) (mi : ModelInfo) (a : pyfloat) :
  dict_get (dataset_name task) (dataset_registry e) = Some i ->
  load_error env = None ->
  run_strategy env (set_status "running" task) (mkDataset (y_test env) i) e
  = (e1, inr tt) ->
  dict_get (task_id task) (model_registry e1) = Some mi ->
  accuracy_of mi = Some a ->
  let r := _execute_learning_task env task e in
  human_intelligence_score (fst r)
  = pymin (Fin 1) (fadd (human_intelligence_score e) (fmul a (Fin (1 # 10))))
  /\ snd r = set_status match save_error env with
                        | Some _ => "failed"
                        | None => "completed"
                        end task.
Proof.
  intros Hreg Hload Hrun Hmi Hacc r. subst r.
  pose proof (execute_cases env task e) as Hcase.
  destruct (_execute_learning_task env task e) as [e' t'].
  cbn [fst snd] in *.
  assert (Hscore : human_intelligence_score e1 = human_intelligence_score e).
  { destruct (run_strategy_cases env (set_status "running" task)
                (mkDataset (y_test env) i) e)
      as [[ex H]|[[a' H]|[H _]]]; rewrite H in Hrun; now simplify_eq. }
  inversion Hcase as [ Hreg' | i' ex' Hreg' Hload' | i' ex' Hreg' Hload' Hrun'
                     | i' e1' Hreg' Hload' Hrun' Hnone
                     | i' e1' mi' ex' Hreg' Hload' Hrun' Hmi' Hsave'
                     | i' e1' mi' Hreg' Hload' Hrun' Hmi' Hsave' ];
    rewrite Hreg in Hreg'; try discriminate; try congruence;
    injection Hreg' as <-; rewrite Hrun in Hrun'; try discriminate;
    injection Hrun' as <-; try congruence;
    rewrite Hmi in Hmi'; injection Hmi' as <-; rewrite Hsave';
    cbn [human_intelligence_score log_error set_models_dir];
    rewrite (update_metrics_score task e1 mi Hmi), Hacc, Hscore;
    split; reflexivity.
Qed.

(** C4 (amended): the score starts at 0; after any sequence of calls it is
    a number of [[0,1]]; it never decreases along a run; submissions and
    the auto-scheduler leave it alone; an iteration of the worker changes
    it only when, after the strategy has run, the model registry holds an
    entry with an accuracy under the id of the executed task; and whenever
    that is so, the iteration sets it to [min(1.0, score + accuracy * 0.1)],
    also when [_save_model] raises afterwards and the task ends "failed":
    the update precedes [_save_model] and the assignment of "completed". *)
Theorem score_is_clamped_and_monotone :
  get_human_intelligence_score init = Fin 0
  /\ (forall calls, score_ok (get_human_intelligence_score (run calls init)))
  /\ (forall calls more,
        score_le (get_human_intelligence_score (run calls init))
                 (get_human_intelligence_score (run (calls ++ more) init)))
  /\ (forall e name mode prio params seconds now_us,
        get_human_intelligence_score
          (step e (Submit name mode prio params seconds now_us))
        = get_human_intelligence_score e)
  /\ (forall e clock,
        get_human_intelligence_score (step e (AutoSchedule clock))
        = get_human_intelligence_score e)
  /\ (forall e env,
        let r := _learning_worker env e in
        get_human_intelligence_score (fst r) = get_human_intelligence_score e
        \/ exists task mi a,
             snd r = Some task
             /\ dict_get (task_id task) (model_registry (fst r)) = Some mi
             /\ accuracy_of mi = Some a
             /\ get_human_intelligence_score (fst r)
                = pymin (Fin 1)
                    (fadd (get_human_intelligence_score e)
                          (fmul a (Fin (1 # 10)))))
  /\ (forall e env q p task i e1 mi a,
        learning_queue e <> [] ->
        heappop (learning_queue e) = (q, inr (p, task)) ->
        dict_get (dataset_name task) (dataset_registry e) = Some i ->
        load_error env = None ->
        run_strategy env (set_status "running" task)
          (mkDataset (y_test env) i) (set_queue q e) = (e1, inr tt) ->
        dict_get (task_id task) (model_registry e1) = Some mi ->
        accuracy_of mi = Some a ->
        let r := _learning_worker env e in
        get_human_intelligence_score (fst r)
        = pymin (Fin 1)
            (fadd (get_human_intelligence_score e) (fmul a (Fin (1 # 10))))
        /\ snd r = Some (set_status match save_error env with
                                    | Some _ => "failed"
                                    | None => "completed"
                                    end task)).
Proof.
  unfold get_human_intelligence_score.
  split; [reflexivity|].
  split; [intros calls; apply (run_ok calls init init_ok)|].
  split.
  { intros calls more. rewrite run_app.
    apply run_ok, (run_ok calls init init_ok). }
  split.
  { intros e name mode prio params seconds now_us. cbn [step].
    apply only_queue_score, add_learning_task_only_queue. }
  split.
  { intros e clock. cbn [step].
    apply only_queue_score, auto_schedule_only_queue. }
  split; [intros e env; apply worker_score|].
  intros e env q p task i e1 mi a Hne Hpop Hreg Hload Hrun Hmi Hacc.
  cbv zeta. unfold _learning_worker.
  destruct (learning_queue e) as [|it rest] eqn:Hq; [congruence|].
  rewrite Hpop.
  destruct (execute_updates_score env task (set_queue q e) e1 i mi a
              Hreg Hload Hrun Hmi Hacc) as [Hscore Hstatus].
  destruct (_execute_learning_task env task (set_queue q e)) as [e' t'].
  cbn [fst snd] in *. split; [exact Hscore | now rewrite Hstatus].
Qed.

Lemma score_is_clamped_and_monotone_witness :
  let task := new_task "rice_msc" SUPERVISED 1 None 100 100000000 in
  let e := step init (Submit "rice_msc" SUPERVISED 1 None 100 100000000) in
  let r := _learning_worker (with_save_error OSError quiet_env) e in
  get_human_intelligence_score (fst r)
  = pymin (Fin 1) (fadd (Fin 0) (fmul (Fin (2 # 4)) (Fin (1 # 10))))
  /\ snd r = Some (set_status "failed" task).
Proof.
  intros task e r.
  destruct score_is_clamped_and_monotone as (_ & _ & _ & _ & _ & _ & H).
  apply (H e (with_save_error OSError quiet_env) [] 1%Z task
           (mkInfo "classification" 106 5 75000 SUPERVISED)
           (stored (set_status "running" task)
                   (SupervisedModel no_params (Fin (2 # 4)))
                   (with_save_error OSError quiet_env) (set_queue [] e))
           (mkModelInfo (SupervisedModel no_params (Fin (2 # 4)))
                        "rice_msc" 777)
           (Fin (2 # 4)));
    [discriminate | reflexivity..].
Defined.

(** ** Supervised training *)

Lemma training_loop_app (env : Env) (ds : Dataset) (l1 l2 : list nat) :
  forall (m : Params) (acc : option pyfloat),
    training_loop env ds (l1 ++ l2) m acc
    = training_loop env ds l2 (fst (training_loop env ds l1 m acc))
                              (snd (training_loop env ds l1 m acc)).
Proof.
  induction l1 as [|epoch l1 IH]; intros m acc; cbn [app training_loop fst snd].
  - reflexivity.
  - apply IH.
Qed.

Lemma div5_no_evaluation (n : nat) :
  (S n mod 5 <> 0 -> S n / 5 = n / 5)%nat.
Proof.
  intros Hnz.
  pose proof (Nat.div_mod_eq (S n) 5). pose proof (Nat.div_mod_eq n 5).
  pose proof (Nat.mod_upper_bound (S n) 5).
  pose proof (Nat.mod_upper_bound n 5).
  lia.
Qed.

Lemma div5_evaluation (n : nat) :
  (n mod 5 = 0 -> 5 * (n / 5) + 1 = S n)%nat.
Proof. intros Hz. pose proof (Nat.div_mod_eq n 5). lia. Qed.

(** The training loop over [range(n)]: the weights have received [n]
    updates, and the accuracy is the one measured at the last epoch
    divisible by five, on the weights as they were after that epoch's
    update. *)
Lemma training_loop_range (env : Env) (ds : Dataset) (m0 : Params) (n : nat) :
  training_loop env ds (seq 0 n) m0 None
  = (updates env n m0,
     match n with
     | O => None
     | S n' =>
         Some (_calculate_accuracy
                 (test_classes env (updates env (5 * (n' / 5) + 1) m0))
                 (ds_y_test ds))
     end).
Proof.
  induction n as [|n IH]; [reflexivity|].
  rewrite seq_S, training_loop_app, IH. cbn [fst snd plus training_loop].
  change (backward_pass env n (updates env n m0)) with (updates env (S n) m0).
  f_equal.
  destruct (Nat.eqb_spec (n mod 5) 0) as [Hz|Hnz].
  - now rewrite div5_evaluation.
  - destruct n as [|n']; [now destruct Hnz|].
    now rewrite div5_no_evaluation.
Qed.

Lemma dict_get_set {V : Type} (k : string) (v : V) (d : dict V) :
  dict_get k (dict_set k v d) = Some v.
Proof.
  induction d as [|[k' v'] d IH]; cbn.
  - now rewrite String.eqb_refl.
  - destruct (String.eqb k k') eqn:Hk; cbn; now rewrite ?String.eqb_refl, ?Hk.
Qed.

(** [_supervised_learning] with [epochs_per_task = n]. *)
Lemma supervised_learning_stores (env : Env) (task : LearningTask)
    (ds : Dataset) (e : Engine) :
  numeric_error env = None ->
  _supervised_learning env task ds e
  = match epochs_per_task e with
    | O => (e, inl UnboundLocalError)
    | S n' =>
        (stored task
           (SupervisedModel
              (updates env (S n') (init_network env))
              (_calculate_accuracy
                 (test_classes env
                    (updates env (5 * (n' / 5) + 1) (init_network env)))
                 (ds_y_test ds)))
           env e,
         inr tt)
    end.
Proof.
  intros Hnum. unfold _supervised_learning, store_model. unfold_M.
  rewrite Hnum, training_loop_range.
  now destruct (epochs_per_task e).
Qed.

(** C9, as stated, fails: with the ten epochs of [__init__] the stored
    accuracy is the one measured at epoch 5; here it is 1, while the stored
    weights, which received four more updates, classify no held-out sample
    correctly. *)
Lemma stored_accuracy_is_not_of_final_model :
  let task := new_task "rice_msc" SUPERVISED 1 None 100 100000000 in
  let r := _execute_learning_task counting_env task init in
  status (snd r) = "completed"
  /\ exists model mi,
       dict_get (task_id task) (model_registry (fst r)) = Some mi
       /\ artifact mi = SupervisedModel model (Fin (2 # 2))
       /\ model = updates counting_env 10 (init_network counting_env)
       /\ _calculate_accuracy (test_classes counting_env model)
                              (y_test counting_env) = Fin (0 # 2).
Proof.
  vm_compute. split; [reflexivity|]. eexists. eexists.
  split; [reflexivity|]. repeat split.
Qed.

(** C9 (amended): for every supervised task that completes, the stored
    weights are those after all [epochs_per_task] updates, and the stored
    accuracy is the held-out accuracy measured at the last epoch divisible
    by five, on the weights as they were after that epoch's update: with
    ten epochs, the weights after six of the ten updates. *)
Theorem stored_accuracy_is_of_last_evaluation :
  forall (env : Env) (task : LearningTask) (e : Engine),
    learning_mode task = SUPERVISED ->
    status (snd (_execute_learning_task env task e)) = "completed" ->
    exists n',
      epochs_per_task e = S n'
      /\ dict_get (task_id task)
           (model_registry (fst (_execute_learning_task env task e)))
         = Some (mkModelInfo
                   (SupervisedModel
                      (updates env (S n') (init_network env))
                      (_calculate_accuracy
                         (test_classes env
                            (updates env (5 * (n' / 5) + 1) (init_network env)))
                         (y_test env)))
                   (dataset_name task) (now env)).
Proof.
  intros env task e Hmode Hdone.
  pose proof (execute_cases env task e) as Hcase.
  destruct (_execute_learning_task env task e) as [e' t'].
  cbn [fst snd] in *.
  assert (Hrun : forall i e1,
            run_strategy env (set_status "running" task)
              (mkDataset (y_test env) i) e = (e1, inr tt) ->
            exists n',
              epochs_per_task e = S n'
              /\ dict_get (task_id task) (model_registry e1)
                 = Some (mkModelInfo
                     (SupervisedModel
                        (updates env (S n') (init_network env))
                        (_calculate_accuracy
                           (test_classes env
                              (updates env (5 * (n' / 5) + 1) (init_network env)))
                           (y_test env)))
                     (dataset_name task) (now env))).
  { intros i e1. unfold run_strategy. cbn [learning_mode set_status].
    rewrite Hmode.
    destruct (numeric_error env) as [ex|] eqn:Hnum.
    - unfold _supervised_learning. unfold_M. rewrite Hnum. discriminate.
    - rewrite supervised_learning_stores by assumption.
      destruct (epochs_per_task e) as [|n']; [discriminate|].
      intros [= <-]. exists n'. split; [reflexivity|].
      cbn [stored model_registry set_model_registry task_id set_status
           dataset_name ds_y_test].
      apply dict_get_set. }
  inversion Hcase as [ | | | i e1 Hreg Hload Hstrategy Hnone
                       | i e1 mi ex Hreg Hload Hstrategy Hmi Hsave
                       | i e1 mi Hreg Hload Hstrategy Hmi Hsave ];
    subst; cbn [status set_status] in Hdone; try discriminate.
  - destruct (Hrun i e' Hstrategy) as (n' & _ & Hget). congruence.
  - destruct (Hrun i e1 Hstrategy) as (n' & Hn & Hget).
    exists n'. split; [assumption|].
    cbn [model_registry set_models_dir].
    now rewrite update_metrics_registry.
Qed.

Lemma stored_accuracy_is_of_last_evaluation_witness :
  let task := new_task "rice_msc" SUPERVISED 1 None 100 100000000 in
  dict_get (task_id task)
    (model_registry (fst (_execute_learning_task counting_env task init)))
  = Some (mkModelInfo
            (SupervisedModel
               (updates counting_env 10 (init_network counting_env))
               (_calculate_accuracy
                  (test_classes counting_env
                     (updates counting_env 6 (init_network counting_env)))
                  (y_test counting_env)))
            "rice_msc" (now counting_env)).
Proof.
  intros task.
  destruct (stored_accuracy_is_of_last_evaluation counting_env task init)
    as (n' & Hn & Hget); [reflexivity | reflexivity |].
  injection Hn as <-. exact Hget.
Defined.

(** ** The auto-scheduler *)

(** The two pairs that the specification names: 106 and 128 features are
    compatible, 784 and 3072 are not. *)
Example compatibility_of_the_named_pairs :
  _are_datasets_compatible "rice_msc" "human_faces" init = (init, inr true)
  /\ _are_datasets_compatible "mnist" "cifar10" init = (init, inr false).
Proof. split; reflexivity. Qed.

(** Run on its own on the fresh engine, the transfer pass submits exactly
    one task: [human_faces] from [rice_msc], at priority 2. *)
Example transfer_pass_on_empty_queue (clock : nat -> Z * Z) :
  _schedule_transfer_learning clock 0 init
  = (set_queue
       [(2%Z, new_task "human_faces" TRANSFER 2
                (Some [("source_dataset", VStr "rice_msc")])
                (fst (clock 0%nat)) (snd (clock 0%nat)))] init,
     inr 1%nat).
Proof. reflexivity. Qed.

(** C6 (the code departs from it): [_get_dataset_accuracy] returns the
    first accuracy recorded for the dataset, not the most recent one.
    After [rice_msc] was trained to 0.5 and later to 1.0, and every other
    dataset to 1.0, the auto-scheduler still submits a priority-1
    remediation task for [rice_msc]. *)
Theorem remediation_reads_first_recorded_accuracy :
  let e := run improved_history init in
  let r := auto_schedule_learning (clock_at 700) e in
  most_recent_accuracy "rice_msc" (performance_metrics e) = Fin (4 # 4)
  /\ flt (most_recent_accuracy "rice_msc" (performance_metrics e))
         (Fin (8 # 10)) = false
  /\ _get_dataset_accuracy "rice_msc" (performance_metrics e) = Fin (2 # 4)
  /\ snd r = inr tt
  /\ learning_queue (fst r)
     = [(1%Z, new_task "rice_msc" SUPERVISED 1 (Some target_accuracy_params)
                700 700000000);
        (2%Z, new_task "human_faces" TRANSFER 2
                (Some [("source_dataset", VStr "rice_msc")])
                700 700000001)].
Proof. vm_compute. repeat split. Qed.

(** C7 (the code departs from it): on the fresh engine every dataset has
    accuracy 0, so the first pass of [auto_schedule_learning] submits a
    second priority-1 task next to the first one and the call ends with a
    [TypeError] before [_schedule_transfer_learning] is reached.  No
    transfer task is submitted for the compatible pair
    ([rice_msc], [human_faces]). *)
Theorem auto_schedule_on_fresh_engine_raises :
  forall clock : nat -> Z * Z,
    let r := auto_schedule_learning clock init in
    snd r = inl TypeError
    /\ map (fun it => (fst it, dataset_name (snd it), learning_mode (snd it)))
           (learning_queue (fst r))
       = [(1%Z, "rice_msc", SUPERVISED); (1%Z, "human_faces", SUPERVISED)]
    /\ _are_datasets_compatible "rice_msc" "human_faces" init = (init, inr true).
Proof. intros clock. vm_compute. repeat split. Qed.

(** ** The heap order *)

Lemma swap_lookup_l {A : Type} (l : list A) (i j : nat) (x y : A) :
  l !! i = Some x -> l !! j = Some y -> swap l i j !! i = Some y.
Proof.
  intros Hi Hj. unfold swap. rewrite Hi, Hj.
  pose proof (lookup_lt_Some _ _ _ Hi) as Hlen.
  destruct (decide (i = j)) as [->|Hne].
  - rewrite list_lookup_insert_eq by now rewrite length_insert. congruence.
  - rewrite list_lookup_insert_ne by congruence.
    now apply list_lookup_insert_eq.
Qed.

Lemma swap_lookup_r {A : Type} (l : list A) (i j : nat) (x y : A) :
  l !! i = Some x -> l !! j = Some y -> swap l i j !! j = Some x.
Proof.
  intros Hi Hj. unfold swap. rewrite Hi, Hj.
  pose proof (lookup_lt_Some _ _ _ Hj) as Hlen.
  apply list_lookup_insert_eq. now rewrite length_insert.
Qed.

Lemma swap_lookup_ne {A : Type} (l : list A) (i j k : nat) :
  k <> i -> k <> j -> swap l i j !! k = l !! k.
Proof.
  intros Hi Hj. unfold swap.
  destruct (l !! i), (l !! j); trivial.
  now rewrite !list_lookup_insert_ne by congruence.
Qed.

Lemma swap_distinct (heap : list Item) (i j : nat) :
  distinct_priorities heap -> distinct_priorities (swap heap i j).
Proof.
  unfold distinct_priorities. intros H.
  change (map fst (swap heap i j)) with (fst <$> swap heap i j).
  now rewrite swap_perm.
Qed.

Lemma distinct_lookup (heap : list Item) (i j : nat) (a b : Item) :
  distinct_priorities heap ->
  heap !! i = Some a -> heap !! j = Some b -> i <> j -> fst a <> fst b.
Proof.
  intros Hnd Hi Hj Hne Heq. apply Hne.
  apply (NoDup_lookup (fst <$> heap) i j (fst a) Hnd);
    rewrite list_lookup_fmap.
  - apply (f_equal (fmap fst)) in Hi. exact Hi.
  - apply (f_equal (fmap fst)) in Hj. rewrite Heq. exact Hj.
Qed.

Lemma item_lt_distinct (a b : Item) :
  fst a <> fst b -> item_lt a b = inr (Z.ltb (fst a) (fst b)).
Proof.
  intros Hne. unfold item_lt.
  now destruct (Z.eqb_spec (fst a) (fst b)).
Qed.

(** The root of an ordered heap has the smallest priority. *)
Lemma heap_root_minimal (heap : list Item) (r : Item) :
  heap_ordered heap ->
  heap !! 0%nat = Some r ->
  forall (i : nat) (a : Item), heap !! i = Some a -> (fst r <= fst a)%Z.
Proof.
  intros Hord Hroot i.
  induction i as [i IH] using lt_wf_ind. intros a Hi.
  destruct (decide (i = 0%nat)) as [->|Hpos].
  - rewrite Hroot in Hi. injection Hi as <-. lia.
  - assert (Hlt : ((i - 1) `div` 2 < i)%nat) by div2_lia.
    destruct (lookup_lt_is_Some_2 heap ((i - 1) `div` 2)%nat) as [b Hb].
    { apply lookup_lt_Some in Hi. lia. }
    specialize (IH _ Hlt b Hb).
    specialize (Hord i a b ltac:(lia) Hi Hb). lia.
Qed.

Lemma ordered_but_parent_root (heap : list Item) :
  ordered_but_parent heap 0 -> heap_ordered heap.
Proof.
  intros [Horder _] i a b Hi. apply Horder; [assumption | lia].
Qed.

(** [siftdown] restores the heap order from [ordered_but_parent], without
    raising when the priorities are distinct. *)
Lemma siftdown_restores (fuel : nat) :
  forall (heap : list Item) (pos : nat),
    (pos <= fuel)%nat ->
    (pos < length heap)%nat ->
    distinct_priorities heap ->
    ordered_but_parent heap pos ->
    snd (siftdown fuel heap pos) = None
    /\ heap_ordered (fst (siftdown fuel heap pos)).
Proof.
  induction fuel as [|fuel IH]; intros heap pos Hfuel Hlen Hnd Hinv;
    cbn [siftdown].
  { replace pos with 0%nat in Hinv by lia.
    split; [reflexivity | now apply ordered_but_parent_root]. }
  destruct (Nat.ltb_spec 0 pos) as [Hpos|Hzero].
  2:{ replace pos with 0%nat in Hinv by lia.
      split; [reflexivity | now apply ordered_but_parent_root]. }
  set (pp := ((pos - 1) `div` 2)%nat).
  assert (Hpp : (pp < pos)%nat) by (subst pp; div2_lia).
  destruct (lookup_lt_is_Some_2 heap pos Hlen) as [newitem Hnew].
  destruct (lookup_lt_is_Some_2 heap pp ltac:(lia)) as [parent Hpar].
  rewrite Hnew, Hpar.
  rewrite item_lt_distinct
    by (eapply (distinct_lookup heap pos pp); eauto; lia).
  destruct Hinv as [Horder Hgrand].
  destruct (Z.ltb_spec (fst newitem) (fst parent)) as [Hlt|Hge].
  - (* the entry moves up *)
    apply IH.
    + lia.
    + rewrite swap_length. lia.
    + now apply swap_distinct.
    + split.
      * intros i a b Hi Hne Ha Hb.
        destruct (decide (i = pos)) as [->|Hipos].
        { fold pp in Hb.
          rewrite (swap_lookup_l heap pos pp newitem parent Hnew Hpar) in Ha.
          rewrite (swap_lookup_r heap pos pp newitem parent Hnew Hpar) in Hb.
          now simplify_eq. }
        rewrite swap_lookup_ne in Ha by assumption.
        destruct (decide (((i - 1) `div` 2)%nat = pos)) as [Hchild|Hnchild].
        { rewrite Hchild in Hb.
          rewrite (swap_lookup_l heap pos pp newitem parent Hnew Hpar) in Hb.
          simplify_eq.
          eapply (Hgrand i); eauto. }
        destruct (decide (((i - 1) `div` 2)%nat = pp)) as [Hsib|Hnsib].
        { rewrite Hsib in Hb.
          rewrite (swap_lookup_r heap pos pp newitem parent Hnew Hpar) in Hb.
          simplify_eq.
          pose proof (Horder i a parent Hi Hipos Ha) as Hpa.
          rewrite Hsib in Hpa. specialize (Hpa Hpar). lia. }
        rewrite swap_lookup_ne in Hb by assumption.
        eapply Horder; eauto.
      * intros c a g Hpppos Hc Hcpar Ha Hg.
        rewrite swap_lookup_ne in Hg by div2_lia.
        assert (Hppg : (fst g < fst parent)%Z).
        { eapply (Horder pp parent g); eauto; lia. }
        destruct (decide (c = pos)) as [->|Hcpos].
        { rewrite (swap_lookup_l heap pos pp newitem parent Hnew Hpar) in Ha.
          now simplify_eq. }
        rewrite swap_lookup_ne in Ha by (try assumption; div2_lia).
        pose proof (Horder c a parent Hc Hcpos Ha) as Hpa.
        rewrite Hcpar in Hpa. specialize (Hpa Hpar). lia.
  - (* the entry stays *)
    split; [reflexivity|]. cbn [fst].
    intros i a b Hi Ha Hb.
    destruct (decide (i = pos)) as [->|Hipos].
    + fold pp in Hb. rewrite Hnew in Ha. rewrite Hpar in Hb.
      injection Ha as <-. injection Hb as <-.
      assert (fst newitem <> fst parent)
        by (eapply (distinct_lookup heap pos pp); eauto; lia).
      lia.
    + eapply Horder; eauto.
Qed.

Lemma append_ordered_but_parent (heap : list Item) (item : Item) :
  heap_ordered heap ->
  ordered_but_parent (heap ++ [item]) (length heap).
Proof.
  intros Hord. split.
  - intros i a b Hi Hne Ha Hb.
    assert (Hlt : (i < length heap)%nat).
    { apply lookup_lt_Some in Ha. rewrite length_app in Ha. cbn in Ha. lia. }
    rewrite lookup_app_l in Ha by assumption.
    rewrite lookup_app_l in Hb by div2_lia.
    eapply Hord; eauto.
  - intros c a g _ Hc Hpar Ha _.
    apply lookup_lt_Some in Ha. rewrite length_app in Ha. cbn in Ha.
    div2_lia.
Qed.

(** Pushing a priority that is not queued yet keeps the heap order and
    does not raise. *)
Lemma heappush_ordered (heap : list Item) (item : Item) :
  heap_ordered heap ->
  distinct_priorities heap ->
  fst item ∉ map fst heap ->
  snd (heappush heap item) = None
  /\ heap_ordered (fst (heappush heap item))
  /\ distinct_priorities (fst (heappush heap item)).
Proof.
  intros Hord Hnd Hnew.
  assert (Hnd' : distinct_priorities (heap ++ [item])).
  { unfold distinct_priorities in *. rewrite map_app. cbn.
    apply NoDup_app. repeat split; [assumption | | apply NoDup_singleton].
    intros k Hk Hin. apply list_elem_of_singleton in Hin. subst k.
    contradiction. }
  destruct (siftdown_restores (length heap) (heap ++ [item]) (length heap))
    as [Hret Hord']; try assumption.
  - lia.
  - rewrite length_app. cbn. lia.
  - now apply append_ordered_but_parent.
  - unfold heappush. repeat split; try assumption.
    unfold distinct_priorities.
    change (map fst ?l) with (fst <$> l).
    rewrite siftdown_perm. exact Hnd'.
Qed.

Lemma ordered_but_around_leaf (heap : list Item) (pos : nat) :
  (length heap <= 2 * pos + 1)%nat ->
  ordered_but_around heap pos -> ordered_but_parent heap pos.
Proof.
  intros Hleaf [Horder Hgrand]. split.
  - intros i a b Hi Hne Ha Hb.
    apply (Horder i a b); try assumption.
    intros Hchild. apply lookup_lt_Some in Ha. div2_lia.
  - intros c a g Hpos Hc Hpar Ha Hg.
    apply lookup_lt_Some in Ha. div2_lia.
Qed.

(** One iteration of the first loop of [siftup]: the smaller child [c] of
    [pos] moves up. *)
Lemma sink_step (heap : list Item) (pos c : nat) (x y : Item) :
  (0 < c)%nat -> ((c - 1) `div` 2)%nat = pos ->
  heap !! c = Some x -> heap !! pos = Some y ->
  (forall (s : nat) (z : Item),
      (0 < s)%nat -> ((s - 1) `div` 2)%nat = pos -> s <> c ->
      heap !! s = Some z -> (fst x < fst z)%Z) ->
  ordered_but_around heap pos ->
  ordered_but_around (swap heap c pos) c.
Proof.
  intros Hc Hpar Hx Hy Hsmall [Horder Hgrand].
  assert (Hcpos : c <> pos) by div2_lia.
  split.
  - intros i a b Hi Hne Hnpar Ha Hb.
    destruct (decide (i = pos)) as [->|Hipos].
    + rewrite (swap_lookup_r heap c pos x y Hx Hy) in Ha.
      rewrite swap_lookup_ne in Hb by div2_lia.
      simplify_eq. eapply (Hgrand c); eauto.
    + rewrite swap_lookup_ne in Ha by assumption.
      destruct (decide (((i - 1) `div` 2)%nat = pos)) as [Hchild|Hnchild].
      * rewrite Hchild in Hb.
        rewrite (swap_lookup_r heap c pos x y Hx Hy) in Hb.
        simplify_eq. eapply Hsmall; eauto.
      * rewrite swap_lookup_ne in Hb by assumption.
        eapply Horder; eauto.
  - intros d a g _ Hd Hdpar Ha Hg.
    rewrite Hpar in Hg.
    rewrite (swap_lookup_r heap c pos x y Hx Hy) in Hg.
    rewrite swap_lookup_ne in Ha by div2_lia.
    simplify_eq.
    eapply (Horder d); eauto; div2_lia.
Qed.

Lemma siftup_loop_perm (fuel : nat) :
  forall (heap : list Item) (pos : nat),
    fst (siftup_loop fuel heap pos) ≡ₚ heap.
Proof.
  induction fuel as [|fuel IH]; intros heap pos; cbn [siftup_loop];
    [reflexivity|].
  cbv zeta.
  destruct (pos <? length heap `div` 2)%nat; [|reflexivity].
  destruct (2 * pos + 1 + 1 <? length heap)%nat.
  - destruct (heap !! (2 * pos + 1)%nat) as [a|]; [|reflexivity].
    destruct (heap !! (2 * pos + 1 + 1)%nat) as [b|]; [|reflexivity].
    destruct (item_lt a b) as [ex|[|]]; [reflexivity| |];
      rewrite IH; apply swap_perm.
  - rewrite IH. apply swap_perm.
Qed.

(** The first loop of [siftup] carries the entry at [pos] down to a leaf
    and leaves the heap in the state from which [siftdown] starts. *)
Lemma siftup_loop_sinks (fuel : nat) :
  forall (heap : list Item) (pos : nat),
    (length heap <= fuel + pos)%nat ->
    (pos < length heap)%nat ->
    distinct_priorities heap ->
    ordered_but_around heap pos ->
    exists leaf,
      snd (siftup_loop fuel heap pos) = inr leaf
      /\ (leaf < length heap)%nat
      /\ ordered_but_parent (fst (siftup_loop fuel heap pos)) leaf.
Proof.
  induction fuel as [|fuel IH]; intros heap pos Hfuel Hlen Hnd Hinv;
    [lia|].
  cbn [siftup_loop]. cbv zeta.
  destruct (Nat.ltb_spec pos (length heap `div` 2)) as [Hinner|Hleaf].
  2:{ exists pos. cbn [fst snd]. split; [reflexivity|]. split; [assumption|].
      apply ordered_but_around_leaf; [div2_lia | assumption]. }
  assert (Hchild : (2 * pos + 1 < length heap)%nat) by div2_lia.
  destruct (lookup_lt_is_Some_2 heap pos Hlen) as [y Hy].
  destruct (lookup_lt_is_Some_2 heap (2 * pos + 1) Hchild) as [a Ha].
  assert (Hstep : forall (c : nat) (x : Item),
            (0 < c)%nat -> ((c - 1) `div` 2)%nat = pos ->
            heap !! c = Some x ->
            (forall (s : nat) (z : Item),
                (0 < s)%nat -> ((s - 1) `div` 2)%nat = pos -> s <> c ->
                heap !! s = Some z -> (fst x < fst z)%Z) ->
            exists leaf,
              snd (siftup_loop fuel (swap heap c pos) c) = inr leaf
              /\ (leaf < length heap)%nat
              /\ ordered_but_parent
                   (fst (siftup_loop fuel (swap heap c pos) c)) leaf).
  { intros c x Hc Hpar Hx Hsmall.
    destruct (IH (swap heap c pos) c) as (leaf & Hret & Hleaf & Hord).
    - rewrite swap_length. div2_lia.
    - rewrite swap_length. now apply lookup_lt_Some in Hx.
    - now apply swap_distinct.
    - eapply sink_step; eauto.
    - exists leaf. rewrite swap_length in Hleaf. auto. }
  destruct (Nat.ltb_spec (2 * pos + 1 + 1) (length heap)) as [Htwo|Hone].
  - destruct (lookup_lt_is_Some_2 heap (2 * pos + 1 + 1) Htwo) as [b Hb].
    rewrite Ha, Hb.
    rewrite item_lt_distinct
      by (eapply (distinct_lookup heap (2 * pos + 1) (2 * pos + 1 + 1));
          eauto; lia).
    destruct (Z.ltb_spec (fst a) (fst b)) as [Hlt|Hge].
    + apply (Hstep (2 * pos + 1)%nat a); try assumption; try div2_lia.
      intros s z Hs Hspar Hne Hz.
      replace s with (2 * pos + 1 + 1)%nat in Hz by div2_lia.
      now simplify_eq.
    + assert (fst a <> fst b)
        by (eapply (distinct_lookup heap (2 * pos + 1) (2 * pos + 1 + 1));
            eauto; lia).
      apply (Hstep (2 * pos + 1 + 1)%nat b); try assumption; try div2_lia.
      intros s z Hs Hspar Hne Hz.
      replace s with (2 * pos + 1)%nat in Hz by div2_lia.
      simplify_eq. lia.
  - apply (Hstep (2 * pos + 1)%nat a); try assumption; try div2_lia.
    intros s z Hs Hspar Hne Hz.
    apply lookup_lt_Some in Hz. div2_lia.
Qed.

Lemma siftup_perm (heap : list Item) (pos : nat) :
  fst (siftup heap pos) ≡ₚ heap.
Proof.
  unfold siftup.
  pose proof (siftup_loop_perm (length heap) heap pos) as Hloop.
  destruct (siftup_loop (length heap) heap pos) as [heap' [ex|leaf]];
    cbn [fst] in *; [assumption|].
  now rewrite siftdown_perm.
Qed.

(** [siftup] at the root restores the heap order after the root has been
    replaced. *)
Lemma siftup_restores (heap : list Item) :
  (0 < length heap)%nat ->
  distinct_priorities heap ->
  ordered_but_around heap 0 ->
  snd (siftup heap 0) = None /\ heap_ordered (fst (siftup heap 0)).
Proof.
  intros Hlen Hnd Hinv. unfold siftup.
  destruct (siftup_loop_sinks (length heap) heap 0)
    as (leaf & Hret & Hleaf & Hord); try assumption; [lia|].
  pose proof (siftup_loop_perm (length heap) heap 0) as Hperm.
  destruct (siftup_loop (length heap) heap 0) as [heap' r].
  cbn [fst snd] in *. subst r.
  apply siftdown_restores; try assumption; [lia | |].
  - now rewrite Hperm.
  - unfold distinct_priorities in *.
    change (map fst ?l) with (fst <$> l) in *. now rewrite Hperm.
Qed.

(** ** Taking an entry *)

Lemma heappop_snoc (heap : list Item) (x : Item) :
  heappop (heap ++ [x])
  = match heap with
    | [] => ([], inr x)
    | returnitem :: rest =>
        match siftup (x :: rest) 0 with
        | (heap3, Some ex) => (heap3, inl ex)
        | (heap3, None) => (heap3, inr returnitem)
        end
    end.
Proof.
  unfold heappop. rewrite last_snoc, length_app. cbn [length].
  replace (length heap + 1 - 1)%nat with (length heap) by lia.
  rewrite take_app_length. now destruct heap.
Qed.

(** A successful [heappop] hands out one entry and keeps all the others. *)
Lemma heappop_returns (heap q : list Item) (it : Item) :
  heappop heap = (q, inr it) -> it :: q ≡ₚ heap.
Proof.
  destruct heap as [|x heap _] using rev_ind; [discriminate|].
  rewrite heappop_snoc.
  destruct heap as [|returnitem rest].
  - intros [= <- <-]. reflexivity.
  - pose proof (siftup_perm (x :: rest) 0) as Hperm.
    destruct (siftup (x :: rest) 0) as [heap3 [ex|]]; [discriminate|].
    intros [= <- <-]. cbn [fst] in Hperm. rewrite Hperm.
    cbn. constructor. apply Permutation_cons_append.
Qed.

(** A [heappop] that raises has already removed the root: the queue keeps
    the other entries only. *)
Lemma heappop_raises (root : Item) (rest q : list Item) (ex : PyExn) :
  heappop (root :: rest) = (q, inl ex) -> q ≡ₚ rest.
Proof.
  destruct rest as [|x rest _] using rev_ind; [discriminate|].
  change (root :: rest ++ [x]) with ((root :: rest) ++ [x]).
  rewrite heappop_snoc.
  pose proof (siftup_perm (x :: rest) 0) as Hperm.
  destruct (siftup (x :: rest) 0) as [heap3 [ex'|]]; [|discriminate].
  intros [= <- <-]. cbn [fst] in Hperm. rewrite Hperm.
  apply Permutation_cons_append.
Qed.

Lemma replaced_root_ordered (root x : Item) (rest : list Item) :
  heap_ordered ((root :: rest) ++ [x]) ->
  ordered_but_around (x :: rest) 0.
Proof.
  intros Hord. split.
  - intros i a b Hi Hne Hnpar Ha Hb.
    destruct i as [|i]; [lia|].
    destruct (((S i - 1) `div` 2)%nat) as [|p] eqn:Hp; [lia|].
    cbn [lookup list_lookup] in Ha, Hb.
    apply (Hord (S i) a b); [lia | |].
    + cbn. apply lookup_app_l_Some. exact Ha.
    + rewrite Hp. cbn. apply lookup_app_l_Some. exact Hb.
  - intros c a g Hpos. lia.
Qed.

(** On an ordered heap with distinct priorities [heappop] returns the
    root, does not raise, and leaves an ordered heap. *)
Lemma heappop_ordered (heap : list Item) :
  heap_ordered heap ->
  distinct_priorities heap ->
  heap <> [] ->
  exists (it : Item) (q : list Item),
    heappop heap = (q, inr it)
    /\ heap !! 0%nat = Some it
    /\ heap_ordered q
    /\ distinct_priorities q.
Proof.
  intros Hord Hnd Hne.
  destruct heap as [|x heap _] using rev_ind; [congruence|].
  rewrite heappop_snoc.
  destruct heap as [|root rest].
  - exists x, []. repeat split.
    + intros i a b _ Ha. rewrite lookup_nil in Ha. discriminate.
    + constructor.
  - assert (Hnd' : distinct_priorities (x :: rest)).
    { unfold distinct_priorities in *.
      change (map fst ?l) with (fst <$> l) in *.
      rewrite <- Permutation_cons_append in Hnd.
      rewrite Permutation_swap in Hnd.
      now apply NoDup_cons_1_2 in Hnd. }
    destruct (siftup_restores (x :: rest)) as [Hret Hord'];
      [cbn; lia | assumption | eapply replaced_root_ordered; eassumption |].
    pose proof (siftup_perm (x :: rest) 0) as Hperm.
    destruct (siftup (x :: rest) 0) as [heap3 r].
    cbn [fst snd] in *. subst r.
    exists root, heap3. repeat split; try assumption.
    unfold distinct_priorities in *.
    change (map fst ?l) with (fst <$> l) in *. now rewrite Hperm.
Qed.

(** ** What an execution leaves alone *)

Lemma update_metrics_frame (task : LearningTask) (e : Engine) :
  let e' := fst (_update_performance_metrics task e) in
  learning_queue e' = learning_queue e
  /\ dataset_registry e' = dataset_registry e
  /\ epochs_per_task e' = epochs_per_task e
  /\ models_dir e' = models_dir e
  /\ error_log e' = error_log e.
Proof.
  unfold _update_performance_metrics. unfold_M.
  repeat case_match; repeat split.
Qed.

Lemma run_strategy_frame (env : Env) (task : LearningTask) (ds : Dataset)
    (e e1 : Engine) (r : PyExn + unit) :
  run_strategy env task ds e = (e1, r) ->
  learning_queue e1 = learning_queue e
  /\ dataset_registry e1 = dataset_registry e
  /\ epochs_per_task e1 = epochs_per_task e
  /\ models_dir e1 = models_dir e
  /\ error_log e1 = error_log e
  /\ performance_metrics e1 = performance_metrics e
  /\ human_intelligence_score e1 = human_intelligence_score e.
Proof.
  intros Hrun.
  destruct (run_strategy_cases env task ds e) as [[ex H]|[[a H]|[H _]]];
    rewrite H in Hrun; simplify_eq; repeat split.
Qed.

(** Executing a task never touches the queue, the dataset registry or the
    number of epochs, and the task object it hands back is the task it was
    given with a new status. *)
Lemma execute_frame :
  forall (env : Env) (task : LearningTask) (e : Engine),
    let r := _execute_learning_task env task e in
    learning_queue (fst r) = learning_queue e
    /\ dataset_registry (fst r) = dataset_registry e
    /\ epochs_per_task (fst r) = epochs_per_task e
    /\ (snd r = set_status "running" task
        \/ snd r = set_status "completed" task
        \/ snd r = set_status "failed" task).
Proof.
  intros env task e r. subst r.
  pose proof (execute_cases env task e) as Hcase.
  destruct (_execute_learning_task env task e) as [e' t'].
  cbn [fst snd] in *.
  inversion Hcase as [ | | | i e1 Hreg Hload Hrun Hnone
                       | i e1 mi ex Hreg Hload Hrun Hmi Hsave
                       | i e1 mi Hreg Hload Hrun Hmi Hsave ];
    subst; try (repeat split; auto; fail).
  - destruct (run_strategy_frame _ _ _ _ _ _ Hrun) as (Hq & Hd & Hn & _).
    repeat split; auto.
  - destruct (run_strategy_frame _ _ _ _ _ _ Hrun) as (Hq & Hd & Hn & _).
    destruct (update_metrics_frame task e1) as (Hq' & Hd' & Hn' & _).
    cbn [learning_queue dataset_registry epochs_per_task log_error].
    rewrite Hq', Hd', Hn'. repeat split; auto.
  - destruct (run_strategy_frame _ _ _ _ _ _ Hrun) as (Hq & Hd & Hn & _).
    destruct (update_metrics_frame task e1) as (Hq' & Hd' & Hn' & _).
    cbn [learning_queue dataset_registry epochs_per_task set_models_dir].
    rewrite Hq', Hd', Hn'. repeat split; auto.
Qed.

(** ** Priorities *)

Lemma add_learning_task_queue (e : Engine) name mode prio params seconds now_us :
  learning_queue (fst (add_learning_task name mode prio params seconds now_us e))
  = fst (heappush (learning_queue e)
           (prio, new_task name mode prio params seconds now_us)).
Proof. now rewrite add_learning_task_unfold. Qed.

(** A submission at a priority that no queued entry has never raises and
    keeps the queue an ordered heap with distinct priorities. *)
Theorem submission_at_new_priority :
  forall (e : Engine) name mode prio params seconds now_us,
    heap_ordered (learning_queue e) ->
    distinct_priorities (learning_queue e) ->
    prio ∉ map fst (learning_queue e) ->
    let r := add_learning_task name mode prio params seconds now_us e in
    snd r = inr tt
    /\ heap_ordered (learning_queue (fst r))
    /\ distinct_priorities (learning_queue (fst r)).
Proof.
  intros e name mode prio params seconds now_us Hord Hnd Hnew r. subst r.
  destruct (heappush_ordered (learning_queue e)
              (prio, new_task name mode prio params seconds now_us))
    as (Hret & Hord' & Hnd'); try assumption.
  rewrite add_learning_task_unfold. cbn [fst snd learning_queue set_queue].
  rewrite Hret. auto.
Qed.

Lemma submission_at_new_priority_witness :
  let e := run [Submit "rice_msc" SUPERVISED 3 None 100 100000000;
                Submit "mnist" SUPERVISED 1 None 100 100000007] init in
  snd (add_learning_task "cifar10" SUPERVISED 2 None 100 100000009 e) = inr tt.
Proof.
  intros e.
  apply (submission_at_new_priority e "cifar10" SUPERVISED 2 None 100 100000009).
  - intros i a b Hi Ha Hb.
    destruct i as [|[|i]]; [lia | | discriminate].
    vm_compute in Ha, Hb. injection Ha as <-. injection Hb as <-.
    vm_compute. reflexivity.
  - unfold distinct_priorities. apply (bool_decide_unpack _). vm_compute. exact I.
  - apply (bool_decide_unpack _). vm_compute. exact I.
Defined.

Lemma worker_pops (env : Env) (e : Engine) (it : Item) (q : list Item) :
  learning_queue e <> [] ->
  heappop (learning_queue e) = (q, inr it) ->
  _learning_worker env e
  = (fst (_execute_learning_task env (snd it) (set_queue q e)),
     Some (snd (_execute_learning_task env (snd it) (set_queue q e)))).
Proof.
  intros Hne Hpop. unfold _learning_worker.
  destruct (learning_queue e) as [|x l] eqn:Hqe; [congruence|].
  rewrite Hpop. destruct it as [p task]. cbn [snd].
  now destruct (_execute_learning_task env task (set_queue q e)).
Qed.

(** On an ordered queue with distinct priorities the worker takes the
    entry of smallest priority, executes its task, and leaves an ordered
    queue that holds exactly the other entries. *)
Theorem worker_takes_smallest_priority :
  forall (env : Env) (e : Engine),
    heap_ordered (learning_queue e) ->
    distinct_priorities (learning_queue e) ->
    learning_queue e <> [] ->
    exists (it : Item) (q : list Item),
      it :: q ≡ₚ learning_queue e
      /\ (forall other, other ∈ learning_queue e -> (fst it <= fst other)%Z)
      /\ _learning_worker env e
         = (fst (_execute_learning_task env (snd it) (set_queue q e)),
            Some (snd (_execute_learning_task env (snd it) (set_queue q e))))
      /\ learning_queue (fst (_learning_worker env e)) = q
      /\ heap_ordered q
      /\ distinct_priorities q.
Proof.
  intros env e Hord Hnd Hne.
  destruct (heappop_ordered _ Hord Hnd Hne) as (it & q & Hpop & Hroot & Hq & Hdq).
  exists it, q.
  pose proof (worker_pops env e it q Hne Hpop) as Hworker.
  split; [now apply heappop_returns|].
  split.
  { intros other Hin.
    destruct (proj1 (list_elem_of_lookup _ _) Hin) as [i Hi].
    exact (heap_root_minimal _ it Hord Hroot i other Hi). }
  split; [assumption|].
  split; [|now split].
  rewrite Hworker. cbn [fst].
  now destruct (execute_frame env (snd it) (set_queue q e)) as [-> _].
Qed.

Lemma worker_takes_smallest_priority_witness :
  let e := run [Submit "rice_msc" SUPERVISED 3 None 100 100000000;
                Submit "mnist" SUPERVISED 1 None 100 100000007] init in
  exists (it : Item) (q : list Item),
    it :: q ≡ₚ learning_queue e
    /\ (forall other, other ∈ learning_queue e -> (fst it <= fst other)%Z)
    /\ _learning_worker quiet_env e
       = (fst (_execute_learning_task quiet_env (snd it) (set_queue q e)),
          Some (snd (_execute_learning_task quiet_env (snd it) (set_queue q e))))
    /\ learning_queue (fst (_learning_worker quiet_env e)) = q
    /\ heap_ordered q
    /\ distinct_priorities q.
Proof.
  intros e.
  apply (worker_takes_smallest_priority quiet_env e).
  - intros i a b Hi Ha Hb.
    destruct i as [|[|i]]; [lia | | discriminate].
    vm_compute in Ha, Hb. injection Ha as <-. injection Hb as <-.
    vm_compute. reflexivity.
  - unfold distinct_priorities. apply (bool_decide_unpack _). vm_compute. exact I.
  - vm_compute. discriminate.
Defined.

Lemma submissions_queue (subs : list Submission) :
  forall e : Engine,
    heap_ordered (learning_queue e) ->
    distinct_priorities (learning_queue e) ->
    NoDup (map sub_priority subs) ->
    (forall s, s ∈ subs -> sub_priority s ∉ map fst (learning_queue e)) ->
    heap_ordered (learning_queue (run (map submit subs) e))
    /\ distinct_priorities (learning_queue (run (map submit subs) e))
    /\ learning_queue (run (map submit subs) e)
       ≡ₚ learning_queue e
          ++ map (fun s => (sub_priority s, submitted_task s)) subs.
Proof.
  induction subs as [|s subs IH]; intros e Hord Hnd Hsubs Hfresh.
  - cbn. rewrite app_nil_r. auto.
  - cbn [map run fold_left step submit].
    destruct (heappush_ordered (learning_queue e)
                (sub_priority s, submitted_task s))
      as (_ & Hord' & Hnd'); try assumption.
    { apply Hfresh. left. }
    pose proof (heappush_perm (learning_queue e)
                  (sub_priority s, submitted_task s)) as Hperm.
    unfold submitted_task in Hord', Hnd', Hperm.
    rewrite <- add_learning_task_queue in Hord', Hnd', Hperm.
    apply NoDup_cons in Hsubs as [Hs Hsubs].
    destruct (IH _ Hord' Hnd' Hsubs) as (Hord'' & Hnd'' & Hperm'').
    + intros s' Hs'.
      change (map fst ?l) with (fst <$> l). rewrite Hperm.
      rewrite fmap_app. cbn. intros Hin.
      apply elem_of_app in Hin as [Hin|Hin].
      * eapply Hfresh; [right; eassumption | exact Hin].
      * apply list_elem_of_singleton in Hin.
        apply Hs. rewrite <- Hin.
        change (map sub_priority subs) with (sub_priority <$> subs).
        now apply list_elem_of_fmap_2.
    + split; [exact Hord''|]. split; [exact Hnd''|].
      unfold run in *. rewrite Hperm'', Hperm.
      now rewrite <- app_assoc.
Qed.

(** Draining an ordered queue with distinct priorities: the worker takes
    the entries in increasing priority, each once. *)
Lemma worker_iterations_drain (envs : list Env) :
  forall e : Engine,
    heap_ordered (learning_queue e) ->
    distinct_priorities (learning_queue e) ->
    length envs = length (learning_queue e) ->
    exists popped : list Item,
      popped ≡ₚ learning_queue e
      /\ StronglySorted Z.lt (map fst popped)
      /\ map (set_status "pending") (snd (worker_iterations envs e))
         = map (fun it => set_status "pending" (snd it)) popped
      /\ learning_queue (fst (worker_iterations envs e)) = [].
Proof.
  induction envs as [|env envs IH]; intros e Hord Hnd Hlen.
  - exists []. cbn in *.
    destruct (learning_queue e); [|discriminate].
    repeat split; constructor.
  - assert (Hne : learning_queue e <> [])
      by (destruct (learning_queue e); [discriminate | congruence]).
    destruct (heappop_ordered _ Hord Hnd Hne)
      as (it & q & Hpop & Hroot & Hq & Hdq).
    pose proof (heappop_returns _ _ _ Hpop) as Hperm.
    pose proof (worker_pops env e it q Hne Hpop) as Hworker.
    destruct (execute_frame env (snd it) (set_queue q e))
      as (Hqueue & _ & _ & Hstatus).
    cbn [worker_iterations]. rewrite Hworker.
    set (e1 := fst (_execute_learning_task env (snd it) (set_queue q e))) in *.
    set (t1 := snd (_execute_learning_task env (snd it) (set_queue q e))) in *.
    cbn [learning_queue set_queue] in Hqueue.
    destruct (IH e1) as (popped & Hpopped & Hsorted & Htasks & Hempty).
    { now rewrite Hqueue. }
    { now rewrite Hqueue. }
    { rewrite Hqueue. apply Permutation_length in Hperm. cbn in *. lia. }
    destruct (worker_iterations envs e1) as [e2 later].
    cbn [fst snd] in *.
    exists (it :: popped). split; [|split; [|split]].
    + rewrite Hpopped, Hqueue. exact Hperm.
    + cbn [map]. constructor; [assumption|].
      apply Forall_forall. intros p Hp.
      change (map fst popped) with (fst <$> popped) in Hp.
      apply list_elem_of_fmap in Hp as (other & -> & Hother).
      rewrite Hpopped, Hqueue in Hother.
      assert (Hin : other ∈ learning_queue e)
        by (rewrite <- Hperm; now right).
      destruct (proj1 (list_elem_of_lookup _ _) Hin) as [i Hi].
      pose proof (heap_root_minimal _ it Hord Hroot i other Hi) as Hle.
      assert (Hneq : fst it <> fst other).
      { unfold distinct_priorities in Hnd.
        change (map fst ?l) with (fst <$> l) in Hnd.
        rewrite <- Hperm in Hnd. cbn in Hnd.
        apply NoDup_cons in Hnd as [Hnotin _].
        intros Heq. apply Hnotin. rewrite Heq.
        now apply list_elem_of_fmap_2. }
      lia.
    + cbn [map]. f_equal; [|exact Htasks].
      destruct Hstatus as [-> | [-> | ->]]; reflexivity.
    + exact Hempty.
Qed.

(** Tasks submitted to an empty queue at pairwise distinct priorities are
    executed by the worker one after the other in increasing priority:
    every submitted task is executed exactly once and the queue ends
    empty. *)
Theorem tasks_run_in_priority_order :
  forall (subs : list Submission) (envs : list Env) (e : Engine),
    learning_queue e = [] ->
    NoDup (map sub_priority subs) ->
    length envs = length subs ->
    let r := worker_iterations envs (run (map submit subs) e) in
    map (set_status "pending") (snd r) ≡ₚ map submitted_task subs
    /\ StronglySorted Z.lt (map priority (snd r))
    /\ learning_queue (fst r) = [].
Proof.
  intros subs envs e Hempty Hnd Hlen r. subst r.
  destruct (submissions_queue subs e) as (Hord & Hdist & Hperm).
  { rewrite Hempty. intros i a b _ Ha. rewrite lookup_nil in Ha. discriminate. }
  { rewrite Hempty. constructor. }
  { assumption. }
  { rewrite Hempty. intros s _ Hin. now apply not_elem_of_nil in Hin. }
  rewrite Hempty in Hperm. cbn [app] in Hperm.
  destruct (worker_iterations_drain envs (run (map submit subs) e))
    as (popped & Hpopped & Hsorted & Htasks & Hdone); try assumption.
  { apply Permutation_length in Hperm. rewrite Hperm, length_map. exact Hlen. }
  rewrite Hperm in Hpopped.
  split; [|split; [|exact Hdone]].
  - rewrite Htasks.
    change (map ?f ?l) with (f <$> l). rewrite Hpopped.
    rewrite <- list_fmap_compose. reflexivity.
  - replace (map priority (snd (worker_iterations envs (run (map submit subs) e))))
      with (map fst popped); [exact Hsorted|].
    transitivity (map priority
                    (map (set_status "pending")
                       (snd (worker_iterations envs (run (map submit subs) e))))).
    + rewrite Htasks, map_map. apply map_ext_in. intros it Hin.
      apply list_elem_of_In in Hin. rewrite Hpopped in Hin.
      change (map ?f ?l) with (f <$> l) in Hin.
      apply list_elem_of_fmap in Hin as (s & -> & _). reflexivity.
    + rewrite map_map. reflexivity.
Qed.

Lemma tasks_run_in_priority_order_witness :
  let subs := [mkSubmission "rice_msc" SUPERVISED 3 None 100 100000000;
               mkSubmission "mnist" SUPERVISED 1 None 100 100000007;
               mkSubmission "cifar10" UNSUPERVISED 2 None 100 100000009] in
  let r := worker_iterations [quiet_env; accurate_env; quiet_env]
             (run (map submit subs) init) in
  map (set_status "pending") (snd r) ≡ₚ map submitted_task subs
  /\ StronglySorted Z.lt (map priority (snd r))
  /\ learning_queue (fst r) = [].
Proof.
  intros subs.
  apply (tasks_run_in_priority_order subs [quiet_env; accurate_env; quiet_env] init).
  - reflexivity.
  - apply (bool_decide_unpack _). vm_compute. exact I.
  - reflexivity.
Defined.

Example three_tasks_by_priority :
  map dataset_name
      (snd (worker_iterations [quiet_env; accurate_env; quiet_env]
              (run [Submit "rice_msc" SUPERVISED 3 None 100 100000000;
                    Submit "mnist" SUPERVISED 1 None 100 100000007;
                    Submit "cifar10" UNSUPERVISED 2 None 100 100000009] init)))
  = ["mnist"; "cifar10"; "rice_msc"].
Proof. reflexivity. Qed.

(** ** A raising [get] *)

Lemma siftup_loop_outcome (fuel : nat) :
  forall (heap : list Item) (pos : nat),
    (pos < length heap)%nat ->
    (exists leaf, snd (siftup_loop fuel heap pos) = inr leaf
                  /\ (leaf < length heap)%nat)
    \/ snd (siftup_loop fuel heap pos) = inl TypeError.
Proof.
  induction fuel as [|fuel IH]; intros heap pos Hlen; cbn [siftup_loop].
  { left. exists pos. now split. }
  cbv zeta.
  destruct (Nat.ltb_spec pos (length heap `div` 2)) as [Hinner|Hleaf].
  2:{ left. exists pos. now split. }
  assert (Hchild : (2 * pos + 1 < length heap)%nat) by div2_lia.
  assert (Hnext : forall c, (c < length heap)%nat ->
            (exists leaf, snd (siftup_loop fuel (swap heap c pos) c) = inr leaf
                          /\ (leaf < length heap)%nat)
            \/ snd (siftup_loop fuel (swap heap c pos) c) = inl TypeError).
  { intros c Hc.
    destruct (IH (swap heap c pos) c) as [(leaf & Hret & Hleaf)|Hex];
      [now rewrite swap_length | left | now right].
    exists leaf. rewrite swap_length in Hleaf. now split. }
  destruct (Nat.ltb_spec (2 * pos + 1 + 1) (length heap)) as [Htwo|Hone].
  - destruct (lookup_lt_is_Some_2 heap (2 * pos + 1) Hchild) as [a ->].
    destruct (lookup_lt_is_Some_2 heap (2 * pos + 1 + 1) Htwo) as [b ->].
    destruct (item_lt a b) as [ex|[|]] eqn:Hcmp.
    + right. cbn [snd]. f_equal. eapply item_lt_exn; eassumption.
    + now apply Hnext.
    + now apply Hnext.
  - now apply Hnext.
Qed.

Lemma siftup_outcome (heap : list Item) :
  (0 < length heap)%nat ->
  snd (siftup heap 0) = None \/ snd (siftup heap 0) = Some TypeError.
Proof.
  intros Hlen. unfold siftup.
  pose proof (siftup_loop_perm (length heap) heap 0) as Hperm.
  destruct (siftup_loop_outcome (length heap) heap 0 Hlen)
    as [(leaf & Hret & Hleaf)|Hex];
    destruct (siftup_loop (length heap) heap 0) as [heap' r];
    cbn [fst snd] in *; subst r; [|now right].
  apply siftdown_outcome. now rewrite Hperm.
Qed.

Lemma heappop_exn (heap q : list Item) (ex : PyExn) :
  heap <> [] -> heappop heap = (q, inl ex) -> ex = TypeError.
Proof.
  destruct heap as [|x heap _] using rev_ind; [congruence|].
  intros _. rewrite heappop_snoc.
  destruct heap as [|root rest]; [discriminate|].
  destruct (siftup_outcome (x :: rest)) as [Hret|Hret]; [cbn; lia | |];
    destruct (siftup (x :: rest) 0) as [heap3 r]; cbn [snd] in Hret; subst r;
    congruence.
Qed.

(** When [get] raises in the worker, the entry at the head of the queue is
    gone: the exception is the [TypeError] of a tie between two other
    entries, nothing is executed, the worker logs the error, and the queue
    keeps exactly the entries behind the head. *)
Theorem raising_get_loses_the_head :
  forall (env : Env) (e : Engine) (head : Item) (rest q : list Item)
         (ex : PyExn),
    learning_queue e = head :: rest ->
    heappop (learning_queue e) = (q, inl ex) ->
    ex = TypeError
    /\ q ≡ₚ rest
    /\ _learning_worker env e
       = (log_error (WorkerError TypeError) (set_queue q e), None).
Proof.
  intros env e head rest q ex Hq Hpop.
  assert (Hex : ex = TypeError).
  { eapply heappop_exn; [|eassumption]. rewrite Hq. discriminate. }
  subst ex. split; [reflexivity|]. split.
  - rewrite Hq in Hpop. eapply heappop_raises; eassumption.
  - unfold _learning_worker. rewrite Hq in *. now rewrite Hpop.
Qed.

Lemma raising_get_loses_the_head_witness :
  let e := run [Submit "rice_msc" SUPERVISED 1 None 100 100000000;
                Submit "mnist" SUPERVISED 2 None 100 100000007;
                Submit "cifar10" SUPERVISED 2 None 100 100000009] init in
  exists q,
    map (fun it => dataset_name (snd it)) (learning_queue e)
      = ["rice_msc"; "mnist"; "cifar10"]
    /\ q ≡ₚ [(2%Z, new_task "mnist" SUPERVISED 2 None 100 100000007);
             (2%Z, new_task "cifar10" SUPERVISED 2 None 100 100000009)]
    /\ _learning_worker quiet_env e
       = (log_error (WorkerError TypeError) (set_queue q e), None).
Proof.
  intros e.
  destruct (raising_get_loses_the_head quiet_env e
              (1%Z, new_task "rice_msc" SUPERVISED 1 None 100 100000000)
              [(2%Z, new_task "mnist" SUPERVISED 2 None 100 100000007);
               (2%Z, new_task "cifar10" SUPERVISED 2 None 100 100000009)]
              [(2%Z, new_task "mnist" SUPERVISED 2 None 100 100000007);
               (2%Z, new_task "cifar10" SUPERVISED 2 None 100 100000009)]
              TypeError)
    as (_ & Hperm & Hworker); [reflexivity | reflexivity |].
  eexists. split; [reflexivity|]. split; [exact Hperm | exact Hworker].
Defined.

(** ** The registry, the metrics and the files *)

Lemma dict_get_set_ne {V : Type} (k k' : string) (v : V) (d : dict V) :
  k' <> k -> dict_get k' (dict_set k v d) = dict_get k' d.
Proof.
  intros Hne. induction d as [|[k0 v0] d IH]; cbn.
  - destruct (String.eqb_spec k' k); [contradiction | reflexivity].
  - destruct (String.eqb_spec k k0) as [->|Hk]; cbn.
    + destruct (String.eqb_spec k' k0); [contradiction | reflexivity].
    + now rewrite IH.
Qed.

Lemma dict_keys_set_present {V : Type} (k : string) (v v' : V) (d : dict V) :
  dict_get k d = Some v -> dict_keys (dict_set k v' d) = dict_keys d.
Proof.
  unfold dict_keys.
  induction d as [|[k0 v0] d IH]; cbn; [discriminate|].
  destruct (String.eqb_spec k k0) as [->|Hk]; cbn; [reflexivity|].
  intros H. now rewrite IH.
Qed.

Lemma dict_keys_set_agree {V W : Type} (k : string) (v : V) (w : W)
    (d1 : dict V) :
  forall d2 : dict W,
    dict_keys d1 = dict_keys d2 ->
    dict_keys (dict_set k v d1) = dict_keys (dict_set k w d2).
Proof.
  unfold dict_keys.
  induction d1 as [|[k1 v1] d1 IH]; intros [|[k2 w2] d2]; cbn;
    try discriminate; [reflexivity|].
  intros [= <- Hkeys].
  destruct (String.eqb k k1); cbn; [now rewrite Hkeys|].
  now rewrite (IH d2 Hkeys).
Qed.

Lemma dict_get_keys {V W : Type} (k : string) (d1 : dict V) :
  forall (d2 : dict W) (v : V),
    dict_keys d1 = dict_keys d2 ->
    dict_get k d1 = Some v -> exists w, dict_get k d2 = Some w.
Proof.
  unfold dict_keys.
  induction d1 as [|[k1 v1] d1 IH]; intros [|[k2 w2] d2] v; cbn;
    try discriminate.
  intros [= <- Hkeys].
  destruct (String.eqb k k1); [eauto|]. now apply IH.
Qed.

Lemma update_metrics_metrics (task : LearningTask) (e : Engine) (mi : ModelInfo) :
  dict_get (task_id task) (model_registry e) = Some mi ->
  performance_metrics (fst (_update_performance_metrics task e))
  = dict_set (task_id task)
      (mkMetric (default (Fin 0) (accuracy_of mi)) (dataset_name task)
                (mode_value (learning_mode task)) (mi_created_at mi)
                (default (Fin 0)
                   (fmap (fun a => fmul a (Fin (1 # 10))) (accuracy_of mi))))
      (performance_metrics e).
Proof.
  intros H. unfold _update_performance_metrics. unfold_M. rewrite H.
  now destruct (accuracy_of mi).
Qed.

(** C5, as the specification has it, fails: when [_save_model] raises, the
    task ends "failed" although the strategy has stored its model-registry
    entry and the metrics entry has been written. *)
Lemma failed_task_keeps_its_records :
  let task := new_task "rice_msc" SUPERVISED 1 None 100 100000000 in
  let r := _execute_learning_task (with_save_error OSError quiet_env) task init in
  status (snd r) = "failed"
  /\ dict_in (task_id task) (model_registry (fst r)) = true
  /\ dict_in (task_id task) (performance_metrics (fst r)) = true
  /\ dict_in (task_id task) (model_registry init) = false
  /\ dict_in (task_id task) (performance_metrics init) = false.
Proof. vm_compute. repeat split. Qed.

(** C5 (amended): a task ends "failed" in three ways only, each with its
    own effect.  When loading its dataset raises, or when its strategy
    raises, the engine is left as it was but for the logged error: the
    model registry, the performance metrics, the score and the persisted
    files are unchanged.  When [_save_model] raises, the strategy has
    returned and [_update_performance_metrics] has run: the registry entry
    of the task and its metrics entry exist in the state that is left.  A
    task whose dataset is not registered does not end "failed". *)
Theorem failed_task_records :
  forall (env : Env) (task : LearningTask) (e : Engine),
    let r := _execute_learning_task env task e in
    let failure ex :=
      (log_error (TaskFailedError (task_id task) ex) e,
       set_status "failed" task) in
    (status (snd r) = "failed" ->
     exists i, dict_get (dataset_name task) (dataset_registry e) = Some i)
    /\ forall i : DatasetInfo,
         dict_get (dataset_name task) (dataset_registry e) = Some i ->
         let s := run_strategy env (set_status "running" task)
                    (mkDataset (y_test env) i) e in
         (forall ex, load_error env = Some ex -> r = failure ex)
         /\ (forall ex,
               load_error env = None -> snd s = inl ex -> r = failure ex)
         /\ (forall ex mi,
               load_error env = None -> snd s = inr tt ->
               dict_get (task_id task) (model_registry (fst s)) = Some mi ->
               save_error env = Some ex ->
               snd r = set_status "failed" task
               /\ dict_get (task_id task) (model_registry (fst r)) = Some mi
               /\ dict_get (task_id task) (performance_metrics (fst r))
                  = Some (mkMetric
                            (default (Fin 0) (accuracy_of mi))
                            (dataset_name task)
                            (mode_value (learning_mode task))
                            (mi_created_at mi)
                            (default (Fin 0)
                               (fmap (fun a => fmul a (Fin (1 # 10)))
                                     (accuracy_of mi)))))
         /\ (status (snd r) = "failed" ->
             (exists ex, load_error env = Some ex)
             \/ (load_error env = None /\ exists ex, snd s = inl ex)
             \/ (load_error env = None /\ snd s = inr tt
                 /\ exists ex mi,
                      dict_get (task_id task) (model_registry (fst s))
                      = Some mi
                      /\ save_error env = Some ex)).
Proof.
  intros env task e r failure. subst r failure.
  pose proof (execute_cases env task e) as Hcase.
  destruct (_execute_learning_task env task e) as [e' t'].
  cbn [fst snd] in *.
  split.
  { intros Hfailed.
    inversion Hcase; subst; cbn [status set_status] in Hfailed;
      try discriminate; eauto. }
  intros i Hreg.
  set (s := run_strategy env (set_status "running" task)
              (mkDataset (y_test env) i) e).
  inversion Hcase as [ Hreg' | i' ex' Hreg' Hload' | i' ex' Hreg' Hload' Hrun'
                     | i' e1 Hreg' Hload' Hrun' Hnone
                     | i' e1 mi' ex' Hreg' Hload' Hrun' Hmi' Hsave'
                     | i' e1 mi' Hreg' Hload' Hrun' Hmi' Hsave' ];
    rewrite Hreg in Hreg'; try discriminate;
    injection Hreg' as <-; subst e' t'; try fold s in Hrun';
    try (rewrite Hrun' in *; cbn [fst snd] in * ).
  - (* loading raised *)
    repeat split; try congruence.
    intros _. left. eauto.
  - (* the strategy raised *)
    repeat split; try congruence.
    intros _. right. left. eauto.
  - (* nothing recorded *)
    repeat split; try congruence; cbn [status set_status]; discriminate.
  - (* saving raised *)
    split; [congruence|]. split; [congruence|]. split.
    + intros ex mi _ _ Hmi Hsave.
      rewrite Hmi in Hmi'. injection Hmi' as <-.
      cbn [model_registry performance_metrics log_error].
      rewrite update_metrics_registry,
              (update_metrics_metrics task e1 mi Hmi), dict_get_set.
      repeat split; assumption.
    + intros _. right. right. eauto 10.
  - (* saved *)
    repeat split; try congruence; cbn [status set_status]; discriminate.
Qed.

Lemma failed_task_records_witness :
  let task := new_task "rice_msc" SUPERVISED 1 None 100 100000000 in
  let r := _execute_learning_task (with_save_error OSError quiet_env)
             task init in
  snd r = set_status "failed" task
  /\ dict_get (task_id task) (model_registry (fst r))
     = Some (mkModelInfo (SupervisedModel no_params (Fin (2 # 4)))
                         "rice_msc" 777)
  /\ dict_get (task_id task) (performance_metrics (fst r))
     = Some (mkMetric (Fin (2 # 4)) "rice_msc" "supervised" 777
                      (fmul (Fin (2 # 4)) (Fin (1 # 10)))).
Proof.
  intros task r.
  destruct (failed_task_records (with_save_error OSError quiet_env) task init)
    as [_ H].
  destruct (H (mkInfo "classification" 106 5 75000 SUPERVISED) eq_refl)
    as (_ & _ & Hsave & _).
  exact (Hsave OSError
           (mkModelInfo (SupervisedModel no_params (Fin (2 # 4)))
                        "rice_msc" 777)
           eq_refl eq_refl eq_refl eq_refl).
Defined.

(** The keys of the registry and of the metrics stay equal across an
    execution. *)
Lemma execute_keys (env : Env) (task : LearningTask) (e : Engine) :
  dict_keys (model_registry e) = dict_keys (performance_metrics e) ->
  dict_keys (model_registry (fst (_execute_learning_task env task e)))
  = dict_keys (performance_metrics (fst (_execute_learning_task env task e))).
Proof.
  intros Hkeys.
  pose proof (execute_cases env task e) as Hcase.
  destruct (_execute_learning_task env task e) as [e' t'].
  cbn [fst snd] in *.
  assert (Hupdated : forall e1 mi,
            (e1 = e \/ exists a, e1 = stored (set_status "running" task) a env e) ->
            dict_get (task_id task) (model_registry e1) = Some mi ->
            dict_keys (model_registry e1)
            = dict_keys (performance_metrics
                           (fst (_update_performance_metrics task e1)))).
  { intros e1 mi Hshape Hmi.
    rewrite (update_metrics_metrics task e1 mi Hmi).
    destruct Hshape as [->|[a ->]].
    - destruct (dict_get_keys _ _ _ _ Hkeys Hmi) as [m Hm].
      now rewrite (dict_keys_set_present _ _ _ _ Hm).
    - cbn [stored model_registry performance_metrics set_model_registry
           task_id set_status].
      now apply dict_keys_set_agree. }
  inversion Hcase as [ | | | i e1 Hreg Hload Hrun Hnone
                       | i e1 mi ex Hreg Hload Hrun Hmi Hsave
                       | i e1 mi Hreg Hload Hrun Hmi Hsave ];
    subst; cbn [model_registry performance_metrics log_error set_models_dir];
    try assumption.
  - destruct (run_strategy_registry _ _ _ _ _ Hrun) as [->|[a ->]];
      [assumption|].
    cbn [stored model_registry set_model_registry task_id set_status] in Hnone.
    now rewrite dict_get_set in Hnone.
  - rewrite update_metrics_registry.
    eapply Hupdated; [eapply run_strategy_registry|]; eassumption.
  - rewrite update_metrics_registry.
    eapply Hupdated; [eapply run_strategy_registry|]; eassumption.
Qed.

Lemma step_keys (e : Engine) (c : Call) :
  dict_keys (model_registry e) = dict_keys (performance_metrics e) ->
  dict_keys (model_registry (step e c))
  = dict_keys (performance_metrics (step e c)).
Proof.
  intros Hkeys.
  assert (Hqueue : forall e', only_queue_changed e e' ->
            dict_keys (model_registry e') = dict_keys (performance_metrics e')).
  { intros e' ->. exact Hkeys. }
  destruct c as [name mode prio params seconds now_us | env | clock];
    cbn [step].
  - apply Hqueue, add_learning_task_only_queue.
  - unfold _learning_worker.
    destruct (learning_queue e) as [|it q] eqn:Hq; [exact Hkeys|].
    rewrite <- Hq.
    destruct (heappop (learning_queue e)) as [q' [ex|[p task]]];
      [exact Hkeys|].
    pose proof (execute_keys env task (set_queue q' e) Hkeys) as Hex.
    now destruct (_execute_learning_task env task (set_queue q' e)).
  - apply Hqueue, auto_schedule_only_queue.
Qed.

(** At every moment the model registry and the performance metrics hold
    the same task ids in the same order, so that the [active_models] count
    of the status report is the number of metrics entries. *)
Theorem registry_and_metrics_share_keys :
  forall calls : list Call,
    let e := run calls init in
    dict_keys (model_registry e) = dict_keys (performance_metrics e)
    /\ active_models (get_learning_status e)
       = length (ls_performance_metrics (get_learning_status e)).
Proof.
  intros calls e.
  assert (Hkeys : dict_keys (model_registry e)
                  = dict_keys (performance_metrics e)).
  { subst e. unfold run.
    generalize init (eq_refl : dict_keys (model_registry init)
                               = dict_keys (performance_metrics init)).
    induction calls as [|c calls IH]; intros e0 H0; cbn; [exact H0|].
    apply IH, step_keys, H0. }
  split; [exact Hkeys|].
  cbn [get_learning_status active_models ls_performance_metrics].
  apply (f_equal length) in Hkeys. unfold dict_keys in Hkeys.
  now rewrite !length_map in Hkeys.
Qed.

Lemma execute_mirror (env : Env) (task : LearningTask) (e : Engine) :
  metrics_mirror_registry e ->
  metrics_mirror_registry (fst (_execute_learning_task env task e)).
Proof.
  intros Hinv.
  pose proof (execute_cases env task e) as Hcase.
  destruct (_execute_learning_task env task e) as [e' t'].
  cbn [fst snd] in *.
  assert (Hupdated : forall e1 mi,
            (e1 = e \/ exists a, e1 = stored (set_status "running" task) a env e) ->
            dict_get (task_id task) (model_registry e1) = Some mi ->
            forall id m,
              dict_get id (performance_metrics
                             (fst (_update_performance_metrics task e1)))
                = Some m ->
              exists mi', dict_get id (model_registry e1) = Some mi'
                          /\ mirrors m mi').
  { intros e1 mi Hshape Hmi id m.
    rewrite (update_metrics_metrics task e1 mi Hmi).
    destruct (String.eqb_spec id (task_id task)) as [->|Hne].
    - rewrite dict_get_set. intros [= <-]. exists mi.
      split; [assumption|]. now repeat split.
    - rewrite dict_get_set_ne by assumption.
      destruct Hshape as [->|[a ->]]; [apply Hinv|].
      cbn [stored model_registry performance_metrics set_model_registry
           task_id set_status].
      rewrite dict_get_set_ne by assumption. apply Hinv. }
  inversion Hcase as [ | | | i e1 Hreg Hload Hrun Hnone
                       | i e1 mi ex Hreg Hload Hrun Hmi Hsave
                       | i e1 mi Hreg Hload Hrun Hmi Hsave ];
    subst; try exact Hinv.
  - destruct (run_strategy_registry _ _ _ _ _ Hrun) as [->|[a ->]];
      [exact Hinv|].
    cbn [stored model_registry set_model_registry task_id set_status] in Hnone.
    now rewrite dict_get_set in Hnone.
  - intros id m. cbn [model_registry performance_metrics log_error].
    rewrite update_metrics_registry.
    eapply Hupdated; [eapply run_strategy_registry|]; eassumption.
  - intros id m. cbn [model_registry performance_metrics set_models_dir].
    rewrite update_metrics_registry.
    eapply Hupdated; [eapply run_strategy_registry|]; eassumption.
Qed.

(** Every metrics entry is derived from the registry entry of the same
    task id as the registry holds it: the same creation time, its accuracy
    (0.0 for an artifact without accuracy) and a tenth of that accuracy as
    the contribution.  This holds after any sequence of calls. *)
Theorem metrics_follow_the_registry :
  forall calls : list Call, metrics_mirror_registry (run calls init).
Proof.
  intros calls. unfold run.
  assert (Hinit : metrics_mirror_registry init) by (intros id m; discriminate).
  revert Hinit. generalize init.
  induction calls as [|c calls IH]; intros e He; cbn; [exact He|].
  apply IH.
  destruct c as [name mode prio params seconds now_us | env | clock];
    cbn [step].
  - now rewrite (add_learning_task_only_queue e name mode prio params
                   seconds now_us).
  - unfold _learning_worker.
    destruct (learning_queue e) as [|it q] eqn:Hq; [exact He|].
    rewrite <- Hq.
    destruct (heappop (learning_queue e)) as [q' [ex|[p task]]];
      [exact He|].
    pose proof (execute_mirror env task (set_queue q' e) He) as Hex.
    now destruct (_execute_learning_task env task (set_queue q' e)).
  - now rewrite (auto_schedule_only_queue clock e).
Qed.

(** Distinct paths: the file name of a model determines the task id. *)
Lemma append_cancel_r (t : string) :
  forall s1 s2 : string, s1 +:+ t = s2 +:+ t -> s1 = s2.
Proof.
  assert (Hlen : forall s, String.length (s +:+ t)
                           = (String.length s + String.length t)%nat).
  { induction s as [|c s IH]; [reflexivity|]. simpl. f_equal. exact IH. }
  induction s1 as [|c1 s1 IH]; intros [|c2 s2] H.
  - reflexivity.
  - apply (f_equal String.length) in H.
    rewrite (Hlen ""), (Hlen (String c2 s2)) in H. simpl in H. lia.
  - apply (f_equal String.length) in H.
    rewrite (Hlen ""), (Hlen (String c1 s1)) in H. simpl in H. lia.
  - change (String c1 (s1 +:+ t) = String c2 (s2 +:+ t)) in H.
    injection H as -> H. f_equal. now apply IH.
Qed.

(** When a task ends "completed", the file of its id holds exactly the
    registry entry of that id, and the files of different ids are
    different files. *)
Theorem completed_task_is_persisted :
  forall (env : Env) (task : LearningTask) (e : Engine) (mi : ModelInfo),
    status (snd (_execute_learning_task env task e)) = "completed" ->
    dict_get (task_id task)
      (model_registry (fst (_execute_learning_task env task e))) = Some mi ->
    dict_get (model_path (task_id task))
      (models_dir (fst (_execute_learning_task env task e))) = Some mi
    /\ forall id' : string,
         model_path id' = model_path (task_id task) -> id' = task_id task.
Proof.
  intros env task e mi Hdone Hmi. split.
  - pose proof (execute_cases env task e) as Hcase.
    destruct (_execute_learning_task env task e) as [e' t'].
    cbn [fst snd] in *.
    inversion Hcase as [ | | | i e1 Hreg Hload Hrun Hnone
                         | i e1 mi' ex Hreg Hload Hrun Hmi' Hsave
                         | i e1 mi' Hreg Hload Hrun Hmi' Hsave ];
      subst; cbn [status set_status] in Hdone; try discriminate.
    + congruence.
    + cbn [model_registry models_dir set_models_dir] in *.
      rewrite update_metrics_registry in Hmi.
      rewrite dict_get_set. congruence.
  - intros id' Hpath. unfold model_path in Hpath.
    apply String.app_inj in Hpath. now apply append_cancel_r in Hpath.
Qed.

Lemma completed_task_is_persisted_witness :
  let task := new_task "rice_msc" SUPERVISED 1 None 100 100000000 in
  let r := _execute_learning_task quiet_env task init in
  dict_get "models/rice_msc_100.pkl" (models_dir (fst r))
  = Some (mkModelInfo (SupervisedModel no_params (Fin (2 # 4))) "rice_msc" 777).
Proof.
  intros task r.
  apply (completed_task_is_persisted quiet_env task init
           (mkModelInfo (SupervisedModel no_params (Fin (2 # 4))) "rice_msc" 777));
    reflexivity.
Defined.

(** ** The outcomes of an execution *)

(** An execution ends in exactly one of three ways, told by the
    registration of the dataset and by the status: "running" with the two
    load errors logged, if and only if the dataset is not registered;
    "failed" with one error logged; "completed" with nothing logged.  The
    status is never "pending" again, and the other fields of the task are
    untouched. *)
Theorem execution_outcomes :
  forall (env : Env) (task : LearningTask) (e : Engine),
    let r := _execute_learning_task env task e in
    set_status (status task) (snd r) = task
    /\ ((dict_get (dataset_name task) (dataset_registry e) = None
         /\ status (snd r) = "running"
         /\ error_log (fst r)
            = error_log e ++ [UnknownDatasetError (dataset_name task);
                              FailedToLoadError (dataset_name task)])
        \/ (dict_get (dataset_name task) (dataset_registry e) <> None
            /\ status (snd r) = "failed"
            /\ exists ex,
                 error_log (fst r)
                 = error_log e ++ [TaskFailedError (task_id task) ex])
        \/ (dict_get (dataset_name task) (dataset_registry e) <> None
            /\ status (snd r) = "completed"
            /\ error_log (fst r) = error_log e)).
Proof.
  intros env task e r. subst r.
  pose proof (execute_cases env task e) as Hcase.
  destruct (_execute_learning_task env task e) as [e' t'].
  cbn [fst snd] in *.
  assert (Hfields : forall s, set_status (status task) (set_status s task) = task)
    by (intros s; now destruct task).
  inversion Hcase as [ Hreg | i ex Hreg Hload | i ex Hreg Hload Hrun
                     | i e1 Hreg Hload Hrun Hnone
                     | i e1 mi ex Hreg Hload Hrun Hmi Hsave
                     | i e1 mi Hreg Hload Hrun Hmi Hsave ];
    subst; (split; [apply Hfields|]).
  - left. cbn [error_log log_error]. rewrite <- app_assoc. auto.
  - right. left. split; [congruence|]. split; [reflexivity|]. now exists ex.
  - right. left. split; [congruence|]. split; [reflexivity|]. now exists ex.
  - right. right. split; [congruence|]. split; [reflexivity|].
    now destruct (run_strategy_frame _ _ _ _ _ _ Hrun) as (_ & _ & _ & _ & -> & _).
  - right. left. split; [congruence|]. split; [reflexivity|]. exists ex.
    cbn [error_log log_error].
    destruct (update_metrics_frame task e1) as (_ & _ & _ & _ & ->).
    now destruct (run_strategy_frame _ _ _ _ _ _ Hrun) as (_ & _ & _ & _ & -> & _).
  - right. right. split; [congruence|]. split; [reflexivity|].
    cbn [error_log set_models_dir].
    destruct (update_metrics_frame task e1) as (_ & _ & _ & _ & ->).
    now destruct (run_strategy_frame _ _ _ _ _ _ Hrun) as (_ & _ & _ & _ & -> & _).
Qed.

(** ** Strategies without an accuracy *)

Lemma run_strategy_without_accuracy (env : Env) (task : LearningTask)
    (ds : Dataset) (e e1 : Engine) :
  learning_mode task = UNSUPERVISED \/ learning_mode task = REINFORCEMENT ->
  run_strategy env task ds e = (e1, inr tt) ->
  exists a, e1 = stored task a env e
            /\ accuracy_of (mkModelInfo a (dataset_name task) (now env)) = None.
Proof.
  unfold run_strategy, _unsupervised_learning, _reinforcement_learning,
    store_model.
  unfold_M.
  intros [-> | ->]; destruct (numeric_error env); intros H; simplify_eq;
    eexists; split; reflexivity.
Qed.

(** An unsupervised or reinforcement task never changes the score, and
    when it completes its metrics entry records accuracy 0.0 and
    contribution 0.0 under the task's dataset and mode. *)
Theorem tasks_without_accuracy_leave_the_score :
  forall (env : Env) (task : LearningTask) (e : Engine),
    learning_mode task = UNSUPERVISED \/ learning_mode task = REINFORCEMENT ->
    let r := _execute_learning_task env task e in
    human_intelligence_score (fst r) = human_intelligence_score e
    /\ (status (snd r) = "completed" ->
        dict_get (task_id task) (performance_metrics (fst r))
        = Some (mkMetric (Fin 0) (dataset_name task)
                  (mode_value (learning_mode task)) (now env) (Fin 0))).
Proof.
  intros env task e Hmode r. subst r.
  pose proof (execute_cases env task e) as Hcase.
  destruct (_execute_learning_task env task e) as [e' t'].
  cbn [fst snd] in *.
  assert (Hstored : forall i e1 mi,
            run_strategy env (set_status "running" task)
              (mkDataset (y_test env) i) e = (e1, inr tt) ->
            dict_get (task_id task) (model_registry e1) = Some mi ->
            human_intelligence_score e1 = human_intelligence_score e
            /\ accuracy_of mi = None /\ mi_created_at mi = now env).
  { intros i e1 mi Hrun Hmi.
    destruct (run_strategy_without_accuracy _ _ _ _ _ Hmode Hrun)
      as (a & -> & Hacc).
    cbn [stored model_registry set_model_registry task_id set_status
         dataset_name] in Hmi.
    rewrite dict_get_set in Hmi. injection Hmi as <-. auto. }
  inversion Hcase as [ Hreg | i ex Hreg Hload | i ex Hreg Hload Hrun
                     | i e1 Hreg Hload Hrun Hnone
                     | i e1 mi ex Hreg Hload Hrun Hmi Hsave
                     | i e1 mi Hreg Hload Hrun Hmi Hsave ];
    subst; cbn [status set_status human_intelligence_score log_error
                performance_metrics set_models_dir];
    try (split; [reflexivity | discriminate]).
  - destruct (run_strategy_without_accuracy _ _ _ _ _ Hmode Hrun)
      as (a & -> & _).
    cbn [stored model_registry set_model_registry task_id set_status] in Hnone.
    now rewrite dict_get_set in Hnone.
  - destruct (Hstored i e1 mi Hrun Hmi) as (Hscore & Hacc & _).
    rewrite (update_metrics_score task e1 mi Hmi), Hacc.
    split; [exact Hscore | discriminate].
  - destruct (Hstored i e1 mi Hrun Hmi) as (Hscore & Hacc & Hnow).
    rewrite (update_metrics_score task e1 mi Hmi),
            (update_metrics_metrics task e1 mi Hmi), Hacc, Hnow.
    split; [exact Hscore|]. intros _. cbn. apply dict_get_set.
Qed.

Lemma tasks_without_accuracy_leave_the_score_witness :
  let task := new_task "mnist" REINFORCEMENT 1 None 100 100000000 in
  let e := run [Submit "rice_msc" SUPERVISED 1 None 50 50000000;
                Work accurate_env] init in
  human_intelligence_score (fst (_execute_learning_task quiet_env task e))
  = human_intelligence_score e.
Proof.
  intros task e.
  apply (tasks_without_accuracy_leave_the_score quiet_env task e).
  now right.
Defined.

(** ** Transfer learning *)

(** [_find_similar_model] returns the first entry, in insertion order, of
    another dataset that carries a ['model'] key: every entry before it is
    of the target dataset or has no model; and it returns [None] exactly
    when no entry qualifies. *)
Theorem find_similar_model_first_match :
  forall (name : string) (registry : dict ModelInfo),
    match _find_similar_model name registry with
    | Some (id, mi) =>
        exists before after,
          registry = before ++ (id, mi) :: after
          /\ mi_dataset mi <> name
          /\ model_of mi <> None
          /\ Forall (fun kv => mi_dataset (snd kv) = name
                               \/ model_of (snd kv) = None) before
    | None =>
        Forall (fun kv => mi_dataset (snd kv) = name
                          \/ model_of (snd kv) = None) registry
    end.
Proof.
  intros name registry.
  induction registry as [|[id mi] rest IH]; cbn [_find_similar_model].
  - constructor.
  - destruct (String.eqb_spec (mi_dataset mi) name) as [Hsame|Hother];
      cbn [negb].
    + destruct (_find_similar_model name rest) as [[id' mi']|].
      * destruct IH as (before & after & -> & Hd & Hm & Hbefore).
        exists ((id, mi) :: before), after.
        repeat split; try assumption. constructor; [now left | assumption].
      * constructor; [now left | assumption].
    + destruct (model_of mi) as [m|] eqn:Hmodel.
      * exists [], rest. repeat split; try assumption; [congruence | constructor].
      * destruct (_find_similar_model name rest) as [[id' mi']|].
        -- destruct IH as (before & after & -> & Hd & Hm & Hbefore).
           exists ((id, mi) :: before), after.
           repeat split; try assumption. constructor; [now right | assumption].
        -- constructor; [now right | assumption].
Qed.

Lemma fine_tune_range (env : Env) (n : nat) (m : Params) :
  fine_tune env (seq 0 n) m = updates env n m.
Proof.
  assert (Happ : forall l1 l2 m0,
             fine_tune env (l1 ++ l2) m0
             = fine_tune env l2 (fine_tune env l1 m0)).
  { induction l1 as [|x l1 IH]; intros l2 m0; cbn; [reflexivity | apply IH]. }
  induction n as [|n IH]; [reflexivity|].
  now rewrite seq_S, Happ, IH.
Qed.

(** A transfer task that finds a source model and meets no exception ends
    "completed": its registry entry holds the weights transplanted from
    that first source and fine-tuned by exactly five updates, together with
    the source's task id; its metrics entry has accuracy 0.0; its file is
    written; and the score does not move. *)
Theorem transfer_from_first_source :
  forall (env : Env) (task : LearningTask) (e : Engine) (i : DatasetInfo)
         (source_id : string) (source : ModelInfo),
    learning_mode task = TRANSFER ->
    dict_get (dataset_name task) (dataset_registry e) = Some i ->
    _find_similar_model (dataset_name task) (model_registry e)
      = Some (source_id, source) ->
    load_error env = None -> numeric_error env = None ->
    save_error env = None ->
    let r := _execute_learning_task env task e in
    let entry :=
      mkModelInfo
        (TransferredModel (updates env 5 (_transfer_weights env source))
                          source_id)
        (dataset_name task) (now env) in
    snd r = set_status "completed" task
    /\ dict_get (task_id task) (model_registry (fst r)) = Some entry
    /\ dict_get (task_id task) (performance_metrics (fst r))
       = Some (mkMetric (Fin 0) (dataset_name task) "transfer" (now env) (Fin 0))
    /\ dict_get (model_path (task_id task)) (models_dir (fst r)) = Some entry
    /\ human_intelligence_score (fst r) = human_intelligence_score e.
Proof.
  intros env task e i source_id source Hmode Hreg Hfind Hload Hnum Hsave
         r entry.
  subst r.
  assert (Hrun : run_strategy env (set_status "running" task)
                   (mkDataset (y_test env) i) e
                 = (stored (set_status "running" task)
                      (TransferredModel
                         (updates env 5 (_transfer_weights env source))
                         source_id) env e, inr tt)).
  { unfold run_strategy, _transfer_learning, store_model.
    cbn [learning_mode dataset_name set_status]. rewrite Hmode.
    unfold_M. rewrite Hfind, Hnum, fine_tune_range. reflexivity. }
  pose proof (execute_cases env task e) as Hcase.
  destruct (_execute_learning_task env task e) as [e' t'].
  cbn [fst snd] in *.
  inversion Hcase as [ Hreg' | i' ex Hreg' Hload' | i' ex Hreg' Hload' Hrun'
                     | i' e1 Hreg' Hload' Hrun' Hnone
                     | i' e1 mi ex Hreg' Hload' Hrun' Hmi Hsave'
                     | i' e1 mi Hreg' Hload' Hrun' Hmi Hsave' ];
    subst; try congruence;
    assert (i' = i) by congruence; subst i';
    rewrite Hrun in Hrun'; simplify_eq.
  - cbn [stored model_registry set_model_registry task_id set_status] in Hnone.
    now rewrite dict_get_set in Hnone.
  - cbn [stored model_registry set_model_registry task_id set_status
         dataset_name] in Hmi.
    rewrite dict_get_set in Hmi. injection Hmi as <-.
    match goal with
    | |- context [_update_performance_metrics task ?e1] =>
        assert (Hentry : dict_get (task_id task) (model_registry e1) = Some entry)
          by (cbn; apply dict_get_set);
        pose proof (update_metrics_score task e1 entry Hentry) as Hscore;
        pose proof (update_metrics_metrics task e1 entry Hentry) as Hmetrics;
        pose proof (update_metrics_registry task e1) as Hregistry
    end.
    cbn [model_registry performance_metrics models_dir
         human_intelligence_score set_models_dir].
    rewrite Hscore, Hmetrics, Hregistry, Hmode.
    repeat split; try apply dict_get_set.
Qed.

Lemma transfer_from_first_source_witness :
  let e := run [Submit "rice_msc" SUPERVISED 1 None 50 50000000;
                Work accurate_env] init in
  let task := new_task "human_faces" TRANSFER 2
                (Some [("source_dataset", VStr "rice_msc")]) 100 100000000 in
  dict_get "human_faces_100"
    (model_registry (fst (_execute_learning_task quiet_env task e)))
  = Some (mkModelInfo
            (TransferredModel
               (updates quiet_env 5
                  (_transfer_weights quiet_env
                     (mkModelInfo (SupervisedModel no_params (Fin (4 # 4)))
                                  "rice_msc" 999)))
               "rice_msc_50")
            "human_faces" 777).
Proof.
  intros e task.
  apply (transfer_from_first_source quiet_env task e
           (mkInfo "detection" 128 7 7200 SUPERVISED) "rice_msc_50"
           (mkModelInfo (SupervisedModel no_params (Fin (4 # 4)))
                        "rice_msc" 999));
    reflexivity.
Defined.

(** ** Counting *)

Lemma heappop_length (heap q : list Item) (r : PyExn + Item) :
  heap <> [] -> heappop heap = (q, r) -> S (length q) = length heap.
Proof.
  intros Hne Hpop. destruct r as [ex|it].
  - destruct heap as [|root rest]; [congruence|].
    apply heappop_raises in Hpop. apply Permutation_length in Hpop.
    cbn. lia.
  - apply heappop_returns in Hpop. apply Permutation_length in Hpop.
    exact Hpop.
Qed.

Lemma dict_set_length {V : Type} (k : string) (v : V) (d : dict V) :
  (length d <= length (dict_set k v d))%nat.
Proof.
  induction d as [|[k0 v0] d IH]; cbn; [lia|].
  destruct (String.eqb k k0); cbn; lia.
Qed.

(** The counts of the status report: every call of [add_learning_task]
    adds one queued task, also when it raises; every worker iteration on a
    non-empty queue removes one, also when [get] raises; and no call ever
    lowers the number of active models. *)
Theorem status_counts :
  (forall (e : Engine) name mode prio params seconds now_us,
      queued_tasks
        (get_learning_status
           (fst (add_learning_task name mode prio params seconds now_us e)))
      = S (queued_tasks (get_learning_status e)))
  /\ (forall (env : Env) (e : Engine),
        queued_tasks (get_learning_status (fst (_learning_worker env e)))
        = Nat.pred (queued_tasks (get_learning_status e)))
  /\ (forall (e : Engine) (c : Call),
        (active_models (get_learning_status e)
         <= active_models (get_learning_status (step e c)))%nat).
Proof.
  unfold get_learning_status. cbn [queued_tasks active_models].
  split; [|split].
  - intros e name mode prio params seconds now_us.
    rewrite add_learning_task_queue.
    pose proof (heappush_perm (learning_queue e)
                  (prio, new_task name mode prio params seconds now_us)) as Hp.
    apply Permutation_length in Hp. rewrite Hp, length_app. cbn. lia.
  - intros env e. unfold _learning_worker.
    destruct (learning_queue e) as [|it q] eqn:Hq;
      [cbn [fst]; now rewrite Hq|].
    assert (Hne : it :: q <> []) by discriminate.
    pose proof (heappop_length (it :: q)) as Hlen.
    destruct (heappop (it :: q)) as [q' [ex|[p task]]].
    + specialize (Hlen q' (inl ex) Hne eq_refl). cbn in *. lia.
    + specialize (Hlen q' (inr (p, task)) Hne eq_refl).
      destruct (execute_frame env task (set_queue q' e)) as (Hqueue & _).
      destruct (_execute_learning_task env task (set_queue q' e)) as [e' t'].
      cbn [fst snd learning_queue set_queue] in *. rewrite Hqueue.
      cbn in *. lia.
  - intros e c.
    assert (Hqueue : forall e', only_queue_changed e e' ->
              (length (model_registry e) <= length (model_registry e'))%nat).
    { intros e' ->. reflexivity. }
    destruct c as [name mode prio params seconds now_us | env | clock];
      cbn [step].
    + apply Hqueue, add_learning_task_only_queue.
    + unfold _learning_worker.
      destruct (learning_queue e) as [|it q] eqn:Hq; [reflexivity|].
      destruct (heappop (it :: q)) as [q' [ex|[p task]]]; [reflexivity|].
      pose proof (execute_cases env task (set_queue q' e)) as Hcase.
      destruct (_execute_learning_task env task (set_queue q' e)) as [e' t'].
      cbn [fst snd] in *.
      assert (Hstrategy : forall ds e1 r,
                run_strategy env (set_status "running" task) ds
                  (set_queue q' e) = (e1, r) ->
                (length (model_registry e) <= length (model_registry e1))%nat).
      { intros ds e1 r Hrun.
        destruct (run_strategy_cases env (set_status "running" task) ds
                    (set_queue q' e))
          as [[ex H]|[[a H]|[H _]]]; rewrite H in Hrun; simplify_eq;
          cbn; try lia.
        apply dict_set_length. }
      inversion Hcase as [ Hreg | i ex Hreg Hload | i ex Hreg Hload Hrun
                         | i e1 Hreg Hload Hrun Hnone
                         | i e1 mi ex Hreg Hload Hrun Hmi Hsave
                         | i e1 mi Hreg Hload Hrun Hmi Hsave ];
        subst; cbn [model_registry log_error set_models_dir set_queue];
        rewrite ?update_metrics_registry; try reflexivity;
        eapply Hstrategy; eassumption.
    + apply Hqueue, auto_schedule_only_queue.
Qed.

(** ** Compatibility and accuracy *)

Section Binary64.
Local Open Scope Z_scope.

(** *** Rounding to binary64 *)

(** The number of binary digits of a positive integer. *)
Lemma digits2_pos_bounds (p : positive) :
  2 ^ (Z.pos (SpecFloat.digits2_pos p) - 1) <= Z.pos p
  < 2 ^ Z.pos (SpecFloat.digits2_pos p).
Proof.
  induction p as [p IH|p IH|]; cbn [SpecFloat.digits2_pos].
  - rewrite Pos2Z.inj_succ.
    replace (Z.succ (Z.pos (SpecFloat.digits2_pos p)) - 1)
      with (Z.succ (Z.pos (SpecFloat.digits2_pos p) - 1)) by lia.
    rewrite !Z.pow_succ_r by lia. lia.
  - rewrite Pos2Z.inj_succ.
    replace (Z.succ (Z.pos (SpecFloat.digits2_pos p)) - 1)
      with (Z.succ (Z.pos (SpecFloat.digits2_pos p) - 1)) by lia.
    rewrite !Z.pow_succ_r by lia. lia.
  - cbn. lia.
Qed.

Lemma digits2_pos_unique (p : positive) (k : Z) :
  2 ^ (k - 1) <= Z.pos p < 2 ^ k ->
  Z.pos (SpecFloat.digits2_pos p) = k.
Proof.
  intros [Hlo Hhi].
  pose proof (digits2_pos_bounds p) as [Hlo' Hhi'].
  set (d := Z.pos (SpecFloat.digits2_pos p)) in *.
  assert (Hk : 0 < k).
  { destruct (Z.ltb_spec 0 k) as [?|Hle]; [assumption|].
    exfalso. destruct (Z.eq_dec k 0) as [->|Hne].
    - cbn in Hhi. lia.
    - rewrite Z.pow_neg_r in Hhi by lia. lia. }
  assert (d - 1 < k).
  { apply (Z.pow_lt_mono_r_iff 2); lia. }
  assert (k - 1 < d).
  { apply (Z.pow_lt_mono_r_iff 2); lia. }
  lia.
Qed.

Lemma shr_record_of_loc_m (m : Z) (l : SpecFloat.location) :
  SpecFloat.shr_m (SpecFloat.shr_record_of_loc m l) = m.
Proof. now destruct l as [|[]]. Qed.

Lemma loc_of_shr_record_of_loc (m : Z) (l : SpecFloat.location) :
  SpecFloat.loc_of_shr_record (SpecFloat.shr_record_of_loc m l) = l.
Proof. now destruct l as [|[]]. Qed.

Lemma round_nearest_even_range (m : Z) (l : SpecFloat.location) :
  m <= SpecFloat.round_nearest_even m l <= m + 1.
Proof.
  unfold SpecFloat.round_nearest_even.
  destruct l as [|[]]; try destruct (Z.even m); lia.
Qed.

Lemma shr_fexp_53 (m e : Z) (l : SpecFloat.location) :
  4503599627370496 <= m < 9007199254740992 -> -1074 <= e ->
  SpecFloat.shr_fexp 53 1024 m e l = (SpecFloat.shr_record_of_loc m l, e).
Proof.
  intros Hm He. unfold SpecFloat.shr_fexp.
  destruct m as [|p|p]; try lia.
  cbn [SpecFloat.Zdigits2].
  rewrite (digits2_pos_unique p 53) by (cbn; lia).
  unfold SpecFloat.fexp, SpecFloat.emin.
  replace (Z.max (53 + e - 53) (3 - 1024 - 53) - e) with 0 by lia.
  reflexivity.
Qed.

Lemma shr_fexp_54 (m e : Z) (l : SpecFloat.location) :
  9007199254740992 <= m < 18014398509481984 -> -1074 <= e ->
  SpecFloat.shr_fexp 53 1024 m e l
  = (SpecFloat.shr_1 (SpecFloat.shr_record_of_loc m l), e + 1).
Proof.
  intros Hm He. unfold SpecFloat.shr_fexp.
  destruct m as [|p|p]; try lia.
  cbn [SpecFloat.Zdigits2].
  rewrite (digits2_pos_unique p 54) by (cbn; lia).
  unfold SpecFloat.fexp, SpecFloat.emin.
  replace (Z.max (54 + e - 53) (3 - 1024 - 53) - e) with 1 by lia.
  reflexivity.
Qed.

Lemma shr_fexp_subnormal (m : Z) (l : SpecFloat.location) :
  0 <= m < 9007199254740992 ->
  SpecFloat.shr_fexp 53 1024 m (-1074) l
  = (SpecFloat.shr_record_of_loc m l, -1074).
Proof.
  intros Hm. unfold SpecFloat.shr_fexp.
  destruct m as [|p|p]; try lia; [reflexivity|].
  cbn [SpecFloat.Zdigits2].
  pose proof (digits2_pos_bounds p) as [Hlo _].
  set (d := Z.pos (SpecFloat.digits2_pos p)) in *.
  assert (d <= 53).
  { destruct (Z.leb_spec d 53) as [?|Hgt]; [assumption|]. exfalso.
    assert (2 ^ 53 <= 2 ^ (d - 1)) by (apply Z.pow_le_mono_r; lia).
    change (2 ^ 53) with 9007199254740992 in *. lia. }
  unfold SpecFloat.fexp, SpecFloat.emin.
  replace (Z.max (d + -1074 - 53) (3 - 1024 - 53) - -1074) with 0 by lia.
  reflexivity.
Qed.

(** The comparison with 0.5 of a canonical positive number. *)
Lemma half_ltb_finite (m : positive) (e : Z) :
  SpecFloat.SFltb binary64_half (SpecFloat.S754_finite false m e)
  = if Z.eqb e (-53) then Z.ltb 4503599627370496 (Z.pos m) else Z.ltb (-53) e.
Proof.
  unfold SpecFloat.SFltb, SpecFloat.SFcompare, binary64_half.
  destruct (Z.eqb_spec e (-53)) as [->|Hne].
  - rewrite Z.compare_refl.
    change (Pos.compare_cont Eq 4503599627370496 m)
      with (Z.compare 4503599627370496 (Z.pos m)).
    destruct (Z.ltb_spec 4503599627370496 (Z.pos m)) as [H|H].
    + now rewrite (proj2 (Z.compare_lt_iff _ _) H).
    + destruct (Z.compare_spec 4503599627370496 (Z.pos m)); trivial; lia.
  - destruct (Z.compare_spec (-53) e); destruct (Z.ltb_spec (-53) e);
      trivial; lia.
Qed.

(** Rounding a 53-bit mantissa. *)
Lemma binary_round_aux_53 (q e : Z) (l : SpecFloat.location) :
  4503599627370496 <= q < 9007199254740992 -> -1074 <= e <= 970 ->
  exists m e',
    SpecFloat.binary_round_aux 53 1024 false q e l
    = SpecFloat.S754_finite false m e'
    /\ ((Z.pos m = SpecFloat.round_nearest_even q l /\ e' = e
         /\ Z.pos m < 9007199254740992)
        \/ (SpecFloat.round_nearest_even q l = 9007199254740992
            /\ Z.pos m = 4503599627370496 /\ e' = e + 1)).
Proof.
  intros Hq He. unfold SpecFloat.binary_round_aux.
  rewrite shr_fexp_53 by lia.
  rewrite shr_record_of_loc_m, loc_of_shr_record_of_loc.
  pose proof (round_nearest_even_range q l) as Hr.
  set (m2 := SpecFloat.round_nearest_even q l) in *.
  destruct (Z.ltb_spec m2 9007199254740992) as [Hlt|Hge].
  - rewrite shr_fexp_53 by lia. cbn [SpecFloat.shr_record_of_loc SpecFloat.shr_m].
    destruct m2 as [|p|p] eqn:Hm2; try lia.
    replace (e <=? 1024 - 53) with true by (symmetry; apply Z.leb_le; lia).
    exists p, e. split; [reflexivity|]. left. lia.
  - assert (Hm2 : m2 = 9007199254740992) by lia.
    rewrite Hm2. rewrite shr_fexp_54 by lia.
    cbn [SpecFloat.shr_record_of_loc SpecFloat.shr_1 SpecFloat.shr_m].
    replace (e + 1 <=? 1024 - 53) with true by (symmetry; apply Z.leb_le; lia).
    exists 4503599627370496%positive, (e + 1). split; [reflexivity|].
    right. lia.
Qed.

Lemma shr_1_record (q : Z) (l : SpecFloat.location) :
  2 <= q ->
  SpecFloat.shr_1 (SpecFloat.shr_record_of_loc q l)
  = SpecFloat.Build_shr_record (Z.div2 q) (Z.odd q)
      match l with SpecFloat.loc_Exact => false | _ => true end.
Proof.
  intros Hq. destruct q as [|[p|p|]|]; try lia; now destruct l as [|[]].
Qed.

(** Rounding a 54-bit mantissa: one bit is shifted out first. *)
Lemma binary_round_aux_54 (q e : Z) (l : SpecFloat.location) :
  9007199254740992 <= q < 18014398509481984 -> -1074 <= e ->
  SpecFloat.binary_round_aux 53 1024 false q e l
  = SpecFloat.binary_round_aux 53 1024 false (Z.div2 q) (e + 1)
      (SpecFloat.loc_of_shr_record
         (SpecFloat.Build_shr_record (Z.div2 q) (Z.odd q)
            match l with SpecFloat.loc_Exact => false | _ => true end)).
Proof.
  intros Hq He. unfold SpecFloat.binary_round_aux.
  pose proof (Z.div2_odd q) as Hdiv.
  assert (Hhalf : 4503599627370496 <= Z.div2 q < 9007199254740992)
    by (destruct (Z.odd q); cbn [Z.b2z] in Hdiv; lia).
  rewrite shr_fexp_54 by lia. rewrite shr_1_record by lia.
  rewrite (shr_fexp_53 (Z.div2 q)) by lia.
  rewrite shr_record_of_loc_m, loc_of_shr_record_of_loc.
  reflexivity.
Qed.

(** A 53-bit mantissa against 0.5 after rounding. *)
Lemma round_53_gt_half (q e : Z) (l : SpecFloat.location) :
  4503599627370496 <= q < 9007199254740992 -> -1074 <= e <= -52 ->
  exists m e',
    SpecFloat.binary_round_aux 53 1024 false q e l
    = SpecFloat.S754_finite false m e'
    /\ SpecFloat.SFltb binary64_half (SpecFloat.S754_finite false m e')
       = if Z.eqb e (-53)
         then Z.ltb 4503599627370496 q
              || (Z.eqb q 4503599627370496
                  && match l with
                     | SpecFloat.loc_Inexact Gt => true
                     | _ => false
                     end)
         else Z.ltb (-53) e.
Proof.
  intros Hq He.
  destruct (binary_round_aux_53 q e l Hq ltac:(lia))
    as (m & e' & Heq & [(Hm & He' & Hlt) | (Hr & Hm & He')]);
    exists m, e'; (split; [exact Heq|]);
    rewrite half_ltb_finite; subst e'.
  - rewrite Hm. unfold SpecFloat.round_nearest_even.
    destruct (Z.eqb_spec e (-53)) as [_|_]; [|reflexivity].
    destruct (Z.eqb_spec q 4503599627370496) as [->|Hne].
    + now destruct l as [|[]].
    + replace (4503599627370496 <? q) with true
        by (symmetry; apply Z.ltb_lt; lia).
      cbn [orb]. apply Z.ltb_lt.
      destruct l as [|[]]; try destruct (Z.even q); lia.
  - rewrite Hm.
    pose proof (round_nearest_even_range q l) as Hrange.
    bool_cases; cbn; first [reflexivity | exfalso; lia].
Qed.

(** A mantissa of 53 or 54 bits against 0.5 after rounding. *)
Lemma round_gt_half (q e : Z) (l : SpecFloat.location) :
  4503599627370496 <= q < 18014398509481984 -> -1074 <= e <= -53 ->
  exists m e',
    SpecFloat.binary_round_aux 53 1024 false q e l
    = SpecFloat.S754_finite false m e'
    /\ SpecFloat.SFltb binary64_half (SpecFloat.S754_finite false m e')
       = if Z.eqb e (-53)
         then Z.ltb 4503599627370496 q
              || (Z.eqb q 4503599627370496
                  && match l with
                     | SpecFloat.loc_Inexact Gt => true
                     | _ => false
                     end)
         else if Z.eqb e (-54)
         then Z.ltb 9007199254740993 q
              || (Z.eqb q 9007199254740993
                  && match l with
                     | SpecFloat.loc_Exact => false
                     | _ => true
                     end)
         else false.
Proof.
  intros Hq He.
  destruct (Z.ltb_spec q 9007199254740992) as [Hlt|Hge].
  - destruct (round_53_gt_half q e l ltac:(lia) ltac:(lia))
      as (m & e' & Heq & Hcmp).
    exists m, e'. split; [exact Heq|]. rewrite Hcmp.
    bool_cases; cbn; first [reflexivity | exfalso; lia].
  - rewrite binary_round_aux_54 by lia.
    pose proof (Z.div2_odd q) as Hdiv.
    assert (Hhalf : 4503599627370496 <= Z.div2 q < 9007199254740992)
      by (destruct (Z.odd q); cbn [Z.b2z] in Hdiv; lia).
    match goal with
    | |- context [SpecFloat.binary_round_aux _ _ _ _ _ ?l'] =>
        destruct (round_53_gt_half (Z.div2 q) (e + 1) l'
                    ltac:(lia) ltac:(lia)) as (m & e' & Heq & Hcmp)
    end.
    exists m, e'. split; [exact Heq|]. rewrite Hcmp.
    destruct (Z.odd q); cbn [Z.b2z] in Hdiv;
      destruct l as [|[]]; cbn [SpecFloat.loc_of_shr_record];
      bool_cases; cbn; first [reflexivity | exfalso; lia].
Qed.

(** Rounding at the smallest exponent gives zero or a number below 0.5. *)
Lemma round_subnormal (q : Z) (l : SpecFloat.location) :
  0 <= q < 9007199254740992 ->
  SpecFloat.binary_round_aux 53 1024 false q (-1074) l
  = SpecFloat.S754_zero false
  \/ exists m e',
       SpecFloat.binary_round_aux 53 1024 false q (-1074) l
       = SpecFloat.S754_finite false m e'
       /\ SpecFloat.SFltb binary64_half (SpecFloat.S754_finite false m e')
          = false.
Proof.
  intros Hq. unfold SpecFloat.binary_round_aux.
  rewrite shr_fexp_subnormal by lia.
  rewrite shr_record_of_loc_m, loc_of_shr_record_of_loc.
  pose proof (round_nearest_even_range q l) as Hr.
  set (m2 := SpecFloat.round_nearest_even q l) in *.
  destruct (Z.ltb_spec m2 9007199254740992) as [Hlt|Hge].
  - rewrite shr_fexp_subnormal by lia.
    cbn [SpecFloat.shr_record_of_loc SpecFloat.shr_m].
    destruct m2 as [|p|p]; try lia; [now left|].
    right. exists p, (-1074). split; [reflexivity|].
    now rewrite half_ltb_finite.
  - assert (Hm2 : m2 = 9007199254740992) by lia.
    rewrite Hm2. rewrite shr_fexp_54 by lia.
    right. exists 4503599627370496%positive, (-1073). split; reflexivity.
Qed.

Lemma new_location_spec (b r : Z) :
  0 <= r < b ->
  SpecFloat.new_location b r
  = if Z.eqb r 0 then SpecFloat.loc_Exact
    else SpecFloat.loc_Inexact (Z.compare (2 * r) b).
Proof.
  intros Hr. unfold SpecFloat.new_location.
  destruct (Z.even b) eqn:Heven.
  - reflexivity.
  - unfold SpecFloat.new_location_odd.
    destruct (Z.eqb_spec r 0) as [_|_]; [reflexivity|]. f_equal.
    assert (Hodd : Z.odd b = true) by (rewrite <- Z.negb_even, Heven; trivial).
    pose proof (Z.div2_odd b) as Hb. rewrite Hodd in Hb. cbn [Z.b2z] in Hb.
    destruct (Z.compare_spec (2 * r + 1) b);
      destruct (Z.compare_spec (2 * r) b); trivial; lia.
Qed.

(** The quotient and remainder that the division rounds. *)
Lemma SFdiv_core_binary_spec (a b : positive) :
  Z.pos a <= Z.pos b ->
  let d1 := Z.pos (SpecFloat.digits2_pos a) in
  let d2 := Z.pos (SpecFloat.digits2_pos b) in
  let s := Z.min (53 + d2 - d1) 1074 in
  exists q r,
    SpecFloat.SFdiv_core_binary 53 1024 (Z.pos a) 0 (Z.pos b) 0
    = (q, - s, SpecFloat.new_location (Z.pos b) r)
    /\ Z.pos a * 2 ^ s = Z.pos b * q + r
    /\ 0 <= r < Z.pos b
    /\ d1 <= d2.
Proof.
  intros Hab d1 d2 s.
  pose proof (digits2_pos_bounds a) as [Ha1 Ha2].
  pose proof (digits2_pos_bounds b) as [Hb1 Hb2].
  fold d1 in Ha1, Ha2. fold d2 in Hb1, Hb2.
  assert (Hd : d1 <= d2).
  { assert (d1 - 1 < d2) by (apply (Z.pow_lt_mono_r_iff 2); lia). lia. }
  unfold SpecFloat.SFdiv_core_binary.
  cbn [SpecFloat.Zdigits2]. fold d1 d2.
  unfold SpecFloat.fexp, SpecFloat.emin.
  replace (Z.min (Z.max (d1 + 0 - (d2 + 0) - 53) (3 - 1024 - 53)) (0 - 0))
    with (- s) by (subst s; lia).
  replace (0 - 0 - - s) with s by lia.
  assert (Hs : 53 <= s) by (subst s; lia).
  destruct s as [|ps|ps] eqn:Hseq; try lia.
  rewrite Z.shiftl_mul_pow2 by lia.
  pose proof (Z_div_mod (Z.pos a * 2 ^ Z.pos ps) (Z.pos b) ltac:(lia)) as Hdiv.
  destruct (Z.div_eucl (Z.pos a * 2 ^ Z.pos ps) (Z.pos b)) as [q r].
  exists q, r. repeat split; try lia.
Qed.

Lemma new_location_cases (b r : Z) :
  0 <= r < b ->
  (r = 0 /\ SpecFloat.new_location b r = SpecFloat.loc_Exact)
  \/ (0 < 2 * r < b
      /\ SpecFloat.new_location b r = SpecFloat.loc_Inexact Lt)
  \/ (0 < r /\ 2 * r = b
      /\ SpecFloat.new_location b r = SpecFloat.loc_Inexact Eq)
  \/ (b < 2 * r /\ SpecFloat.new_location b r = SpecFloat.loc_Inexact Gt).
Proof.
  intros Hr. rewrite new_location_spec by assumption.
  destruct (Z.eqb_spec r 0); [now left|].
  destruct (Z.compare_spec (2 * r) b); [right; right; left|right; left|];
    try (repeat split; trivial; lia).
  right; right; right. split; trivial.
Qed.

(** The quotient of two positive integers [a <= b], rounded to the nearest
    binary64 number, is above 0.5 exactly when [a / b > 1/2 + 2^-54]: the
    quotients up to the midpoint between 0.5 and its successor round to
    0.5. *)
Lemma SFdiv_gt_half (a b : positive) :
  Z.pos a <= Z.pos b ->
  let x := SpecFloat.SFdiv 53 1024 (SpecFloat.S754_finite false a 0)
             (SpecFloat.S754_finite false b 0) in
  (x = SpecFloat.S754_zero false
   \/ exists m e, x = SpecFloat.S754_finite false m e)
  /\ SpecFloat.SFltb binary64_half x
     = Z.ltb (9007199254740993 * Z.pos b) (18014398509481984 * Z.pos a).
Proof.
  intros Hab x. subst x. unfold SpecFloat.SFdiv. cbn [xorb].
  destruct (SFdiv_core_binary_spec a b Hab) as (q & r & -> & Hdiv & Hr & Hd).
  pose proof (digits2_pos_bounds a) as [Ha1 Ha2].
  pose proof (digits2_pos_bounds b) as [Hb1 Hb2].
  set (d1 := Z.pos (SpecFloat.digits2_pos a)) in *.
  set (d2 := Z.pos (SpecFloat.digits2_pos b)) in *.
  assert (Hd1 : 0 < d1) by (subst d1; lia).
  replace (2 ^ d1) with (2 * 2 ^ (d1 - 1)) in Ha2
    by (rewrite <- Z.pow_succ_r by lia; f_equal; lia).
  replace (2 ^ d2) with (2 * 2 ^ (d2 - 1)) in Hb2
    by (rewrite <- Z.pow_succ_r by lia; f_equal; lia).
  set (X := 2 ^ (d1 - 1)) in *. set (Y := 2 ^ (d2 - 1)) in *.
  set (A := Z.pos a) in *. set (B := Z.pos b) in *.
  assert (HB : 0 < B) by (subst B; lia).
  assert (HX : 0 < X) by (subst X; apply Z.pow_pos_nonneg; lia).
  destruct (Z.leb_spec (53 + d2 - d1) 1074) as [Hnorm|Hsub].
  - (* the quotient has 53 or 54 bits *)
    rewrite Z.min_l in * by lia.
    set (s := 53 + d2 - d1) in *.
    assert (HXS : X * 2 ^ s = 9007199254740992 * Y).
    { subst X Y s. rewrite <- Z.pow_add_r by lia.
      change 9007199254740992 with (2 ^ 53).
      rewrite <- Z.pow_add_r by lia. f_equal. lia. }
    assert (HS : 0 < 2 ^ s) by (apply Z.pow_pos_nonneg; lia).
    assert (Hq : 4503599627370496 <= q < 18014398509481984).
    { split.
      - destruct (Z.leb_spec 4503599627370496 q) as [?|Hlt]; [assumption|].
        exfalso.
        assert (B * q <= B * 4503599627370495) by nia.
        assert (X * 2 ^ s <= A * 2 ^ s) by nia.
        lia.
      - destruct (Z.ltb_spec q 18014398509481984) as [?|Hge]; [assumption|].
        exfalso.
        assert (B * 18014398509481984 <= B * q) by nia.
        assert (A * 2 ^ s < 2 * X * 2 ^ s) by nia.
        lia. }
    destruct (round_gt_half q (- s) (SpecFloat.new_location B r)
                Hq ltac:(lia)) as (m & e' & -> & ->).
    split; [right; eauto|].
    destruct (new_location_cases B r Hr)
      as [(Hr0 & ->)|[(Hr0 & ->)|[(Hr0 & Hr1 & ->)|(Hr0 & ->)]]];
      destruct (Z.eq_dec s 53) as [Hs|Hs53].
    all: try (rewrite Hs in *; change (2 ^ 53) with 9007199254740992 in *;
              destruct (Z.eq_dec q 4503599627370496) as [->|Hq52];
              [|assert (B * 4503599627370497 <= B * q) by nia];
              bool_cases; cbn; first [reflexivity | exfalso; lia]).
    all: destruct (Z.eq_dec s 54) as [Hs|Hs54].
    all: try (rewrite Hs in *; change (2 ^ 54) with 18014398509481984 in *;
              destruct (Z.eq_dec q 9007199254740993) as [->|Hq53];
              [|destruct (Z.leb_spec q 9007199254740992);
                [assert (B * q <= B * 9007199254740992) by nia
                |assert (B * 9007199254740994 <= B * q) by nia]];
              bool_cases; cbn; first [reflexivity | exfalso; lia]).
    all: assert (HT : 2 ^ s = 18014398509481984 * 2 ^ (s - 54))
        by (change 18014398509481984 with (2 ^ 54);
            rewrite <- Z.pow_add_r by lia; f_equal; lia);
      assert (HT2 : 2 <= 2 ^ (s - 54))
        by (change 2 with (2 ^ 1) at 1; apply Z.pow_le_mono_r; lia);
      assert (B * q < B * 18014398509481984) by nia;
      assert (2 * A <= A * 2 ^ (s - 54)) by nia;
      bool_cases; cbn; first [reflexivity | exfalso; nia].
  - (* the quotient is rounded at the smallest exponent *)
    rewrite Z.min_r in * by lia. change (- (1074)) with (-1074).
    change (2 ^ 1074) with (2 ^ 1021 * 9007199254740992) in Hdiv.
    assert (HXY : X * 2 ^ 1021 * 2 <= Y).
    { subst X Y. rewrite <- Z.pow_add_r by lia.
      rewrite Z.mul_comm, <- Z.pow_succ_r by lia.
      apply Z.pow_le_mono_r; lia. }
    assert (HP : 0 < 2 ^ 1021) by (apply Z.pow_pos_nonneg; lia).
    set (P := 2 ^ 1021) in *.
    assert (Hq : 0 <= q < 9007199254740992).
    { split.
      - destruct (Z.leb_spec 0 q) as [?|Hlt]; [assumption|]. exfalso.
        assert (B * q <= B * (-1)) by nia. nia.
      - destruct (Z.ltb_spec q 9007199254740992) as [?|Hge]; [assumption|].
        exfalso.
        assert (B * 9007199254740992 <= B * q) by nia.
        assert (A * (P * 9007199254740992) < 2 * X * P * 9007199254740992)
          by nia.
        nia. }
    assert (Hsmall : 2 * A < B) by nia.
    destruct (round_subnormal q (SpecFloat.new_location B r) Hq)
      as [-> | (m & e' & -> & ->)].
    + split; [now left|]. cbn. symmetry. apply Z.ltb_ge. lia.
    + split; [right; eauto|]. symmetry. apply Z.ltb_ge. lia.
Qed.

End Binary64.

(** The quotient of the two dimensionalities, when both are positive, is a
    float, and it is above 0.5 exactly when
    [(2^53 + 1) * max < 2^54 * min]. *)
Lemma feature_overlap_positive (info1 info2 : DatasetInfo) :
  (0 < features info1)%Z -> (0 < features info2)%Z ->
  feature_overlap info1 info2
  = inr (Z.ltb ((2 ^ 53 + 1) * Z.max (features info1) (features info2))
               (2 ^ 54 * Z.min (features info1) (features info2))).
Proof.
  intros H1 H2. unfold feature_overlap, int_true_divide.
  set (lo := Z.min _ _). set (hi := Z.max _ _).
  assert (Hlo : (0 < lo <= hi)%Z) by (subst lo hi; lia).
  destruct (Z.eqb_spec hi 0) as [?|_]; [lia|].
  destruct lo as [|a|a]; try lia. destruct hi as [|b|b]; try lia.
  cbn [int_operand].
  destruct (SFdiv_gt_half a b ltac:(lia)) as [[Hx | (m & e & Hx)] Hcmp];
    rewrite Hx in *; now rewrite Hcmp.
Qed.

(** The compatibility test does not depend on the order of the two
    datasets, and it raises [ZeroDivisionError] exactly when the larger
    dimensionality is 0.  For positive dimensionalities the quotient is
    rounded to a float before it is compared with 0.5, so the test holds
    exactly when [(2^53 + 1) * max < 2^54 * min]; for dimensionalities up
    to [2^53] that is exactly when the larger one is less than twice the
    smaller one. *)
Theorem feature_overlap_rule :
  forall info1 info2 : DatasetInfo,
    feature_overlap info1 info2 = feature_overlap info2 info1
    /\ (feature_overlap info1 info2 = inl ZeroDivisionError
        <-> Z.max (features info1) (features info2) = 0%Z)
    /\ ((0 < features info1)%Z -> (0 < features info2)%Z ->
        (feature_overlap info1 info2 = inr true
         <-> ((2 ^ 53 + 1) * Z.max (features info1) (features info2)
              < 2 ^ 54 * Z.min (features info1) (features info2))%Z)
        /\ (feature_overlap info1 info2 = inr false
            <-> (2 ^ 54 * Z.min (features info1) (features info2)
                 <= (2 ^ 53 + 1)
                    * Z.max (features info1) (features info2))%Z))
    /\ ((0 < features info1 <= 2 ^ 53)%Z ->
        (0 < features info2 <= 2 ^ 53)%Z ->
        (feature_overlap info1 info2 = inr true
         <-> (Z.max (features info1) (features info2)
              < 2 * Z.min (features info1) (features info2))%Z)).
Proof.
  intros info1 info2. split; [|split; [|split]].
  - unfold feature_overlap.
    now rewrite (Z.min_comm (features info1)), (Z.max_comm (features info1)).
  - unfold feature_overlap, int_true_divide.
    destruct (Z.eqb_spec (Z.max (features info1) (features info2)) 0)
      as [Hz|Hnz]; [tauto|].
    split; [|tauto]. intros H. exfalso.
    destruct (SpecFloat.SFdiv _ _ _ _); discriminate.
  - intros H1 H2. rewrite (feature_overlap_positive info1 info2 H1 H2).
    split; split.
    + intros [= H]. now apply Z.ltb_lt.
    + intros H. f_equal. now apply Z.ltb_lt.
    + intros [= H]. now apply Z.ltb_ge.
    + intros H. f_equal. now apply Z.ltb_ge.
  - intros [H1 H1'] [H2 H2'].
    rewrite (feature_overlap_positive info1 info2 H1 H2).
    change (2 ^ 53)%Z with 9007199254740992%Z in *.
    change (2 ^ 54)%Z with 18014398509481984%Z.
    split.
    + intros [= H]. apply Z.ltb_lt in H. lia.
    + intros H. f_equal. apply Z.ltb_lt. lia.
Qed.

(** Beyond [2^53] the rounding shows: [2^61] is less than twice
    [2^60 + 1], but the quotient rounds to 0.5 and the test fails. *)
Example feature_overlap_rounds_to_half :
  let info1 := mkInfo "classification" (2 ^ 60 + 1) 5 75000 SUPERVISED in
  let info2 := mkInfo "classification" (2 ^ 61) 5 75000 SUPERVISED in
  (features info2 < 2 * features info1)%Z
  /\ feature_overlap info1 info2 = inr false.
Proof. split; reflexivity. Qed.

Lemma feature_overlap_rule_witness :
  feature_overlap (mkInfo "classification" 106 5 75000 SUPERVISED)
                  (mkInfo "detection" 128 7 7200 SUPERVISED) = inr true.
Proof.
  destruct (feature_overlap_rule
              (mkInfo "classification" 106 5 75000 SUPERVISED)
              (mkInfo "detection" 128 7 7200 SUPERVISED)) as (_ & _ & _ & H).
  apply H; cbn; lia.
Defined.

Lemma hits_refl (y : list nat) : hits y y = length y.
Proof.
  induction y as [|l y IH]; cbn; [reflexivity|].
  now rewrite Nat.eqb_refl, IH.
Qed.

Lemma hits_all (predicted_classes y : list nat) :
  length predicted_classes = length y ->
  hits predicted_classes y = length y <-> predicted_classes = y.
Proof.
  revert y.
  induction predicted_classes as [|c cs IH]; intros [|l ls] Hlen;
    try discriminate; cbn [hits length]; [tauto|].
  injection Hlen as Hlen.
  pose proof (hits_le cs ls) as Hle.
  destruct (Nat.eqb_spec c l) as [->|Hne]; split; intros H.
  - f_equal. apply IH; [assumption | lia].
  - injection H as ->. rewrite hits_refl. lia.
  - lia.
  - congruence.
Qed.

(** On a vector of predictions and a vector of labels of one length, the
    accuracy is nan exactly when the vectors are empty; otherwise it is the
    fraction of agreeing positions, a number of [[0,1]], equal to 1 exactly
    when the predictions are the labels. *)
Theorem calculate_accuracy_range :
  forall predicted_classes y : list nat,
    length predicted_classes = length y ->
    (_calculate_accuracy predicted_classes y = NaN <-> y = [])
    /\ (y <> [] ->
        exists q, _calculate_accuracy predicted_classes y = Fin q
                  /\ (q == Z.of_nat (hits predicted_classes y)
                           # Pos.of_nat (length y))%Q
                  /\ (0 <= q <= 1)%Q
                  /\ ((q == 1)%Q <-> predicted_classes = y)).
Proof.
  intros p y Hlen. split.
  - destruct y; cbn; split; congruence.
  - intros Hne. destruct y as [|l y]; [congruence|].
    eexists. split; [reflexivity|]. split; [reflexivity|].
    rewrite <- (hits_all p (l :: y) Hlen).
    pose proof (hits_le p (l :: y)) as Hle.
    set (n := length (l :: y)) in *.
    assert (Hn : (0 < n)%nat) by (subst n; cbn; lia).
    assert (Hpos : Z.pos (Pos.of_nat n) = Z.of_nat n).
    { rewrite <- (Nat2Pos.id n) at 2 by lia. now rewrite positive_nat_Z. }
    unfold Qle, Qeq. cbn [Qnum Qden]. rewrite !Z.mul_1_r, ?Z.mul_1_l, Hpos.
    repeat split; lia.
Qed.

Lemma calculate_accuracy_range_witness :
  exists q, _calculate_accuracy [0; 1; 0; 0]%nat [0; 1; 2; 3]%nat = Fin q
            /\ (0 <= q <= 1)%Q.
Proof.
  destruct (calculate_accuracy_range [0; 1; 0; 0]%nat [0; 1; 2; 3]%nat
              eq_refl) as (_ & H).
  destruct (H ltac:(discriminate)) as (q & Heq & _ & Hrange & _).
  exists q. split; assumption.
Defined.

(** ** The two passes of the auto-scheduler *)

Lemma lookup_info_cases (name : string) (e : Engine) :
  lookup_info name e
  = (e, match dict_get name (dataset_registry e) with
        | Some i => inr i
        | None => inl KeyError
        end).
Proof. unfold lookup_info. unfold_M. now case_match. Qed.

Lemma add_learning_task_effect (e : Engine) name mode prio
    params seconds now_us :
  let r := add_learning_task name mode prio params seconds now_us e in
  learning_queue (fst r)
    ≡ₚ learning_queue e
       ++ [(prio, new_task name mode prio params seconds now_us)]
  /\ fst r = set_queue (learning_queue (fst r)) e.
Proof.
  cbn zeta. rewrite add_learning_task_unfold. cbn [fst snd].
  split; [apply heappush_perm | reflexivity].
Qed.

Lemma remediation_loop_cons (clock : nat -> Z * Z) (k : nat) (name : string)
    (rest : list string) (e : Engine) :
  remediation_loop clock k (name :: rest) e
  = match dict_get name (dataset_registry e) with
    | None => (e, inl KeyError)
    | Some i =>
        if below_target (performance_metrics e) name then
          match add_learning_task name (default_mode i) 1
                  (Some target_accuracy_params) (fst (clock k))
                  (snd (clock k)) e with
          | (e1, inl ex) => (e1, inl ex)
          | (e1, inr _) => remediation_loop clock (S k) rest e1
          end
        else remediation_loop clock k rest e
    end.
Proof.
  cbn [remediation_loop]. unfold below_target.
  unfold mbind at 1, M_bind at 1, bind at 1.
  rewrite lookup_info_cases.
  destruct (dict_get name (dataset_registry e)) as [i|]; [|reflexivity].
  unfold mbind at 1, M_bind at 1, bind at 1, get_engine.
  destruct (flt _ _); [|reflexivity].
  unfold mbind at 1, M_bind at 1, bind at 1.
  now destruct (add_learning_task _ _ _ _ _ _ e) as [e1 [ex|[]]].
Qed.

Lemma remediation_loop_submits (clock : nat -> Z * Z) (names : list string) :
  forall (k : nat) (e : Engine) (k' : nat),
    snd (remediation_loop clock k names e) = inr k' ->
    k' = (k + length (List.filter (below_target (performance_metrics e)) names))%nat
    /\ exists added : list Item,
         learning_queue (fst (remediation_loop clock k names e))
           ≡ₚ learning_queue e ++ added
         /\ map (fun it => dataset_name (snd it)) added
            = List.filter (below_target (performance_metrics e)) names
         /\ Forall (remediation_entry (dataset_registry e)) added.
Proof.
  induction names as [|name rest IH]; intros k e k'.
  - cbn. intros [= <-]. split; [lia|].
    exists []. rewrite app_nil_r.
    split; [reflexivity|]. split; [reflexivity | constructor].
  - rewrite remediation_loop_cons.
    destruct (dict_get name (dataset_registry e)) as [i|] eqn:Hinfo;
      [|discriminate].
    cbn [List.filter].
    destruct (below_target (performance_metrics e) name) eqn:Hbelow.
    + pose proof (add_learning_task_effect e name
                    (default_mode i) 1 (Some target_accuracy_params)
                    (fst (clock k)) (snd (clock k))) as (Hperm & Hrest).
      destruct (add_learning_task name (default_mode i) 1
                  (Some target_accuracy_params) (fst (clock k))
                  (snd (clock k)) e) as [e1 [ex|[]]];
        [discriminate|].
      cbn [fst] in Hperm, Hrest. intros Hret.
      assert (Hm : performance_metrics e1 = performance_metrics e)
        by now rewrite Hrest.
      assert (Hr : dataset_registry e1 = dataset_registry e)
        by now rewrite Hrest.
      destruct (IH (S k) e1 k' Hret) as (Hk & added & Hq & Hnames & Hall).
      rewrite Hm in Hk, Hnames. rewrite Hr in Hall.
      split; [cbn [length]; lia|].
      exists ((1%Z, new_task name (default_mode i) 1
                      (Some target_accuracy_params)
                      (fst (clock k)) (snd (clock k))) :: added).
      split; [|split].
      * rewrite Hq, Hperm, <- app_assoc. reflexivity.
      * cbn [map snd dataset_name new_task]. now rewrite Hnames.
      * constructor; [|assumption].
        repeat split. exists i. now split.
    + intros Hret.
      destruct (IH k e k' Hret) as (Hk & added & Hq & Hnames & Hall).
      split; [assumption|]. exists added.
      split; [assumption|]. split; assumption.
Qed.

Lemma are_datasets_compatible_cases (d1 d2 : string) (e : Engine) (b : bool) :
  snd (_are_datasets_compatible d1 d2 e) = inr b ->
  compatible_pair (dataset_registry e) (d1, d2) = b.
Proof.
  unfold _are_datasets_compatible, compatible_pair.
  unfold mbind at 1, M_bind at 1, bind at 1. rewrite lookup_info_cases.
  cbn [fst snd].
  destruct (dict_get d1 (dataset_registry e)) as [i1|]; [|discriminate].
  unfold mbind at 1, M_bind at 1, bind at 1. rewrite lookup_info_cases.
  destruct (dict_get d2 (dataset_registry e)) as [i2|]; [|discriminate].
  unfold_M.
  destruct (feature_overlap i1 i2) as [ex|[|]]; cbn; congruence.
Qed.

Lemma transfer_inner_cons (clock : nat -> Z * Z) (k : nat) (d1 d2 : string)
    (rest : list string) (e : Engine) :
  transfer_inner clock k d1 (d2 :: rest) e
  = match snd (_are_datasets_compatible d1 d2 e) with
    | inl ex => (e, inl ex)
    | inr true =>
        match add_learning_task d2 TRANSFER 2
                (Some [("source_dataset", VStr d1)])
                (fst (clock k)) (snd (clock k)) e with
        | (e1, inl ex) => (e1, inl ex)
        | (e1, inr _) => transfer_inner clock (S k) d1 rest e1
        end
    | inr false => transfer_inner clock k d1 rest e
    end.
Proof.
  cbn [transfer_inner].
  unfold mbind at 1, M_bind at 1, bind at 1.
  pose proof (are_datasets_compatible_state d1 d2 e) as Hst.
  destruct (_are_datasets_compatible d1 d2 e) as [e0 [ex|[|]]];
    cbn [fst snd] in *; subst e0; reflexivity.
Qed.

(** What the entries submitted for the given pairs look like. *)
Lemma transfer_inner_submits (clock : nat -> Z * Z) (d1 : string)
    (others : list string) :
  forall (k : nat) (e : Engine) (k' : nat),
    snd (transfer_inner clock k d1 others e) = inr k' ->
    exists added : list Item,
      learning_queue (fst (transfer_inner clock k d1 others e))
        ≡ₚ learning_queue e ++ added
      /\ map (fun it => (parameters (snd it), dataset_name (snd it))) added
         = map (fun p => ([("source_dataset", VStr (fst p))], snd p))
               (List.filter (compatible_pair (dataset_registry e))
                            (map (pair d1) others))
      /\ Forall transfer_entry added
      /\ dataset_registry (fst (transfer_inner clock k d1 others e))
         = dataset_registry e.
Proof.
  induction others as [|d2 rest IH]; intros k e k'.
  - cbn. intros _. exists []. rewrite app_nil_r.
    split; [reflexivity|]. split; [reflexivity|]. split; [constructor|].
    reflexivity.
  - rewrite transfer_inner_cons. cbn [map List.filter].
    pose proof (are_datasets_compatible_cases d1 d2 e) as Hcompat.
    destruct (snd (_are_datasets_compatible d1 d2 e)) as [ex|[|]];
      [discriminate | |].
    + rewrite (Hcompat true eq_refl).
      pose proof (add_learning_task_effect e d2 TRANSFER 2
                    (Some [("source_dataset", VStr d1)])
                    (fst (clock k)) (snd (clock k))) as (Hperm & Hrest).
      destruct (add_learning_task d2 TRANSFER 2
                  (Some [("source_dataset", VStr d1)])
                  (fst (clock k)) (snd (clock k)) e) as [e1 [ex|[]]];
        [discriminate|].
      cbn [fst] in Hperm, Hrest. intros Hret.
      assert (Hr : dataset_registry e1 = dataset_registry e)
        by now rewrite Hrest.
      destruct (IH (S k) e1 k' Hret) as (added & Hq & Hnames & Hall & Hreg).
      rewrite Hr in Hnames, Hreg.
      exists ((2%Z, new_task d2 TRANSFER 2
                      (Some [("source_dataset", VStr d1)])
                      (fst (clock k)) (snd (clock k))) :: added).
      split; [|split; [|split]].
      * rewrite Hq, Hperm, <- app_assoc. reflexivity.
      * cbn [map fst snd parameters dataset_name new_task or_empty].
        now rewrite Hnames.
      * constructor; [now repeat split | assumption].
      * assumption.
    + rewrite (Hcompat false eq_refl). intros Hret.
      now apply (IH k e k').
Qed.

Lemma transfer_outer_submits (clock : nat -> Z * Z) (datasets : list string) :
  forall (k : nat) (e : Engine) (k' : nat),
    snd (transfer_outer clock k datasets e) = inr k' ->
    exists added : list Item,
      learning_queue (fst (transfer_outer clock k datasets e))
        ≡ₚ learning_queue e ++ added
      /\ map (fun it => (parameters (snd it), dataset_name (snd it))) added
         = map (fun p => ([("source_dataset", VStr (fst p))], snd p))
               (List.filter (compatible_pair (dataset_registry e))
                            (ordered_pairs datasets))
      /\ Forall transfer_entry added.
Proof.
  induction datasets as [|d1 rest IH]; intros k e k'.
  - cbn. intros _. exists []. rewrite app_nil_r.
    split; [reflexivity|]. split; [reflexivity | constructor].
  - cbn [transfer_outer ordered_pairs].
    unfold mbind, M_bind, bind.
    pose proof (transfer_inner_submits clock d1 rest k e) as Hinner.
    destruct (transfer_inner clock k d1 rest e) as [e1 [ex|k1]];
      [discriminate|].
    destruct (Hinner k1 eq_refl) as (added1 & Hq1 & Hnames1 & Hall1 & Hreg).
    cbn [fst] in Hq1, Hreg. intros Hret.
    destruct (IH k1 e1 k' Hret) as (added2 & Hq2 & Hnames2 & Hall2).
    rewrite Hreg in Hnames2.
    exists (added1 ++ added2). split; [|split].
    + rewrite Hq2, Hq1, <- app_assoc. reflexivity.
    + rewrite List.filter_app, !map_app. f_equal; assumption.
    + now apply Forall_app.
Qed.

(** When [auto_schedule_learning] returns normally, the queue has gained
    exactly these entries: one priority-1 task, with the dataset's default
    mode and [{target_accuracy: 0.8}], for every registered dataset whose
    first recorded accuracy is below 0.8 (0 when none is recorded); and one
    priority-2 transfer task for the second dataset of every pair of
    registered datasets, taken in registry order, that passes the
    compatibility test, with [{source_dataset: first}]. *)
Theorem auto_schedule_submissions :
  forall (clock : nat -> Z * Z) (e : Engine),
    snd (auto_schedule_learning clock e) = inr tt ->
    exists remediation transfers : list Item,
      learning_queue (fst (auto_schedule_learning clock e))
        ≡ₚ learning_queue e ++ remediation ++ transfers
      /\ map (fun it => dataset_name (snd it)) remediation
         = List.filter (below_target (performance_metrics e))
                       (dict_keys (dataset_registry e))
      /\ Forall (remediation_entry (dataset_registry e)) remediation
      /\ map (fun it => (parameters (snd it), dataset_name (snd it))) transfers
         = map (fun p => ([("source_dataset", VStr (fst p))], snd p))
               (List.filter (compatible_pair (dataset_registry e))
                            (ordered_pairs (dict_keys (dataset_registry e))))
      /\ Forall transfer_entry transfers.
Proof.
  intros clock e.
  unfold auto_schedule_learning, _schedule_transfer_learning.
  unfold mbind, M_bind, bind, get_engine, mret, M_ret, ret.
  pose proof (remediation_loop_submits clock
                (dict_keys (dataset_registry e)) 0 e) as Hfirst.
  pose proof (remediation_loop_only_queue clock
                (dict_keys (dataset_registry e)) 0 e) as Hframe.
  destruct (remediation_loop clock 0 (dict_keys (dataset_registry e)) e)
    as [e1 [ex|k]]; [discriminate|].
  destruct (Hfirst k eq_refl) as (_ & remediation & Hq1 & Hnames1 & Hall1).
  cbn [fst] in Hq1, Hframe.
  assert (Hr : dataset_registry e1 = dataset_registry e)
    by now rewrite Hframe.
  rewrite Hr.
  pose proof (transfer_outer_submits clock
                (dict_keys (dataset_registry e)) k e1) as Hsecond.
  destruct (transfer_outer clock k (dict_keys (dataset_registry e)) e1)
    as [e2 [ex|k2]]; [discriminate|].
  destruct (Hsecond k2 eq_refl) as (transfers & Hq2 & Hnames2 & Hall2).
  cbn [fst] in Hq2. rewrite Hr in Hnames2. intros _.
  exists remediation, transfers. cbn [fst].
  split; [|auto].
  rewrite Hq2, Hq1, <- app_assoc. reflexivity.
Qed.

Lemma auto_schedule_submissions_witness :
  let e := run improved_history init in
  exists remediation transfers : list Item,
    learning_queue (fst (auto_schedule_learning (clock_at 700) e))
      ≡ₚ learning_queue e ++ remediation ++ transfers
    /\ map (fun it => dataset_name (snd it)) remediation = ["rice_msc"]
    /\ map (fun it => (parameters (snd it), dataset_name (snd it))) transfers
       = [([("source_dataset", VStr "rice_msc")], "human_faces")].
Proof.
  intros e.
  destruct (auto_schedule_submissions (clock_at 700) e)
    as (remediation & transfers & Hq & Hnames1 & _ & Hnames2 & _);
    [reflexivity|].
  exists remediation, transfers.
  split; [exact Hq|]. split; [exact Hnames1 | exact Hnames2].
Defined.

(** ** Task identifiers *)

Lemma pretty_N_char_free (x : N) : Stdlib.Strings.Ascii.eqb (pretty_N_char x) "_"%char = false.
Proof. unfold pretty_N_char. repeat case_match; reflexivity. Qed.

Lemma pretty_N_go_free (x : N) :
  forall s, underscore_free s = true ->
            underscore_free (pretty_N_go x s) = true.
Proof.
  induction (N.lt_wf_0 x) as [x _ IH]. intros s Hs.
  destruct (N.eq_dec x 0%N) as [->|Hx].
  - now rewrite pretty_N_go_0.
  - rewrite pretty_N_go_step by lia. apply IH.
    + apply N.div_lt; lia.
    + cbn [underscore_free]. now rewrite pretty_N_char_free, Hs.
Qed.

Lemma pretty_Z_free (z : Z) : underscore_free (pretty z) = true.
Proof.
  destruct z as [|p|p]; [reflexivity | |];
    unfold pretty, pretty_Z, pretty, pretty_positive, pretty, pretty_N.
  - destruct (decide (N.pos p = 0%N)); [reflexivity|].
    now apply pretty_N_go_free.
  - destruct (decide (N.pos p = 0%N)); [reflexivity|].
    change ("-" +:+ ?s) with (String "-"%char s). cbn [underscore_free].
    now rewrite pretty_N_go_free.
Qed.

Lemma underscore_in_the_middle (a b : string) :
  underscore_free (a +:+ String "_"%char b) = false.
Proof.
  induction a as [|c a IH].
  - reflexivity.
  - change (String c a +:+ String "_"%char b) with (String c (a +:+ String "_"%char b)).
    cbn [underscore_free]. rewrite IH. apply andb_false_r.
Qed.

Lemma split_at_last_underscore (n1 : string) :
  forall (n2 d1 d2 : string),
    underscore_free d1 = true -> underscore_free d2 = true ->
    n1 +:+ String "_"%char d1 = n2 +:+ String "_"%char d2 ->
    n1 = n2 /\ d1 = d2.
Proof.
  induction n1 as [|c1 n1 IH]; intros [|c2 n2] d1 d2 H1 H2 Heq.
  - injection Heq as ->. now split.
  - change (String "_"%char d1 = String c2 (n2 +:+ String "_"%char d2)) in Heq.
    injection Heq as _ ->. now rewrite underscore_in_the_middle in H1.
  - change (String c1 (n1 +:+ String "_"%char d1) = String "_"%char d2) in Heq.
    injection Heq as _ <-. now rewrite underscore_in_the_middle in H2.
  - change (String c1 (n1 +:+ String "_"%char d1)
            = String c2 (n2 +:+ String "_"%char d2)) in Heq.
    injection Heq as -> Heq.
    destruct (IH n2 d1 d2 H1 H2 Heq) as [-> ->]. now split.
Qed.

(** Two task ids are equal exactly when they were made for the same
    dataset name in the same whole second: ids of different datasets never
    collide, whatever the names, and ids of one dataset collide only
    within one second. *)
Theorem task_ids_collide_only_within_a_second :
  forall (name1 name2 : string) (seconds1 seconds2 : Z),
    make_task_id name1 seconds1 = make_task_id name2 seconds2
    <-> name1 = name2 /\ seconds1 = seconds2.
Proof.
  intros name1 name2 seconds1 seconds2.
  split; [|now intros [-> ->]].
  unfold make_task_id. intros Heq.
  change ("_" +:+ ?s) with (String "_"%char s) in Heq.
  destruct (split_at_last_underscore name1 name2 (pretty seconds1)
              (pretty seconds2)) as [Hname Hsec];
    try apply pretty_Z_free; [exact Heq|].
  split; [exact Hname | now apply pretty_Z_inj in Hsec].
Qed.

(** ** Activation and action selection *)

(** [_relu] keeps the shape of its argument, returns no negative entry,
    leaves a matrix without negative entries as it is, and applying it
    twice is applying it once. *)
Theorem relu_clamps_at_zero :
  forall x : ndarray,
    map (@length Q) (_relu x) = map (@length Q) x
    /\ Forall (Forall (fun v => (0 <= v)%Q)) (_relu x)
    /\ (Forall (Forall (fun v => (0 <= v)%Q)) x -> _relu x = x)
    /\ _relu (_relu x) = _relu x.
Proof.
  intros x.
  assert (Hnonneg : Forall (Forall (fun v => (0 <= v)%Q)) (_relu x)).
  { unfold _relu. apply Forall_forall. intros row Hrow.
    change (map ?f ?l) with (f <$> l) in Hrow.
    apply list_elem_of_fmap in Hrow as (row0 & -> & _).
    apply Forall_forall. intros v Hv.
    change (map ?f ?l) with (f <$> l) in Hv.
    apply list_elem_of_fmap in Hv as (v0 & -> & _).
    destruct (Qlt_le_dec v0 0); [apply Qle_refl | assumption]. }
  assert (Hfix : forall y, Forall (Forall (fun v => (0 <= v)%Q)) y -> _relu y = y).
  { intros y Hy. unfold _relu.
    induction Hy as [|row rows Hrow _ IH]; cbn [map]; [reflexivity|].
    f_equal; [|exact IH].
    induction Hrow as [|v vs Hv _ IHrow]; cbn [map]; [reflexivity|].
    f_equal; [|exact IHrow].
    destruct (Qlt_le_dec v 0) as [Hneg|]; [|reflexivity].
    exfalso. eapply Qlt_not_le; eassumption. }
  split; [|split; [exact Hnonneg | split; [apply Hfix | now apply Hfix]]].
  unfold _relu. rewrite map_map. apply map_ext. intros row.
  apply length_map.
Qed.

Lemma relu_clamps_at_zero_witness :
  _relu [[1 # 2; 0; 3]; [2 # 7]]%Q = [[1 # 2; 0; 3]; [2 # 7]]%Q.
Proof.
  destruct (relu_clamps_at_zero [[1 # 2; 0; 3]; [2 # 7]]%Q)
    as (_ & _ & Hfix & _).
  apply Hfix. repeat constructor; discriminate.
Defined.

Lemma argmax_from_spec (values : list Q) :
  forall (best_index : nat) (best : Q) (i : nat) (seen : list Q),
    length seen = i ->
    (best_index < i)%nat ->
    seen !! best_index = Some best ->
    (forall j v, seen !! j = Some v -> (v <= best)%Q) ->
    (forall j v, (j < best_index)%nat -> seen !! j = Some v -> (v < best)%Q) ->
    let a := argmax_from best_index best i values in
    exists m,
      (seen ++ values) !! a = Some m
      /\ (forall j v, (seen ++ values) !! j = Some v -> (v <= m)%Q)
      /\ (forall j v, (j < a)%nat -> (seen ++ values) !! j = Some v -> (v < m)%Q).
Proof.
  induction values as [|x rest IH];
    intros best_index best i seen Hlen Hidx Hbest Hmax Hfirst a; subst a.
  - cbn [argmax_from]. rewrite app_nil_r. exists best. auto.
  - cbn [argmax_from].
    replace (seen ++ x :: rest) with ((seen ++ [x]) ++ rest)
      by now rewrite <- app_assoc.
    destruct (Qlt_le_dec best x) as [Hlt|Hge].
    + apply IH.
      * rewrite length_app. cbn. lia.
      * lia.
      * rewrite lookup_app_r by lia. now rewrite Hlen, Nat.sub_diag.
      * intros j v Hj.
        destruct (decide (j < length seen)%nat) as [Hin|Hout].
        -- rewrite lookup_app_l in Hj by assumption.
           apply Qlt_le_weak. eapply Qle_lt_trans; [eapply Hmax|]; eassumption.
        -- rewrite lookup_app_r in Hj by lia.
           destruct (j - length seen)%nat; [|discriminate].
           injection Hj as <-. apply Qle_refl.
      * intros j v Hj Hv. rewrite lookup_app_l in Hv by lia.
        eapply Qle_lt_trans; [eapply Hmax|]; eassumption.
    + apply IH.
      * rewrite length_app. cbn. lia.
      * lia.
      * rewrite lookup_app_l by lia. assumption.
      * intros j v Hj.
        destruct (decide (j < length seen)%nat) as [Hin|Hout].
        -- rewrite lookup_app_l in Hj by assumption. eapply Hmax; eassumption.
        -- rewrite lookup_app_r in Hj by lia.
           destruct (j - length seen)%nat; [|discriminate].
           now injection Hj as <-.
      * intros j v Hj Hv. rewrite lookup_app_l in Hv by lia.
        eapply Hfirst; eassumption.
Qed.

(** On a non-empty vector of action values, with a random index inside the
    vector, [_epsilon_greedy_action] returns a valid action; when it does
    not explore ([u >= epsilon]) the action is the first one of largest
    value.  On an empty vector it raises. *)
Theorem epsilon_greedy_action_is_valid :
  forall (q_values : list Q) (epsilon u : Q) (r : nat),
    (q_values = [] -> _epsilon_greedy_action q_values epsilon u r = None)
    /\ (q_values <> [] -> (r < length q_values)%nat ->
        exists a,
          _epsilon_greedy_action q_values epsilon u r = Some a
          /\ (a < length q_values)%nat
          /\ ((epsilon <= u)%Q ->
              exists m,
                q_values !! a = Some m
                /\ (forall j v, q_values !! j = Some v -> (v <= m)%Q)
                /\ (forall j v, (j < a)%nat -> q_values !! j = Some v
                                -> (v < m)%Q))).
Proof.
  intros q_values epsilon u r. split.
  - intros ->. unfold _epsilon_greedy_action.
    now destruct (Qlt_le_dec u epsilon).
  - intros Hne Hr. destruct q_values as [|x rest]; [congruence|].
    destruct (argmax_from_spec rest 0 x 1 [x]) as (m & Hm & Hmax & Hfirst);
      try reflexivity; try lia.
    { intros [|j] v [= <-]. apply Qle_refl. }
    cbn [app] in Hm, Hmax, Hfirst.
    unfold _epsilon_greedy_action, argmax.
    destruct (Qlt_le_dec u epsilon) as [Hexplore|Hgreedy].
    + exists r. split; [reflexivity|]. split; [assumption|].
      intros Hle. exfalso. eapply Qlt_not_le; eassumption.
    + eexists. split; [reflexivity|]. split.
      * eapply lookup_lt_Some; eassumption.
      * intros _. exists m. auto.
Qed.

Lemma epsilon_greedy_action_is_valid_witness :
  exists a,
    _epsilon_greedy_action [1 # 2; 3; 3; 0]%Q (1 # 10) (1 # 2) 2%nat = Some a
    /\ (a < 4)%nat.
Proof.
  destruct (epsilon_greedy_action_is_valid [1 # 2; 3; 3; 0]%Q (1 # 10) (1 # 2) 2%nat)
    as [_ H].
  assert (Hr : (2 < length [1 # 2; 3; 3; 0]%Q)%nat) by (cbn; lia).
  destruct (H ltac:(discriminate) Hr) as (a & Ha & Hlt & _).
  exists a. split; assumption.
Defined.


(** ** Nothing is ever deleted *)

Lemma dict_keys_set {V : Type} (k : string) (v : V) (d : dict V) :
  dict_keys (dict_set k v d)
  = dict_keys d ++ (if dict_in k d then [] else [k]).
Proof.
  unfold dict_keys, dict_in.
  induction d as [|[k0 v0] d IH]; cbn; [reflexivity|].
  destruct (String.eqb_spec k k0) as [->|Hne]; cbn.
  - now rewrite app_nil_r.
  - now rewrite IH.
Qed.

Lemma dict_set_extends {V : Type} (k : string) (v : V) (d : dict V) :
  exists suffix, dict_keys (dict_set k v d) = dict_keys d ++ suffix.
Proof. rewrite dict_keys_set. eauto. Qed.

Lemma execute_extends (env : Env) (task : LearningTask) (e : Engine) :
  let e' := fst (_execute_learning_task env task e) in
  (exists suffix,
      dict_keys (model_registry e') = dict_keys (model_registry e) ++ suffix)
  /\ (exists suffix,
        dict_keys (performance_metrics e')
        = dict_keys (performance_metrics e) ++ suffix)
  /\ (exists suffix,
        dict_keys (models_dir e') = dict_keys (models_dir e) ++ suffix).
Proof.
  intros e'. subst e'.
  pose proof (execute_cases env task e) as Hcase.
  destruct (_execute_learning_task env task e) as [e' t'].
  cbn [fst snd] in *.
  assert (Hsame : forall {V} (d : dict V), exists suffix,
             dict_keys d = dict_keys d ++ suffix)
    by (intros V d; exists []; now rewrite app_nil_r).
  assert (Hstrategy : forall ds e1 r,
            run_strategy env (set_status "running" task) ds e = (e1, r) ->
            (exists suffix, dict_keys (model_registry e1)
                            = dict_keys (model_registry e) ++ suffix)
            /\ performance_metrics e1 = performance_metrics e
            /\ models_dir e1 = models_dir e).
  { intros ds e1 r Hrun.
    destruct (run_strategy_cases env (set_status "running" task) ds e)
      as [[ex H]|[[a H]|[H _]]]; rewrite H in Hrun; simplify_eq;
      (split; [|split; reflexivity]); try apply Hsame.
    apply dict_set_extends. }
  inversion Hcase as [ Hreg | i ex Hreg Hload | i ex Hreg Hload Hrun
                     | i e1 Hreg Hload Hrun Hnone
                     | i e1 mi ex Hreg Hload Hrun Hmi Hsave
                     | i e1 mi Hreg Hload Hrun Hmi Hsave ];
    subst; cbn [model_registry performance_metrics models_dir log_error
                set_models_dir];
    try (repeat split; apply Hsame).
  - destruct (Hstrategy _ _ _ Hrun) as (Hr & -> & ->).
    repeat split; [exact Hr | apply Hsame | apply Hsame].
  - destruct (Hstrategy _ _ _ Hrun) as (Hr & Hm & Hd).
    destruct (update_metrics_frame task e1) as (_ & _ & _ & -> & _).
    rewrite update_metrics_registry, (update_metrics_metrics task e1 mi Hmi),
            Hm, Hd.
    repeat split; [exact Hr | apply dict_set_extends | apply Hsame].
  - destruct (Hstrategy _ _ _ Hrun) as (Hr & Hm & Hd).
    destruct (update_metrics_frame task e1) as (_ & _ & _ & -> & _).
    rewrite update_metrics_registry, (update_metrics_metrics task e1 mi Hmi),
            Hm, Hd.
    repeat split; [exact Hr | apply dict_set_extends | apply dict_set_extends].
Qed.

(** No call ever deletes or reorders anything: across every call the task
    ids of the model registry, those of the performance metrics and the
    paths of the persisted files stay where they are, new ones being added
    at the end. *)
Theorem stores_only_grow :
  forall (e : Engine) (c : Call),
    (exists suffix,
        dict_keys (model_registry (step e c))
        = dict_keys (model_registry e) ++ suffix)
    /\ (exists suffix,
          dict_keys (performance_metrics (step e c))
          = dict_keys (performance_metrics e) ++ suffix)
    /\ (exists suffix,
          dict_keys (models_dir (step e c))
          = dict_keys (models_dir e) ++ suffix).
Proof.
  intros e c.
  assert (Hsame : forall e',
            model_registry e' = model_registry e ->
            performance_metrics e' = performance_metrics e ->
            models_dir e' = models_dir e ->
            (exists suffix,
                dict_keys (model_registry e')
                = dict_keys (model_registry e) ++ suffix)
            /\ (exists suffix,
                  dict_keys (performance_metrics e')
                  = dict_keys (performance_metrics e) ++ suffix)
            /\ (exists suffix,
                  dict_keys (models_dir e')
                  = dict_keys (models_dir e) ++ suffix)).
  { intros e' -> -> ->.
    repeat split; exists []; now rewrite app_nil_r. }
  assert (Hqueue : forall e', only_queue_changed e e' ->
            model_registry e' = model_registry e
            /\ performance_metrics e' = performance_metrics e
            /\ models_dir e' = models_dir e).
  { intros e' ->. now repeat split. }
  destruct c as [name mode prio params seconds now_us | env | clock];
    cbn [step].
  - destruct (Hqueue _ (add_learning_task_only_queue e name mode prio params
                          seconds now_us)) as (H1 & H2 & H3).
    now apply Hsame.
  - unfold _learning_worker.
    destruct (learning_queue e) as [|it q] eqn:Hq; [now apply Hsame|].
    destruct (heappop (it :: q)) as [q' [ex|[p task]]]; [now apply Hsame|].
    pose proof (execute_extends env task (set_queue q' e)) as Hex.
    now destruct (_execute_learning_task env task (set_queue q' e)).
  - destruct (Hqueue _ (auto_schedule_only_queue clock e)) as (H1 & H2 & H3).
    now apply Hsame.
Qed.

(** ** A supervised task from submission to completion *)

(** A supervised task for a registered dataset, submitted to an empty
    queue and taken by the worker when nothing raises: it ends "completed",
    the queue is empty again, and the registry holds the network after all
    [n] epochs together with the accuracy of the last evaluation.  The
    evaluations are made in the epochs 0, 5, 10, ..., each after the update
    of its epoch, so the last one is made on the network that has received
    [5 * ((n - 1) / 5) + 1] updates.  The metrics entry carries the dataset
    name, that accuracy and a tenth of it, the file holds the registry
    entry, and the score has become [min(1.0, score + accuracy * 0.1)]. *)
Theorem supervised_task_end_to_end :
  forall (env : Env) (e : Engine) (i : DatasetInfo) (n' : nat)
         name prio params seconds now_us,
    learning_queue e = [] ->
    dict_get name (dataset_registry e) = Some i ->
    epochs_per_task e = S n' ->
    load_error env = None -> numeric_error env = None ->
    save_error env = None ->
    let task := new_task name SUPERVISED prio params seconds now_us in
    let accuracy :=
      _calculate_accuracy
        (test_classes env (updates env (5 * (n' / 5) + 1) (init_network env)))
        (y_test env) in
    let entry :=
      mkModelInfo
        (SupervisedModel (updates env (S n') (init_network env)) accuracy)
        name (now env) in
    let r := _learning_worker env
               (step e (Submit name SUPERVISED prio params seconds now_us)) in
    snd r = Some (set_status "completed" task)
    /\ learning_queue (fst r) = []
    /\ dict_get (task_id task) (model_registry (fst r)) = Some entry
    /\ dict_get (task_id task) (performance_metrics (fst r))
       = Some (mkMetric accuracy name "supervised" (now env)
                        (fmul accuracy (Fin (1 # 10))))
    /\ dict_get (model_path (task_id task)) (models_dir (fst r)) = Some entry
    /\ human_intelligence_score (fst r)
       = pymin (Fin 1)
           (fadd (human_intelligence_score e) (fmul accuracy (Fin (1 # 10)))).
Proof.
  intros env e i n' name prio params seconds now_us Hq Hreg Hepochs Hload
         Hnum Hsave task accuracy entry r.
  set (e0 := set_queue [] (set_queue [(prio, task)] e)).
  assert (Hworker : r = let (e', t') := _execute_learning_task env task e0 in
                        (e', Some t')).
  { subst r. cbn [step]. rewrite add_learning_task_unfold, Hq.
    reflexivity. }
  assert (Hrun : run_strategy env (set_status "running" task)
                   (mkDataset (y_test env) i) e0
                 = (stored (set_status "running" task)
                      (SupervisedModel (updates env (S n') (init_network env))
                                       accuracy) env e0, inr tt)).
  { unfold run_strategy. cbn [learning_mode set_status task new_task].
    rewrite supervised_learning_stores by assumption.
    subst e0. cbn [epochs_per_task set_queue]. now rewrite Hepochs. }
  assert (Hreg0 : dict_get (dataset_name task) (dataset_registry e0) = Some i)
    by exact Hreg.
  pose proof (execute_cases env task e0) as Hcase.
  destruct (_execute_learning_task env task e0) as [e' t'].
  rewrite Hworker. clear Hworker r.
  cbn [fst snd] in *.
  inversion Hcase as [ Hreg' | i' ex Hreg' Hload' | i' ex Hreg' Hload' Hrun'
                     | i' e1 Hreg' Hload' Hrun' Hnone
                     | i' e1 mi ex Hreg' Hload' Hrun' Hmi Hsave'
                     | i' e1 mi Hreg' Hload' Hrun' Hmi Hsave' He' Ht' ];
    rewrite Hreg0 in Hreg'; try discriminate; try congruence;
    injection Hreg' as <-; rewrite Hrun in Hrun';
    injection Hrun' as <-.
  - cbn [stored model_registry set_model_registry task_id set_status] in Hnone.
    now rewrite dict_get_set in Hnone.
  - cbn [stored model_registry set_model_registry task_id set_status
         dataset_name task new_task] in Hmi.
    rewrite dict_get_set in Hmi. injection Hmi as <-.
    clear Hcase. fold entry.
    set (e1 := stored (set_status "running" task)
                 (SupervisedModel (updates env (S n') (init_network env))
                                  accuracy) env e0).
    assert (Hentry : dict_get (task_id task) (model_registry e1) = Some entry)
      by exact (dict_get_set (task_id task) entry (model_registry e0)).
    pose proof (update_metrics_score task e1 entry Hentry) as Hscore.
    pose proof (update_metrics_metrics task e1 entry Hentry) as Hmetrics.
    pose proof (update_metrics_registry task e1) as Hregistry.
    destruct (update_metrics_frame task e1) as (Hqueue & _).
    set (e2 := fst (_update_performance_metrics task e1)) in *.
    change (Some (set_status "completed" task)
            = Some (set_status "completed" task)
            /\ learning_queue e2 = []
            /\ dict_get (task_id task) (model_registry e2) = Some entry
            /\ dict_get (task_id task) (performance_metrics e2)
               = Some (mkMetric accuracy name "supervised" (now env)
                                (fmul accuracy (Fin (1 # 10))))
            /\ dict_get (model_path (task_id task))
                 (dict_set (model_path (task_id task)) entry (models_dir e2))
               = Some entry
            /\ human_intelligence_score e2
               = pymin (Fin 1)
                   (fadd (human_intelligence_score e)
                         (fmul accuracy (Fin (1 # 10))))).
    rewrite Hscore, Hmetrics, Hregistry, Hqueue.
    split; [reflexivity|]. split; [reflexivity|].
    split; [exact Hentry|].
    split; [apply dict_get_set|].
    split; [apply dict_get_set|]. reflexivity.
Qed.

Lemma supervised_task_end_to_end_witness :
  let r := _learning_worker quiet_env
             (step init (Submit "rice_msc" SUPERVISED 1 None 100 100000000)) in
  human_intelligence_score (fst r)
  = pymin (Fin 1) (fadd (Fin 0) (fmul (Fin (2 # 4)) (Fin (1 # 10)))).
Proof.
  intros r.
  apply (supervised_task_end_to_end quiet_env init
           (mkInfo "classification" 106 5 75000 SUPERVISED) 9
           "rice_msc" 1 None 100 100000000);
    reflexivity.
Defined.
